(** * A shallow embedding of the ESMTP connection engine (conn.go)

    The development follows the layout of the Go package: first the
    pieces of the Go standard library that conn.go calls (strings,
    strconv, encoding/base64, regexp, bufio.Scanner), then the data
    model ([Server], [Conn], [Message], [User], SASL sessions), then
    the handlers of conn.go one by one, and last the properties.  The
    case tables of package unicode are a parameter ([Strings.Unicode]):
    the properties are proved for every table, and then applied to a
    sample server.

    Go strings are byte sequences; they are modelled by [string], whose
    characters are the 256 values of [ascii]. *)

From Stdlib Require Import ZArith Ascii String List Bool Lia DecimalString.
From stdpp Require Import base option list strings gmap.

Local Open Scope string_scope.
Local Open Scope list_scope.
Local Open Scope Z_scope.

(** ** Bytes *)

Module Bytes.

Definition code (a : ascii) : N := N_of_ascii a.

Definition between (lo hi : N) (a : ascii) : bool :=
  ((lo <=? code a) && (code a <=? hi))%N.

Definition isByte (n : N) (a : ascii) : bool := (code a =? n)%N.

Definition isDigit : ascii -> bool := between 48 57.
Definition isUpper : ascii -> bool := between 65 90.
Definition isLower : ascii -> bool := between 97 122.

(** Perl class [\w] : [0-9A-Za-z_]. *)
Definition isWord (a : ascii) : bool :=
  isDigit a || isUpper a || isLower a || isByte 95 a.

(** Perl class [\s] of Go's regexp: tab, newline, form feed, carriage
    return, space. *)
Definition isPerlSpace (a : ascii) : bool :=
  isByte 9 a || isByte 10 a || isByte 12 a || isByte 13 a || isByte 32 a.

Definition CR : ascii := ascii_of_N 13.
Definition LF : ascii := ascii_of_N 10.

End Bytes.

Definition CRLF : string := String Bytes.CR (String Bytes.LF "").

(** ** Package strings *)

Module Strings.

Definition upperByte (a : ascii) : ascii :=
  if Bytes.isLower a then ascii_of_N (Bytes.code a - 32) else a.

(** No byte of [s] is [utf8.RuneSelf] (128) or above. *)
Fixpoint isASCII (s : string) : bool :=
  match s with
  | "" => true
  | String a s' => (Bytes.code a <? 128)%N && isASCII s'
  end.

(** The letters a-z of [s] mapped to A-Z. *)
Fixpoint upperASCII (s : string) : string :=
  match s with
  | "" => ""
  | String a s' => String (upperByte a) (upperASCII s')
  end.

(** The case tables of package unicode, which are not part of the
    development: [upperRunes s] stands for [Map(unicode.ToUpper, s)],
    the runes of [s] in upper case, with what [Map] makes of bytes that
    are not UTF-8.  It is asked only about strings that hold a byte
    above 127; what is proved holds for every such function. *)
Class Unicode : Type := {
  upperRunes : string -> string
}.

(** [strings.ToUpper]: letters a-z to A-Z when all of [s] is ASCII, and
    the runes of [s] through [unicode.ToUpper] otherwise. *)
Definition ToUpper `{Unicode} (s : string) : string :=
  if isASCII s then upperASCII s else upperRunes s.

(** Width in bytes of the white-space rune (unicode.IsSpace) that starts
    [s], or 0 when [s] does not start with one.  The multi-byte cases are
    the UTF-8 encodings of U+0085, U+00A0, U+1680, U+2000..U+200A,
    U+2028, U+2029, U+202F, U+205F and U+3000. *)
Definition spaceWidth (s : string) : nat :=
  match s with
  | "" => 0%nat
  | String a s1 =>
    if Bytes.between 9 13 a || Bytes.isByte 32 a then 1%nat
    else match s1 with
    | "" => 0%nat
    | String b s2 =>
      if Bytes.isByte 194 a && (Bytes.isByte 133 b || Bytes.isByte 160 b) then 2%nat
      else match s2 with
      | "" => 0%nat
      | String c _ =>
        if Bytes.isByte 225 a && Bytes.isByte 154 b && Bytes.isByte 128 c then 3%nat
        else if Bytes.isByte 226 a && Bytes.isByte 128 b &&
                (Bytes.between 128 138 c || Bytes.isByte 168 c ||
                 Bytes.isByte 169 c || Bytes.isByte 175 c) then 3%nat
        else if Bytes.isByte 226 a && Bytes.isByte 129 b && Bytes.isByte 159 c then 3%nat
        else if Bytes.isByte 227 a && Bytes.isByte 128 b && Bytes.isByte 128 c then 3%nat
        else 0%nat
      end
    end
  end.

Definition flush (tok : string) : list string :=
  match tok with "" => [] | _ => [tok] end.

(** [skip] counts the bytes still to drop of a multi-byte space; [tok]
    is the field read so far. *)
Fixpoint fieldsFrom (skip : nat) (tok : string) (s : string) : list string :=
  match s with
  | "" => flush tok
  | String a s' =>
    match skip with
    | S n => fieldsFrom n tok s'
    | O =>
      match spaceWidth s with
      | O => fieldsFrom 0 (tok +:+ String a "") s'
      | S n => flush tok ++ fieldsFrom n "" s'
      end
    end
  end.

(** [strings.Fields]: the maximal runs of non-space bytes. *)
Definition Fields (s : string) : list string := fieldsFrom 0 "" s.

Fixpoint mem (a : ascii) (cutset : string) : bool :=
  match cutset with
  | "" => false
  | String b cs => Ascii.eqb a b || mem a cs
  end.

Fixpoint TrimLeft (s cutset : string) : string :=
  match s with
  | "" => ""
  | String a s' => if mem a cutset then TrimLeft s' cutset else s
  end.

Fixpoint TrimRight (s cutset : string) : string :=
  match s with
  | "" => ""
  | String a s' =>
    match TrimRight s' cutset with
    | "" => if mem a cutset then "" else String a ""
    | t => String a t
    end
  end.

(** [strings.Trim] with an ASCII cutset. *)
Definition Trim (s cutset : string) : string :=
  TrimRight (TrimLeft s cutset) cutset.

(** The slice expressions [s[0:n]] and [s[n:]], used by conn.go only
    after a length check. *)
Fixpoint take (n : nat) (s : string) : string :=
  match n, s with
  | S n', String a s' => String a (take n' s')
  | _, _ => ""
  end.

Fixpoint drop (n : nat) (s : string) : string :=
  match n, s with
  | S n', String _ s' => drop n' s'
  | _, _ => s
  end.

Definition len (s : string) : Z := Z.of_nat (String.length s).

Definition isEmpty (s : string) : bool :=
  match s with "" => true | _ => false end.

End Strings.

(** ** Package strconv and the [%v] verb on an int *)

Module Strconv.

Fixpoint digits (acc : Z) (s : string) : option Z :=
  match s with
  | "" => Some acc
  | String a s' =>
    if Bytes.isDigit a
    then digits (acc * 10 + (Z.of_N (Bytes.code a) - 48)) s'
    else None
  end.

Definition unsigned (s : string) : option Z :=
  match s with
  | "" => None
  | _ => digits 0 s
  end.

(** [strconv.ParseInt(s, 10, 32)]: an optional sign, at least one
    decimal digit, and a value in the int32 range; anything else is an
    error. *)
Definition ParseInt32 (s : string) : option Z :=
  match s with
  | "" => None
  | String a s' =>
    let '(neg, body) :=
      if Bytes.isByte 43 a then (false, s')
      else if Bytes.isByte 45 a then (true, s')
      else (false, s) in
    match unsigned body with
    | None => None
    | Some n =>
      let v := if neg then - n else n in
      if (- 2 ^ 31 <=? v) && (v <? 2 ^ 31) then Some v else None
    end
  end.

(** [fmt.Sprintf("%v", n)] for an int. *)
Definition Itoa (n : Z) : string := NilEmpty.string_of_int (Z.to_int n).

End Strconv.

(** ** Package encoding/base64 (StdEncoding) *)

Module Base64.

(** The decode map of the standard alphabet. *)
Definition value (a : ascii) : option N :=
  let c := Bytes.code a in
  if Bytes.isUpper a then Some (c - 65)%N
  else if Bytes.isLower a then Some (c - 97 + 26)%N
  else if Bytes.isDigit a then Some (c - 48 + 52)%N
  else if Bytes.isByte 43 a then Some 62%N
  else if Bytes.isByte 47 a then Some 63%N
  else None.

Definition isPad (a : ascii) : bool := Bytes.isByte 61 a.

(** The decoder skips carriage returns and line feeds wherever they
    stand, the padding included. *)
Fixpoint dropNewlines (s : string) : string :=
  match s with
  | "" => ""
  | String a s' =>
    if Bytes.isByte 10 a || Bytes.isByte 13 a then dropNewlines s'
    else String a (dropNewlines s')
  end.

Definition byteOf (n : N) : ascii := ascii_of_N (n mod 256).

(** The bytes of one quantum of four 6-bit values. *)
Definition quantum (a b c d : N) : ascii * ascii * ascii :=
  let v := (a * 262144 + b * 4096 + c * 64 + d)%N in
  (byteOf (v / 65536), byteOf (v / 256), byteOf v).

(** Full quanta, then either the end of the input or one padded quantum
    ("xx==" or "xxx=") with nothing behind it.  Left-over bits of a
    padded quantum are not checked (the encoding is not strict). *)
Fixpoint decodeQuanta (s : string) : option string :=
  match s with
  | "" => Some ""
  | String a (String b (String c (String d rest))) =>
    match value a, value b with
    | Some va, Some vb =>
      match value c with
      | Some vc =>
        match value d with
        | Some vd =>
          let '(x, y, z) := quantum va vb vc vd in
          match decodeQuanta rest with
          | Some out => Some (String x (String y (String z out)))
          | None => None
          end
        | None =>
          if isPad d && Strings.isEmpty rest
          then let '(x, y, _) := quantum va vb vc 0 in
               Some (String x (String y ""))
          else None
        end
      | None =>
        if isPad c && isPad d && Strings.isEmpty rest
        then let '(x, _, _) := quantum va vb 0 0 in Some (String x "")
        else None
      end
    | _, _ => None
    end
  | _ => None
  end.

(** [base64.StdEncoding.DecodeString]; [None] is a CorruptInputError. *)
Definition DecodeString (s : string) : option string :=
  decodeQuanta (dropNewlines s).

Definition digit (n : N) : ascii :=
  let n := (n mod 64)%N in
  if (n <? 26)%N then ascii_of_N (n + 65)
  else if (n <? 52)%N then ascii_of_N (n - 26 + 97)
  else if (n <? 62)%N then ascii_of_N (n - 52 + 48)
  else if (n =? 62)%N then ascii_of_N 43
  else ascii_of_N 47.

Definition pad : ascii := ascii_of_N 61.

(** [base64.StdEncoding.EncodeToString]. *)
Fixpoint EncodeToString (s : string) : string :=
  match s with
  | "" => ""
  | String x "" =>
    let v := (Bytes.code x * 65536)%N in
    String (digit (v / 262144)) (String (digit (v / 4096))
      (String pad (String pad "")))
  | String x (String y "") =>
    let v := (Bytes.code x * 65536 + Bytes.code y * 256)%N in
    String (digit (v / 262144)) (String (digit (v / 4096))
      (String (digit (v / 64)) (String pad "")))
  | String x (String y (String z rest)) =>
    let v := (Bytes.code x * 65536 + Bytes.code y * 256 + Bytes.code z)%N in
    String (digit (v / 262144)) (String (digit (v / 4096))
      (String (digit (v / 64)) (String (digit v) (EncodeToString rest))))
  end.

End Base64.

(** ** Package regexp

    A backtracking matcher with Go's leftmost-first preference: an
    alternation tries its left branch first, a repetition tries one more
    round before it stops.  Text is matched byte by byte; the classes
    that conn.go uses treat every byte above 127 alike, except for the
    two runes that case folding adds to [\w] (see [MailRegexp]). *)

Module Regexp.

Inductive re : Type :=
| Eps
| Byte (p : ascii -> bool)
| Cat (r1 r2 : re)
| Alt (r1 r2 : re)
| Star (r : re)
| Group (n : nat) (r : re)
| BeginText
| EndText.

Definition Plus (r : re) : re := Cat r (Star r).
Definition Quest (r : re) : re := Alt r Eps.

(** A literal under the flag [(?i)]. *)
Fixpoint LitFold (s : string) : re :=
  match s with
  | "" => Eps
  | String a s' =>
    Cat (Byte (fun b => Ascii.eqb (Strings.upperByte b) (Strings.upperByte a)))
        (LitFold s')
  end.

Definition captures : Type := list (nat * string).

Fixpoint captured (n : nat) (cs : captures) : string :=
  match cs with
  | [] => ""
  | (m, s) :: cs' => if Nat.eqb n m then s else captured n cs'
  end.

Definition cont : Type := nat -> string -> captures -> option captures.

(** The rounds of a [Star] whose body is matched by [body]: one more
    round is tried before the repetition stops, and a round that
    consumes nothing is not taken.  [fuel] bounds the rounds by the
    length of the text. *)
Fixpoint rounds (body : nat -> string -> captures -> cont -> option captures)
    (k : cont) (fuel : nat) (i : nat) (s : string) (cs : captures)
  : option captures :=
  match fuel with
  | O => k i s cs
  | S fuel' =>
    match body i s cs
            (fun i' s' cs' =>
               if (i <? i')%nat then rounds body k fuel' i' s' cs' else None)
    with
    | Some m => Some m
    | None => k i s cs
    end
  end.

(** [run r i s cs k]: match [r] at offset [i], where [s] is the text from
    [i] on and [cs] the groups closed so far, then continue with [k]. *)
Fixpoint run (r : re) (i : nat) (s : string) (cs : captures) (k : cont)
  : option captures :=
  match r with
  | Eps => k i s cs
  | Byte p =>
    match s with
    | String a s' => if p a then k (S i) s' cs else None
    | "" => None
    end
  | Cat r1 r2 => run r1 i s cs (fun i' s' cs' => run r2 i' s' cs' k)
  | Alt r1 r2 =>
    match run r1 i s cs k with
    | Some m => Some m
    | None => run r2 i s cs k
    end
  | Star r1 => rounds (run r1) k (String.length s) i s cs
  | Group n r1 =>
    run r1 i s cs
      (fun i' s' cs' => k i' s' ((n, Strings.take (i' - i) s) :: cs'))
  | BeginText => if (i =? 0)%nat then k i s cs else None
  | EndText => match s with "" => k i s cs | _ => None end
  end.

(** Whether every match of [r] consumes a byte. *)
Fixpoint nonnull (r : re) : bool :=
  match r with
  | Byte _ => true
  | Cat r1 r2 => nonnull r1 || nonnull r2
  | Alt r1 r2 => nonnull r1 && nonnull r2
  | Group _ r1 => nonnull r1
  | Eps | Star _ | BeginText | EndText => false
  end.

(** Whether [r] has the group [n]. *)
Fixpoint hasGroup (n : nat) (r : re) : bool :=
  match r with
  | Cat r1 r2 | Alt r1 r2 => hasGroup n r1 || hasGroup n r2
  | Star r1 => hasGroup n r1
  | Group m r1 => Nat.eqb n m || hasGroup n r1
  | Eps | Byte _ | BeginText | EndText => false
  end.

Definition accept (i : nat) (s : string) : cont :=
  fun i' _ cs => Some ((0%nat, Strings.take (i' - i) s) :: cs).

(** The leftmost match: offsets are tried from the left. *)
Fixpoint search (r : re) (i : nat) (s : string) : option captures :=
  match run r i s [] (accept i s) with
  | Some cs => Some cs
  | None =>
    match s with
    | "" => None
    | String _ s' => search r (S i) s'
    end
  end.

(** [Regexp.FindStringSubmatch] for an expression with [groups]
    groups: the whole match, then each group, the empty string standing
    for a group that took no part.  [None] is the nil slice. *)
Definition FindStringSubmatch (r : re) (groups : nat) (s : string)
  : option (list string) :=
  match search r 0 s with
  | Some cs => Some (List.map (fun n => captured n cs) (seq 0 (S groups)))
  | None => None
  end.

End Regexp.

(** The expression of [handleMail], written here with Q for the double
    quote character:
    [(?i)^FROM:\s*<((?:\\>|[^>])+|Q[^Q]+Q@[^>]+)>( [\w= ]+)?$] *)

Module MailRegexp.
Import Regexp.

Definition notByte (n : N) (a : ascii) : bool := negb (Bytes.isByte n a).

Definition gt : N := 62.
Definition quote : N := 34.

(** [(?:\\>|[^>])+] *)
Definition unquoted : re :=
  Plus (Alt (Cat (Byte (Bytes.isByte 92)) (Byte (Bytes.isByte gt)))
            (Byte (notByte gt))).

(** [Q[^Q]+Q@[^>]+], Q the double quote *)
Definition quoted : re :=
  Cat (Byte (Bytes.isByte quote))
 (Cat (Plus (Byte (notByte quote)))
 (Cat (Byte (Bytes.isByte quote))
 (Cat (Byte (Bytes.isByte 64))
      (Plus (Byte (notByte gt)))))).

(** [[\w= ]] under [(?i)]: folding adds to [\w] the runes U+017F and
    U+212A, whose simple folds are s and k; in UTF-8 they are the bytes
    C5 BF and E2 84 AA. *)
Definition paramByte (a : ascii) : bool :=
  Bytes.isWord a || Bytes.isByte 61 a || Bytes.isByte 32 a.

Definition paramRune : re :=
  Alt (Byte paramByte)
 (Alt (Cat (Byte (Bytes.isByte 197)) (Byte (Bytes.isByte 191)))
      (Cat (Byte (Bytes.isByte 226))
      (Cat (Byte (Bytes.isByte 132)) (Byte (Bytes.isByte 170))))).

Definition expr : re :=
  Cat BeginText
 (Cat (LitFold "FROM:")
 (Cat (Star (Byte Bytes.isPerlSpace))
 (Cat (Byte (Bytes.isByte 60))
 (Cat (Group 1 (Alt unquoted quoted))
 (Cat (Byte (Bytes.isByte gt))
 (Cat (Quest (Group 2 (Cat (Byte (Bytes.isByte 32)) (Plus paramRune))))
      EndText)))))).

Definition FindStringSubmatch : string -> option (list string) :=
  Regexp.FindStringSubmatch expr 2.

End MailRegexp.

(** ** Package bufio: the line scanner of [handleAuth] *)

Module Scanner.

Definition MaxScanTokenSize : Z := 65536.

Definition fits (cur : string) : bool := Strings.len cur <? MaxScanTokenSize.

Fixpoint dropCR (s : string) : string :=
  match s with
  | "" => ""
  | String a "" => if Bytes.isByte 13 a then "" else s
  | String a s' => String a (dropCR s')
  end.

(** The tokens that successive calls of [Scan] return on the input [s],
    each with the input left behind it.  [cur] is the line read so far.
    A last line without a newline is a token; a line that does not fit
    the buffer ends the scan.  The scanner is taken to consume the lines
    it returns and nothing behind them: what a client pipelines behind a
    SASL response is outside the model. *)
Fixpoint tokens (cur : string) (s : string) : list (string * string) :=
  match s with
  | "" =>
    match cur with
    | "" => []
    | _ => if fits cur then [(dropCR cur, "")] else []
    end
  | String a s' =>
    if Bytes.isByte 10 a
    then if fits cur then (dropCR cur, s') :: tokens "" s' else []
    else tokens (cur +:+ String a "") s'
  end.

Definition NewScanner (input : string) : list (string * string) :=
  tokens "" input.

End Scanner.

(** ** The body reader of DATA *)

Module DataReader.

(** What reading the body to its end gives. *)
Inductive Stream : Type :=
| Bytes (body : string)
| TooBig
| UnexpectedEOF.

Inductive state : Type := BeginLine | InLine | AfterCR.

Definition next (a : ascii) : state :=
  if Bytes.isByte 13 a then AfterCR else InLine.

Definition startsWithCRLF (s : string) : bool :=
  match s with
  | String a (String b _) => Bytes.isByte 13 a && Bytes.isByte 10 b
  | _ => false
  end.

Definition emit (a : ascii) (r : Stream * string) : Stream * string :=
  match r with
  | (Bytes body, rest) => (Bytes (String a body), rest)
  | other => other
  end.

(** Modelled from the spec: the file that defines newDataReader is not
    among the sources.  Section 4.3: the body ends at a line that holds
    a single dot, the first line of the body included; a line that
    starts with a dot and has further bytes loses that dot; only CR LF
    ends a line; with a positive limit the reader fails once the body
    delivered so far is larger than the limit; it fails too when the
    input ends before the terminator.  [n] counts the bytes delivered.
    The result is the stream and the input left for the command
    reader. *)
Fixpoint read (max : Z) (st : state) (n : Z) (s : string) : Stream * string :=
  match s with
  | "" => (UnexpectedEOF, "")
  | String a s' =>
    let deliver (st' : state) :=
      if (0 <? max) && (max <? n + 1) then (TooBig, s')
      else emit a (read max st' (n + 1) s') in
    match st with
    | BeginLine =>
      if Bytes.isByte 46 a
      then if startsWithCRLF s' then (Bytes "", Strings.drop 2 s')
           else read max InLine n s'
      else deliver (next a)
    | InLine => deliver (next a)
    | AfterCR => deliver (if Bytes.isByte 10 a then BeginLine else next a)
    end
  end.

Definition readAll (max : Z) (input : string) : Stream * string :=
  read max BeginLine 0 input.

(** The reader that [newDataReader] returns, before anything was read
    from it: the limit of the server, and the input of the connection
    that it will read from. *)
Record Reader : Type := {
  limit : Z;
  input : string
}.

(** [ioutil.ReadAll] on the reader: what it gives, and the input that
    it leaves. *)
Definition ReadAll (r : Reader) : Stream * string :=
  readAll (limit r) (input r).

End DataReader.

(** ** The data model *)

(** The envelope: [Message] of the package.  [Data] is nil until DATA
    sets the body reader, from which nothing is read before the backend
    does. *)
Record Message : Type := {
  From : string;
  To : list string;
  Data : option DataReader.Reader
}.

(** [&Message{}] *)
Definition emptyMessage : Message := {| From := ""; To := []; Data := None |}.

Module Backend.

(** What [User.Send] returns: nil, an [*smtpError] with its code and
    message, or another error with its text. *)
Inductive SendResult : Type :=
| Sent
| SmtpError (Code Message : string)
| OtherError (text : string).

(** The [User] interface.  [Send] is given the envelope with its body
    reader and reads from it what it likes: all of the body, a part of
    it, or nothing.  It returns its error together with the input of
    the connection that it has left unread.  [Logout] has no result that
    conn.go looks at; its calls are recorded in the connection. *)
Record User : Type := {
  Name : string;
  Send : Message -> SendResult * string
}.

End Backend.

Module Sasl.

(** What one call of [Next] gives: the challenge, done, the error, and
    the user that the mechanism stored in the connection, if it did. *)
Record Step : Type := {
  challenge : string;
  done : bool;
  err : option string;
  login : option Backend.User
}.

(** Modelled from the spec: the SASL mechanisms are not among the
    sources.  Section 4.5: a mechanism session has one step operation
    from the client response to a challenge, a done flag and an error,
    and it may set the user of the connection.  A session is modelled by
    its answers as a function of the responses it was fed so far, the
    oldest first; a response is [None] for the nil slice. *)
Definition Server : Type := list (option string) -> Step.

End Sasl.

(** [Server]: the configuration that conn.go reads.  Of [TLSConfig] only
    its presence matters; [auths] maps the name of a mechanism to the
    session that its factory makes for a connection. *)
Record Server : Type := {
  Domain : string;
  TLSConfig : option unit;
  AllowInsecureAuth : bool;
  MaxMessageBytes : Z;
  MaxRecipients : Z;
  MaxIdleSeconds : Z;
  caps : list string;
  auths : gmap string Sasl.Server
}.

(** The transport [net.Conn]: whether it is a [*tls.Conn], whether it
    was closed, whether its TLS handshake failed, and whether the peer
    will complete a handshake when asked. *)
Record NetConn : Type := {
  tls : bool;
  closed : bool;
  handshakeFailed : bool;
  peerHandshakes : bool
}.

(** [Conn].  [reader] holds the bytes that the client sends and that
    were not read yet, [writer] the lines written and flushed so far;
    [logouts] records the calls of [User.Logout].  The field [server] is
    passed to the handlers as an argument. *)
Record Conn : Type := {
  helo : string;
  User : option Backend.User;
  msg : option Message;
  conn : NetConn;
  reader : string;
  writer : list string;
  nbrErrors : Z;
  logouts : list Backend.User
}.

Definition setHelo (h : string) (c : Conn) : Conn :=
  {| helo := h; User := User c; msg := msg c; conn := conn c;
     reader := reader c; writer := writer c; nbrErrors := nbrErrors c;
     logouts := logouts c |}.

Definition setUser (u : option Backend.User) (c : Conn) : Conn :=
  {| helo := helo c; User := u; msg := msg c; conn := conn c;
     reader := reader c; writer := writer c; nbrErrors := nbrErrors c;
     logouts := logouts c |}.

Definition setMsg (m : option Message) (c : Conn) : Conn :=
  {| helo := helo c; User := User c; msg := m; conn := conn c;
     reader := reader c; writer := writer c; nbrErrors := nbrErrors c;
     logouts := logouts c |}.

Definition setConn (n : NetConn) (c : Conn) : Conn :=
  {| helo := helo c; User := User c; msg := msg c; conn := n;
     reader := reader c; writer := writer c; nbrErrors := nbrErrors c;
     logouts := logouts c |}.

Definition setReader (r : string) (c : Conn) : Conn :=
  {| helo := helo c; User := User c; msg := msg c; conn := conn c;
     reader := r; writer := writer c; nbrErrors := nbrErrors c;
     logouts := logouts c |}.

Definition setWriter (w : list string) (c : Conn) : Conn :=
  {| helo := helo c; User := User c; msg := msg c; conn := conn c;
     reader := reader c; writer := w; nbrErrors := nbrErrors c;
     logouts := logouts c |}.

Definition setNbrErrors (n : Z) (c : Conn) : Conn :=
  {| helo := helo c; User := User c; msg := msg c; conn := conn c;
     reader := reader c; writer := writer c; nbrErrors := n;
     logouts := logouts c |}.

Definition setLogouts (l : list Backend.User) (c : Conn) : Conn :=
  {| helo := helo c; User := User c; msg := msg c; conn := conn c;
     reader := reader c; writer := writer c; nbrErrors := nbrErrors c;
     logouts := l |}.

(** [newConn]: the connection as the server hands it to the engine. *)
Definition newConn (n : NetConn) (input : string) : Conn :=
  {| helo := ""; User := None; msg := None; conn := n; reader := input;
     writer := []; nbrErrors := 0; logouts := [] |}.

(** A handler returns, or the goroutine panics (an index out of range,
    a method call on a nil interface). *)
Inductive Result : Type :=
| Ok (c : Conn)
| Panic.

(** Go's int, 64 bits wide, with its wrap-around. *)
Module Int.
Definition wrap (n : Z) : Z := (n + 2 ^ 63) mod 2 ^ 64 - 2 ^ 63.
Definition incr (n : Z) : Z := wrap (n + 1).
End Int.

(** ** Argument parsers of the package that conn.go calls *)

Module Parse.

(** Modelled from the spec: the file that defines parseHelloArgument is
    not among the sources.  Section 4.2: the first whitespace-delimited
    token is the client domain; empty or missing is an error. *)
Definition parseHelloArgument (arg : string) : option string :=
  match Strings.Fields arg with
  | domain :: _ => Some domain
  | [] => None
  end.

(** The tokens of [s] between spaces. *)
Fixpoint splitSpaces (tok : string) (s : string) : list string :=
  match s with
  | "" => Strings.flush tok
  | String a s' =>
    if Bytes.isByte 32 a then Strings.flush tok ++ splitSpaces "" s'
    else splitSpaces (tok +:+ String a "") s'
  end.

(** [KEY=VALUE], cut at the first equals sign. *)
Fixpoint keyValue (key : string) (s : string) : option (string * string) :=
  match s with
  | "" => None
  | String a s' =>
    if Bytes.isByte 61 a then Some (key, s')
    else keyValue (key +:+ String a "") s'
  end.

Fixpoint collect `{Strings.Unicode} (toks : list string)
    (args : gmap string string) : option (gmap string string) :=
  match toks with
  | [] => Some args
  | t :: toks' =>
    match keyValue "" t with
    | Some (k, v) => collect toks' (<[Strings.ToUpper k := v]> args)
    | None => None
    end
  end.

(** Modelled from the spec: the file that defines parseArgs is not among
    the sources.  Section 4.2: the parameters are space-separated
    KEY=VALUE tokens, gathered in a mapping whose keys do not depend on
    case; a token of another form is a parse failure. *)
Definition parseArgs `{Strings.Unicode} (s : string)
  : option (gmap string string) :=
  collect (splitSpaces "" s) ∅.

(** [args[key]]: the empty string for a key that is not there. *)
Definition index (args : gmap string string) (key : string) : string :=
  default "" (args !! key).

End Parse.

(** ** conn.go *)

Section Engine.

Context {tables : Strings.Unicode}.

(** The lines of one reply: all but the last with a dash after the code.
    [Write] is never called without a text. *)
Fixpoint replyLines (code : string) (text : list string) : list string :=
  match text with
  | [] => []
  | [t] => [code +:+ " " +:+ t +:+ CRLF]
  | t :: ts => (code +:+ "-" +:+ t +:+ CRLF) :: replyLines code ts
  end.

(** [Conn.Write]: the lines go to the buffered writer and are flushed.
    The deadline that it sets and the errors of the transport, which it
    ignores, are not part of the model. *)
Definition Write (code : string) (text : list string) (c : Conn) : Conn :=
  setWriter (writer c ++ replyLines code text) c.

(** [Conn.IsTLS] *)
Definition IsTLS (c : Conn) : bool := tls (conn c).

(** The call [c.User.Logout()] under its nil check. *)
Definition logout (c : Conn) : Conn :=
  match User c with
  | Some u => setLogouts (logouts c ++ [u]) c
  | None => c
  end.

(** [Conn.Close] *)
Definition Close (c : Conn) : Conn :=
  let c := logout c in
  setConn {| tls := tls (conn c); closed := true;
             handshakeFailed := handshakeFailed (conn c);
             peerHandshakes := peerHandshakes (conn c) |} c.

(** [Conn.reset] *)
Definition reset (c : Conn) : Conn :=
  let c := logout c in
  setMsg None (setUser None (setHelo "" c)).

Definition authCap (s : Server) : string :=
  fold_left (fun acc name => acc +:+ " " +:+ name)
            ((map_to_list (auths s)).*1) "AUTH".

(** The capabilities of EHLO.  Go walks the map of mechanisms in no fixed
    order; here the order is that of [map_to_list]. *)
Definition ehloCaps (s : Server) (c : Conn) : list string :=
  caps s
  ++ (if bool_decide (TLSConfig s ≠ None) && negb (IsTLS c)
      then ["STARTTLS"] else [])
  ++ (if IsTLS c || AllowInsecureAuth s then [authCap s] else [])
  ++ (if 0 <? MaxMessageBytes s
      then ["SIZE " +:+ Strconv.Itoa (MaxMessageBytes s)] else []).

Definition handleGreet (s : Server) (enhanced : bool) (arg : string)
    (c : Conn) : Conn :=
  if negb enhanced then
    match Parse.parseHelloArgument arg with
    | None => Write "501" ["Domain/address argument required for HELO"] c
    | Some domain =>
      let c := setHelo domain c in
      Write "250" ["Hello " +:+ domain] c
    end
  else
    match Parse.parseHelloArgument arg with
    | None => Write "501" ["Domain/address argument required for EHLO"] c
    | Some domain =>
      let c := setHelo domain c in
      Write "250" (("Hello " +:+ domain) :: ehloCaps s c) c
    end.

Definition setFrom (from : string) (m : Message) : Message :=
  {| From := from; To := To m; Data := Data m |}.

Definition setTo (to : list string) (m : Message) : Message :=
  {| From := From m; To := to; Data := Data m |}.

Definition setData (d : option DataReader.Reader) (m : Message) : Message :=
  {| From := From m; To := To m; Data := d |}.

(** The part of [handleMail] behind the match of the expression: the
    ESMTP parameters, then the assignment and the reply. *)
Definition mailParams (s : Server) (from params : string) (m : Message)
    (c : Conn) : Conn :=
  let accept :=
    Write "250" ["Roger, accepting mail from <" +:+ from +:+ ">"]
          (setMsg (Some (setFrom from m)) c) in
  if Strings.isEmpty params then accept
  else
    match Parse.parseArgs params with
    | None => Write "501" ["Unable to parse MAIL ESMTP parameters"] c
    | Some args =>
      if Strings.isEmpty (Parse.index args "SIZE") then accept
      else
        match Strconv.ParseInt32 (Parse.index args "SIZE") with
        | None => Write "501" ["Unable to parse SIZE as an integer"] c
        | Some size =>
          if (0 <? MaxMessageBytes s) && (MaxMessageBytes s <? size)
          then Write "552" ["Max message size exceeded"] c
          else accept
        end
    end.

Definition handleMail (s : Server) (arg : string) (c : Conn) : Conn :=
  if Strings.isEmpty (helo c) then
    Write "502" ["Please introduce yourself first."] c
  else
    match msg c with
    | None => Write "502" ["Please authenticate first."] c
    | Some m =>
      match MailRegexp.FindStringSubmatch arg with
      | Some [_; from; params] => mailParams s from params m c
      | _ =>
        Write "501" ["Was expecting MAIL arg syntax of FROM:<address>"] c
      end
    end.

Definition missingFrom (c : Conn) : bool :=
  match msg c with
  | None => true
  | Some m => Strings.isEmpty (From m)
  end.

Definition handleRcpt (s : Server) (arg : string) (c : Conn) : Conn :=
  match msg c with
  | None => Write "502" ["Missing MAIL FROM command."] c
  | Some m =>
    if Strings.isEmpty (From m) then
      Write "502" ["Missing MAIL FROM command."] c
    else if (Strings.len arg <? 4)
            || negb (String.eqb (Strings.ToUpper (Strings.take 3 arg)) "TO:")
    then Write "501" ["Was expecting RCPT arg syntax of TO:<address>"] c
    else
      let recipient := Strings.Trim (Strings.drop 3 arg) "<> " in
      if (0 <? MaxRecipients s)
         && (MaxRecipients s <=? Z.of_nat (length (To m)))
      then Write "552" ["Maximum limit of " +:+ Strconv.Itoa (MaxRecipients s)
                        +:+ " recipients reached"] c
      else
        let c := setMsg (Some (setTo (To m ++ [recipient]) m)) c in
        Write "250" ["I'll make sure <" +:+ recipient +:+ "> gets this"] c
  end.

(** The challenge loop of [handleAuth].  [fed] holds the responses given
    to [Next] so far, [toks] what the scanner will return.  The result
    tells whether the loop was left by [break] (true) or the handler
    returned from inside it (false). *)
Fixpoint authLoop (sasl : Sasl.Server) (fed : list (option string))
    (response : option string) (toks : list (string * string)) (c : Conn)
  : Conn * bool :=
  let step := sasl (fed ++ [response]) in
  let c := match Sasl.login step with
           | Some u => setUser (Some u) c
           | None => c
           end in
  match Sasl.err step with
  | Some e => (Write "454" [e] c, false)
  | None =>
    if Sasl.done step then (c, true)
    else
      let encoded :=
        if Strings.isEmpty (Sasl.challenge step) then ""
        else Base64.EncodeToString (Sasl.challenge step) in
      let c := Write "334" [encoded] c in
      match toks with
      | [] => (c, false)
      | (line, rest) :: toks' =>
        let c := setReader rest c in
        if Strings.isEmpty line
        then authLoop sasl (fed ++ [response]) response toks' c
        else
          match Base64.DecodeString line with
          | Some r => authLoop sasl (fed ++ [response]) (Some r) toks' c
          | None => (Write "454" ["Invalid base64 data"] c, false)
          end
      end
  end.

(** The part of [handleAuth] behind the initial response. *)
Definition authenticate (s : Server) (mechanism : string)
    (ir : option string) (c : Conn) : Conn :=
  match auths s !! mechanism with
  | None => Write "504" ["Unsupported authentication mechanism"] c
  | Some newSasl =>
    match authLoop newSasl [] ir (Scanner.NewScanner (reader c)) c with
    | (c, false) => c
    | (c, true) =>
      match User c with
      | Some _ =>
        setMsg (Some emptyMessage) (Write "235" ["Authentication succeeded"] c)
      | None => c
      end
    end
  end.

Definition handleAuth (s : Server) (arg : string) (c : Conn) : Result :=
  if Strings.isEmpty (helo c) then
    Ok (Write "502" ["Please introduce yourself first."] c)
  else if Strings.isEmpty arg then
    Ok (Write "502" ["Missing parameter"] c)
  else
    match Strings.Fields arg with
    | [] => Panic
    | [part0] => Ok (authenticate s (Strings.ToUpper part0) None c)
    | part0 :: part1 :: _ =>
      match Base64.DecodeString part1 with
      | None => Ok c
      | Some ir => Ok (authenticate s (Strings.ToUpper part0) (Some ir) c)
      end
    end.

(** [handleStartTLS].  The new transport wraps the old one whether the
    handshake succeeded or not; [init] builds the reader and the writer
    anew on it. *)
Definition handleStartTLS (s : Server) (c : Conn) : Conn :=
  if IsTLS c then Write "502" ["Already running in TLS"] c
  else
    match TLSConfig s with
    | None => Write "502" ["TLS not supported"] c
    | Some _ =>
      let c := Write "220" ["Ready to start TLS"] c in
      let ok := peerHandshakes (conn c) in
      let c := if ok then c else Write "550" ["Handshake error"] c in
      let c := setConn {| tls := true; closed := closed (conn c);
                          handshakeFailed := negb ok;
                          peerHandshakes := peerHandshakes (conn c) |} c in
      reset c
    end.

Definition readyForData (c : Conn) : option Message :=
  match msg c with
  | None => None
  | Some m =>
    if Strings.isEmpty (From m) then None
    else match To m with [] => None | _ => Some m end
  end.

(** Modelled from the spec: the file that defines newDataReader is not
    among the sources.  Section 4.3: the reader takes the body from the
    input of the connection, under the limit of the server. *)
Definition newDataReader (s : Server) (c : Conn) : DataReader.Reader :=
  {| DataReader.limit := MaxMessageBytes s; DataReader.input := reader c |}.

(** The reply of [handleData] to what [Send] returned.  In the branch of
    an error that is not an [*smtpError], the name [err] is the one that
    the failed type assertion has just declared, a nil [*smtpError]: the
    call [err.Error()] is made on a nil pointer, and the goroutine
    panics before a reply to the delivery is written and before
    [reset]. *)
Definition deliveryReply (r : Backend.SendResult) (c : Conn) : Result :=
  match r with
  | Backend.SmtpError code message => Ok (Write code [message] c)
  | Backend.OtherError _ => Panic
  | Backend.Sent => Ok (Write "250" ["Ok: queued"] c)
  end.

Definition handleData (s : Server) (arg : string) (c : Conn) : Result :=
  if negb (Strings.isEmpty arg) then
    Ok (Write "501" ["DATA command should not have any arguments"] c)
  else
    match readyForData c with
    | None => Ok (Write "502" ["Missing RCPT TO command."] c)
    | Some m =>
      let c := Write "354" ["Go ahead. End your data with <CR><LF>.<CR><LF>"] c in
      let m := setData (Some (newDataReader s c)) m in
      let c := setMsg (Some m) c in
      match User c with
      | None => Panic
      | Some u =>
        let '(r, unread) := Backend.Send u m in
        match deliveryReply r (setReader unread c) with
        | Ok c => Ok (reset c)
        | Panic => Panic
        end
      end
    end.

Definition notImplemented : list string :=
  ["SEND"; "SOML"; "SAML"; "EXPN"; "HELP"; "TURN"].

Definition known : list string :=
  notImplemented ++
  ["HELO"; "EHLO"; "MAIL"; "RCPT"; "VRFY"; "NOOP"; "RSET"; "DATA"; "QUIT";
   "AUTH"; "STARTTLS"].

Definition oneOf (cmd : string) (l : list string) : bool :=
  existsb (String.eqb cmd) l.

(** The default case of the switch in [handle]. *)
Definition unrecognized (cmd : string) (c : Conn) : Conn :=
  let c := Write "500" ["Syntax error, " +:+ cmd +:+ " command unrecognized"] c in
  let c := setNbrErrors (Int.incr (nbrErrors c)) c in
  if 3 <? nbrErrors c
  then Close (Write "500" ["Too many unrecognized commands"] c)
  else c.

(** [Conn.handle] *)
Definition handle (s : Server) (cmd arg : string) (c : Conn) : Result :=
  if Strings.isEmpty cmd then Ok (Write "500" ["Speak up"] c)
  else if oneOf cmd notImplemented then
    Ok (Write "502" [cmd +:+ " command not implemented"] c)
  else if oneOf cmd ["HELO"; "EHLO"] then
    Ok (handleGreet s (String.eqb cmd "EHLO") arg c)
  else if String.eqb cmd "MAIL" then Ok (handleMail s arg c)
  else if String.eqb cmd "RCPT" then Ok (handleRcpt s arg c)
  else if String.eqb cmd "VRFY" then
    Ok (Write "252" ["Cannot VRFY user, but will accept message"] c)
  else if String.eqb cmd "NOOP" then
    Ok (Write "250" ["I have sucessfully done nothing"] c)
  else if String.eqb cmd "RSET" then
    Ok (Write "250" ["Session reset"] (reset c))
  else if String.eqb cmd "DATA" then handleData s arg c
  else if String.eqb cmd "QUIT" then
    Ok (Close (Write "221" ["Goodnight and good luck"] c))
  else if String.eqb cmd "AUTH" then handleAuth s arg c
  else if String.eqb cmd "STARTTLS" then Ok (handleStartTLS s c)
  else Ok (unrecognized cmd c).

(** [Conn.greet] *)
Definition greet (s : Server) (c : Conn) : Conn :=
  Write "220" [Domain s +:+ " ESMTP Service Ready"] c.

(** [Conn.Reject] *)
Definition Reject (c : Conn) : Conn :=
  Close (Write "421" ["Too busy. Try again later."] c).

(** [bufio.Reader.ReadString] with the line feed as delimiter, on the
    bytes still to come: the bytes up to the first line feed, that byte
    included, and the bytes behind it; [None] when the input ends
    before a line feed. *)
Fixpoint readString (s : string) : option (string * string) :=
  match s with
  | "" => None
  | String a s' =>
    if Bytes.isByte 10 a then Some (String a "", s')
    else match readString s' with
         | Some (line, rest) => Some (String a line, rest)
         | None => None
         end
  end.

(** [Conn.readLine].  Setting the read deadline fails on a closed
    transport, and reading fails on a transport whose handshake failed;
    when the input ends before a line feed the bytes read so far are
    dropped with the error.  The time of the deadline is not part of
    the model. *)
Definition readLine (c : Conn) : option string * Conn :=
  if closed (conn c) then (None, c)
  else if handshakeFailed (conn c) then (None, c)
  else match readString (reader c) with
       | Some (line, rest) => (Some line, setReader rest c)
       | None => (None, setReader "" c)
       end.

End Engine.

(** ** Sample configuration

    A server with the PLAIN mechanism over the backend that the
    repository ships (user "username", password "password"), used to
    instantiate the properties. *)

Module Sample.

(** The samples hold ASCII strings only and never ask the case tables;
    these tables leave every other string as it is. *)
Definition unicode : Strings.Unicode := {| Strings.upperRunes := fun s => s |}.

Definition nul : string := String (ascii_of_N 0) "".

(** The user of the backend in the repository: [Send] reads the body to
    its end and returns the error of that reading.  conn.go never calls
    it before [Data] is set. *)
Definition user : Backend.User :=
  {| Backend.Name := "username";
     Backend.Send := fun m =>
       match Data m with
       | None => (Backend.Sent, "")
       | Some r =>
         match DataReader.ReadAll r with
         | (DataReader.Bytes _, unread) => (Backend.Sent, unread)
         | (DataReader.TooBig, unread) =>
           (Backend.SmtpError "552" "Maximum message size exceeded", unread)
         | (DataReader.UnexpectedEOF, unread) =>
           (Backend.OtherError "unexpected EOF", unread)
         end
       end |}.

Definition answer (challenge : string) (done : bool) (err : option string)
    (login : option Backend.User) : Sasl.Step :=
  {| Sasl.challenge := challenge; Sasl.done := done; Sasl.err := err;
     Sasl.login := login |}.

Definition plain : Sasl.Server := fun fed =>
  match last fed with
  | Some (Some credentials) =>
    if String.eqb credentials (nul +:+ "username" +:+ nul +:+ "password")
    then answer "" true None (Some user)
    else answer "" false (Some "Invalid username or password") None
  | _ => answer "" false None None
  end.

Definition server : Server :=
  {| Domain := "example.com"; TLSConfig := None; AllowInsecureAuth := true;
     MaxMessageBytes := 1024; MaxRecipients := 2; MaxIdleSeconds := 300;
     caps := ["PIPELINING"]; auths := {[ "PLAIN" := plain ]} |}.

Definition transport : NetConn :=
  {| tls := false; closed := false; handshakeFailed := false;
     peerHandshakes := true |}.

Definition fresh : Conn := newConn transport "".

Definition greeted : Conn := setHelo "client" fresh.

Definition authenticated : Conn :=
  setMsg (Some emptyMessage) (setUser (Some user) greeted).

Definition envelope (from : string) (to : list string) : Message :=
  {| From := from; To := to; Data := None |}.

Definition withEnvelope (from : string) (to : list string) : Conn :=
  setMsg (Some (envelope from to)) authenticated.

(** The same server with a TLS configuration and AUTH reserved to
    encrypted connections. *)
Definition secure : Server :=
  {| Domain := "example.com"; TLSConfig := Some (); AllowInsecureAuth := false;
     MaxMessageBytes := 1024; MaxRecipients := 2; MaxIdleSeconds := 300;
     caps := ["PIPELINING"]; auths := {[ "PLAIN" := plain ]} |}.

(** An argument that is a single tab. *)
Definition blank : string := String (ascii_of_N 9) "".

(** A transport whose peer does not complete the handshake. *)
Definition deaf : NetConn :=
  {| tls := false; closed := false; handshakeFailed := false;
     peerHandshakes := false |}.

(** A session of the sample server up to the second recipient. *)
Definition session : list (string * string) :=
  [("EHLO", "client"); ("AUTH", "PLAIN AHVzZXJuYW1lAHBhc3N3b3Jk");
   ("MAIL", "FROM:<a@b>"); ("RCPT", "TO:<x@y>"); ("RCPT", "TO:<z@y>")].

End Sample.

(** ** Notions used in the statements *)

(** [n] times the same command. *)
Fixpoint repeatHandle `{!Strings.Unicode} (s : Server) (cmd arg : string)
    (n : nat) (c : Conn) : Result :=
  match n with
  | O => Ok c
  | S n' =>
    match repeatHandle s cmd arg n' c with
    | Ok c' => handle s cmd arg c'
    | Panic => Panic
    end
  end.

(** A list of commands, one after the other. *)
Fixpoint handleAll `{!Strings.Unicode} (s : Server)
    (cmds : list (string * string)) (c : Conn) : Result :=
  match cmds with
  | [] => Ok c
  | (cmd, arg) :: cmds' =>
    match handle s cmd arg c with
    | Ok c' => handleAll s cmds' c'
    | Panic => Panic
    end
  end.

(** The states of a connection between two commands: the server greets
    a new connection, the command loop takes bytes from the reader, and
    [handle] runs on the command read. *)
Inductive reachable `{!Strings.Unicode} (s : Server) : Conn -> Prop :=
| reach_greet n input : reachable s (greet s (newConn n input))
| reach_read c input : reachable s c -> reachable s (setReader input c)
| reach_handle c cmd arg c' :
    reachable s c -> handle s cmd arg c = Ok c' -> reachable s c'.

(** Between [c] and [c'] at least one reply line was written. *)
Definition replied (c c' : Conn) : Prop :=
  ∃ lines, lines ≠ [] ∧ writer c' = writer c ++ lines.

(** The chain of the data model: an envelope needs a user, a user needs
    a greeting. *)
Definition chain (c : Conn) : Prop :=
  (msg c ≠ None -> User c ≠ None) ∧ (User c ≠ None -> helo c ≠ "").

(** Recipients need a sender. *)
Definition senderFirst (c : Conn) : Prop :=
  ∀ m, msg c = Some m -> To m ≠ [] -> From m ≠ "".

(** The result of a run comes from its continuation, called further to
    the right, with the groups outside the expression as they were. *)
Definition continues (r : Regexp.re) (strict : bool) : Prop :=
  ∀ i s cs (k : Regexp.cont) res,
    Regexp.run r i s cs k = Some res →
    ∃ i' s' cs',
      k i' s' cs' = Some res
      ∧ (i <= i')%nat
      ∧ (i' + String.length s' = i + String.length s)%nat
      ∧ (strict = true → (i < i')%nat)
      ∧ (∀ n, Regexp.hasGroup n r = false →
            Regexp.captured n cs' = Regexp.captured n cs).

(** The argument of RCPT passes the syntax check of [handleRcpt]. *)
Definition wellFormedTo `{!Strings.Unicode} (arg : string) : Prop :=
  4 <= Strings.len arg ∧ Strings.ToUpper (Strings.take 3 arg) = "TO:".

Module Wire.

Fixpoint HasPrefix (s prefix : string) {struct prefix} : bool :=
  match prefix, s with
  | "", _ => true
  | String b p', String a s' => Ascii.eqb a b && HasPrefix s' p'
  | _, "" => false
  end.

(** [strings.Contains] *)
Fixpoint Contains (s sub : string) : bool :=
  HasPrefix s sub ||
  match s with
  | "" => false
  | String _ s' => Contains s' sub
  end.

(** [strings.ReplaceAll] for a non-empty [old]: the occurrences are
    taken from the left and do not overlap; [skip] counts the bytes of
    an occurrence still to drop. *)
Fixpoint replaceFrom (skip : nat) (s old new : string) : string :=
  match s with
  | "" => ""
  | String a s' =>
    match skip with
    | S n => replaceFrom n s' old new
    | O =>
      if HasPrefix s old
      then new +:+ replaceFrom (String.length old - 1) s' old new
      else String a (replaceFrom 0 s' old new)
    end
  end.

Definition ReplaceAll (s old new : string) : string := replaceFrom 0 s old new.

Definition dot : string := ".".

(** The terminator inside a body, the stuffed dot and the plain one. *)
Definition terminator : string := CRLF +:+ dot +:+ CRLF.
Definition stuffed : string := CRLF +:+ dot +:+ dot.
Definition plain : string := CRLF +:+ dot.

(** A body given by its lines, each sent with CR LF behind it. *)
Fixpoint body (lines : list string) : string :=
  match lines with
  | [] => ""
  | l :: ls => l +:+ CRLF +:+ body ls
  end.

(** A line without its leading dot, if it has one. *)
Definition unstuff (l : string) : string :=
  match l with
  | String a l' => if Bytes.isByte 46 a then l' else l
  | "" => ""
  end.

(** A line of a body: not the lone dot, and no CR LF inside. *)
Definition line (l : string) : Prop := l ≠ dot ∧ Contains l CRLF = false.

(** The bytes [text] delivered in front of what the reader gives next. *)
Definition prepend (text : string) (r : DataReader.Stream * string)
  : DataReader.Stream * string :=
  match r with
  | (DataReader.Bytes body, rest) => (DataReader.Bytes (text +:+ body), rest)
  | other => other
  end.

(** The limit [max] leaves room for [total] bytes. *)
Definition within (max total : Z) : Prop := max <= 0 ∨ total <= max.

(** In the state [st] the reader can take the line [l] without meeting a
    CR LF that straddles what it has read. *)
Definition safe (st : DataReader.state) (l : string) : Prop :=
  match st with
  | DataReader.BeginLine => False
  | DataReader.InLine => True
  | DataReader.AfterCR => HasPrefix l (String Bytes.LF "") = false
  end.

End Wire.

(** Whether the first byte, or the last byte, of [s] is in [cutset]. *)
Definition headIn (cutset s : string) : bool :=
  match s with
  | "" => false
  | String a _ => Strings.mem a cutset
  end.

Fixpoint lastIn (cutset s : string) : bool :=
  match s with
  | "" => false
  | String a "" => Strings.mem a cutset
  | String _ s' => lastIn cutset s'
  end.

(** A recipient as [handleRcpt] stores it: no angle bracket or space at
    either end. *)
Definition trimmed (r : string) : Prop :=
  headIn "<> " r = false ∧ lastIn "<> " r = false.

Fixpoint allBytes (p : ascii -> bool) (s : string) : bool :=
  match s with
  | "" => true
  | String a s' => p a && allBytes p s'
  end.

(** An address without a closing bracket and without a backslash. *)
Definition plainByte (a : ascii) : bool :=
  negb (Bytes.isByte 62 a) && negb (Bytes.isByte 92 a).

(** A byte that the trim of [handleRcpt] keeps. *)
Definition keptByte (a : ascii) : bool := negb (Strings.mem a "<> ").

(** The envelope holds no more recipients than the limit, if there is
    one. *)
Definition withinLimit (s : Server) (c : Conn) : Prop :=
  ∀ m, msg c = Some m -> 0 < MaxRecipients s ->
       Z.of_nat (length (To m)) <= MaxRecipients s.

(** From [c] to [c'] the counter of unknown commands and the transport
    are kept, and the writer only gains lines. *)
Definition steady (c c' : Conn) : Prop :=
  nbrErrors c' = nbrErrors c
  ∧ conn c' = conn c
  ∧ ∃ lines, writer c' = writer c ++ lines.

(** Every envelope that the connection holds satisfies [P]. *)
Definition envelopeHas (P : Message -> Prop) (c : Conn) : Prop :=
  ∀ m, msg c = Some m -> P m.

(** A closing angle bracket in front of [rest]. *)
Definition closing (rest : string) : string := String (ascii_of_N 62) rest.

(** The class that the first alternative of the address repeats: an
    escaped closing bracket, or a byte that is not a closing bracket. *)
Definition addressByte : Regexp.re :=
  Regexp.Alt
    (Regexp.Cat (Regexp.Byte (Bytes.isByte 92))
                (Regexp.Byte (Bytes.isByte MailRegexp.gt)))
    (Regexp.Byte (MailRegexp.notByte MailRegexp.gt)).

(** The initial response of an AUTH command, from the fields behind the
    mechanism: the nil slice when there is none, [None] when it does
    not decode. *)
Definition initialResponse (rest : list string) : option (option string) :=
  match rest with
  | [] => Some None
  | part1 :: _ =>
    match Base64.DecodeString part1 with
    | Some ir => Some (Some ir)
    | None => None
    end
  end.

(** The arguments that a handler refuses for their form, in a state
    where the verb is in order. *)
Definition badSyntax `{!Strings.Unicode} (cmd arg : string) (c : Conn)
  : Prop :=
  ((cmd = "HELO" ∨ cmd = "EHLO") ∧ Parse.parseHelloArgument arg = None)
  ∨ (cmd = "MAIL" ∧ helo c ≠ "" ∧ msg c ≠ None
     ∧ MailRegexp.FindStringSubmatch arg = None)
  ∨ (cmd = "RCPT" ∧ missingFrom c = false
     ∧ (Strings.len arg <? 4)
       || negb (String.eqb (Strings.ToUpper (Strings.take 3 arg)) "TO:") = true)
  ∨ (cmd = "DATA" ∧ arg ≠ "").

(** No line feed in [line]. *)
Definition oneLine (line : string) : bool :=
  allBytes (λ a, negb (Bytes.isByte 10 a)) line.

(** The server [s] with another setting of AllowInsecureAuth. *)
Definition setAllowInsecureAuth (b : bool) (s : Server) : Server :=
  {| Domain := Domain s; TLSConfig := TLSConfig s; AllowInsecureAuth := b;
     MaxMessageBytes := MaxMessageBytes s; MaxRecipients := MaxRecipients s;
     MaxIdleSeconds := MaxIdleSeconds s; caps := caps s; auths := auths s |}.

(** The verbs that need an earlier command, in a state where that
    command is missing. *)
Definition outOfOrder (cmd arg : string) (c : Conn) : Prop :=
  (cmd = "MAIL" ∧ (helo c = "" ∨ msg c = None))
  ∨ (cmd = "RCPT" ∧ missingFrom c = true)
  ∨ (cmd = "DATA" ∧ arg = "" ∧ readyForData c = None)
  ∨ (cmd = "AUTH" ∧ helo c = "").

(** * Properties *)

(** Unfolds the setters of the connection and projects the fields. *)
Ltac fields :=
  unfold Close, reset, Write, setHelo, setUser, setMsg, setConn, setReader,
    setWriter, setNbrErrors, setLogouts, setFrom, setTo, setData in *;
  cbn [helo User msg conn reader writer nbrErrors logouts
       tls closed handshakeFailed peerHandshakes From To Data] in *.

Section Properties.

Context {tables : Strings.Unicode}.

Section StringFacts.

Lemma isEmpty_true (s : string) : Strings.isEmpty s = true ↔ s = "".
Proof. destruct s; simpl; split; congruence. Qed.

Lemma isEmpty_false (s : string) : Strings.isEmpty s = false ↔ s ≠ "".
Proof. destruct s; simpl; split; congruence. Qed.

End StringFacts.

(** ** The dispatcher *)

Section Dispatch.

Variable s : Server.

Lemma handle_MAIL arg c : handle s "MAIL" arg c = Ok (handleMail s arg c).
Proof. reflexivity. Qed.

Lemma handle_RCPT arg c : handle s "RCPT" arg c = Ok (handleRcpt s arg c).
Proof. reflexivity. Qed.

Lemma handle_DATA arg c : handle s "DATA" arg c = handleData s arg c.
Proof. reflexivity. Qed.

(** The delivery that does not panic has written one reply. *)
Lemma deliveryReply_Ok r c d :
  deliveryReply r c = Ok d →
  d = Write "250" ["Ok: queued"] c ∧ r = Backend.Sent
  ∨ ∃ code message, d = Write code [message] c
                    ∧ r = Backend.SmtpError code message.
Proof.
  destruct r as [|code message|text]; cbn [deliveryReply]; intros H;
    [injection H as <-; left; split; reflexivity
    |injection H as <-; right; exists code, message; split; reflexivity
    |discriminate H].
Qed.

Lemma handle_AUTH arg c : handle s "AUTH" arg c = handleAuth s arg c.
Proof. reflexivity. Qed.

Lemma handle_STARTTLS arg c :
  handle s "STARTTLS" arg c = Ok (handleStartTLS s c).
Proof. reflexivity. Qed.

Lemma unknown_verb cmd :
  oneOf cmd known = false →
  oneOf cmd notImplemented = false ∧ oneOf cmd ["HELO"; "EHLO"] = false ∧
  String.eqb cmd "MAIL" = false ∧ String.eqb cmd "RCPT" = false ∧
  String.eqb cmd "VRFY" = false ∧ String.eqb cmd "NOOP" = false ∧
  String.eqb cmd "RSET" = false ∧ String.eqb cmd "DATA" = false ∧
  String.eqb cmd "QUIT" = false ∧ String.eqb cmd "AUTH" = false ∧
  String.eqb cmd "STARTTLS" = false.
Proof.
  unfold oneOf, known, notImplemented.
  rewrite existsb_app. intros H.
  apply orb_false_elim in H as [H1 H2].
  split; [exact H1|].
  cbn [existsb] in H2 |- *.
  repeat (apply orb_false_elim in H2 as [? H2]).
  repeat match goal with H : _ = false |- _ => rewrite H; clear H end.
  repeat split; reflexivity.
Qed.

Lemma handle_unknown cmd arg c :
  cmd ≠ "" → oneOf cmd known = false →
  handle s cmd arg c = Ok (unrecognized cmd c).
Proof.
  intros Hne Hk. apply isEmpty_false in Hne.
  destruct (unknown_verb cmd Hk)
    as (H1 & H2 & H3 & H4 & H5 & H6 & H7 & H8 & H9 & H10 & H11).
  unfold handle.
  rewrite Hne, H1, H2, H3, H4, H5, H6, H7, H8, H9, H10, H11. reflexivity.
Qed.

End Dispatch.

(** ** Unrecognized commands *)

Section Unrecognized.

Variable s : Server.

Lemma incr_small (n : Z) :
  - 2 ^ 63 <= n < 2 ^ 63 - 1 → Int.incr n = n + 1.
Proof.
  intros H. unfold Int.incr, Int.wrap.
  rewrite Z.mod_small by lia. lia.
Qed.

Lemma unrecognized_counter cmd c :
  nbrErrors (unrecognized cmd c) = Int.incr (nbrErrors c).
Proof.
  unfold unrecognized, logout. fields.
  destruct (3 <? Int.incr (nbrErrors c)), (User c); reflexivity.
Qed.

Lemma unrecognized_below cmd c :
  Int.incr (nbrErrors c) <= 3 →
  unrecognized cmd c =
    setNbrErrors (Int.incr (nbrErrors c))
      (Write "500" ["Syntax error, " +:+ cmd +:+ " command unrecognized"] c).
Proof.
  intros H. unfold unrecognized. fields.
  destruct (Z.ltb_spec 3 (Int.incr (nbrErrors c))); [lia|]. done.
Qed.

Lemma unrecognized_above cmd c :
  3 < Int.incr (nbrErrors c) →
  unrecognized cmd c =
    Close (Write "500" ["Too many unrecognized commands"]
      (setNbrErrors (Int.incr (nbrErrors c))
        (Write "500" ["Syntax error, " +:+ cmd +:+ " command unrecognized"] c))).
Proof.
  intros H. unfold unrecognized. fields.
  destruct (Z.ltb_spec 3 (Int.incr (nbrErrors c))); [|lia]. done.
Qed.

End Unrecognized.

(** C2 (amended).  A verb that the switch of [handle] does not know gets
    the reply 500 "unrecognized" and the counter of unknown commands is
    incremented; only when the counter then exceeds 3 does the server
    reply 500 "Too many unrecognized commands" as well and close the
    connection.  On a new connection the first three repetitions of
    FOOBAR get one reply 500 each, and it is the fourth repetition that
    gets the overflow reply and the close. *)
Theorem unknown_commands_counted (s : Server) :
  (∀ cmd arg c, cmd ≠ "" → oneOf cmd known = false →
     let n := Int.incr (nbrErrors c) in
     let replied :=
       setNbrErrors n
         (Write "500" ["Syntax error, " +:+ cmd +:+ " command unrecognized"] c) in
     handle s cmd arg c =
       Ok (if 3 <? n
           then Close (Write "500" ["Too many unrecognized commands"] replied)
           else replied))
  ∧ (∀ n input,
       let line := "500 Syntax error, FOOBAR command unrecognized" +:+ CRLF in
       (∃ c3, repeatHandle s "FOOBAR" "" 3 (newConn n input) = Ok c3
              ∧ writer c3 = [line; line; line] ∧ conn c3 = n)
       ∧ (∃ c4, repeatHandle s "FOOBAR" "" 4 (newConn n input) = Ok c4
              ∧ writer c4 = [line; line; line; line;
                             "500 Too many unrecognized commands" +:+ CRLF]
              ∧ closed (conn c4) = true)).
Proof.
  split.
  - intros cmd arg c Hne Hk n replied.
    rewrite handle_unknown by assumption. reflexivity.
  - intros n input line. split; eexists; (split; [reflexivity|]);
      split; reflexivity.
Qed.

(** ** STARTTLS *)

(** C7.  When the server has no TLS configuration, STARTTLS gets the
    reply 502 in every state of the connection and changes nothing
    else: the transport, the greeting, the user and the envelope are
    what they were. *)
Theorem starttls_without_tls_config (s : Server) (arg : string) (c : Conn) :
  TLSConfig s = None →
  ∃ text c', handle s "STARTTLS" arg c = Ok c'
    ∧ writer c' = writer c ++ replyLines "502" [text]
    ∧ conn c' = conn c ∧ helo c' = helo c ∧ User c' = User c
    ∧ msg c' = msg c ∧ logouts c' = logouts c.
Proof.
  intros Hno. rewrite handle_STARTTLS. unfold handleStartTLS.
  destruct (IsTLS c).
  - exists "Already running in TLS". eexists. split; [reflexivity|].
    fields. repeat split.
  - rewrite Hno. exists "TLS not supported". eexists.
    split; [reflexivity|]. fields. repeat split.
Qed.

(** ** RCPT *)

Section Rcpt.

Variable s : Server.

Lemma rcpt_syntax_ok arg :
  wellFormedTo arg →
  (Strings.len arg <? 4)
  || negb (String.eqb (Strings.ToUpper (Strings.take 3 arg)) "TO:") = false.
Proof.
  intros [Hlen Hto]. rewrite Hto.
  destruct (Z.ltb_spec (Strings.len arg) 4); [lia|]. reflexivity.
Qed.

Lemma rcpt_at_limit c m arg :
  msg c = Some m → From m ≠ "" → wellFormedTo arg →
  0 < MaxRecipients s → MaxRecipients s <= Z.of_nat (length (To m)) →
  handleRcpt s arg c =
    Write "552" ["Maximum limit of " +:+ Strconv.Itoa (MaxRecipients s)
                 +:+ " recipients reached"] c.
Proof.
  intros Hm Hfrom Harg Hpos Hfull. unfold handleRcpt. rewrite Hm.
  apply isEmpty_false in Hfrom. rewrite Hfrom.
  rewrite (rcpt_syntax_ok arg Harg).
  destruct (Z.ltb_spec 0 (MaxRecipients s)); [|lia].
  destruct (Z.leb_spec (MaxRecipients s) (Z.of_nat (length (To m)))); [|lia].
  reflexivity.
Qed.

Lemma rcpt_below_limit c m arg :
  msg c = Some m → From m ≠ "" → wellFormedTo arg →
  (MaxRecipients s <= 0 ∨ Z.of_nat (length (To m)) < MaxRecipients s) →
  let recipient := Strings.Trim (Strings.drop 3 arg) "<> " in
  handleRcpt s arg c =
    Write "250" ["I'll make sure <" +:+ recipient +:+ "> gets this"]
      (setMsg (Some (setTo (To m ++ [recipient]) m)) c).
Proof.
  intros Hm Hfrom Harg Hroom recipient. unfold handleRcpt. rewrite Hm.
  apply isEmpty_false in Hfrom. rewrite Hfrom.
  rewrite (rcpt_syntax_ok arg Harg).
  destruct (Z.ltb_spec 0 (MaxRecipients s));
    destruct (Z.leb_spec (MaxRecipients s) (Z.of_nat (length (To m))));
    try lia; reflexivity.
Qed.

End Rcpt.

(** C10 (amended).  With the sender set and room left for a recipient
    (no limit, or fewer recipients than the limit), RCPT with an
    argument of at least four bytes that starts with TO: and whose
    address is empty after the trim of angle brackets and spaces, such
    as TO:<>, is accepted: the reply is 250 and the empty string is
    appended to the recipients. *)
Theorem rcpt_empty_address (s : Server) (c : Conn) (m : Message)
    (arg : string) :
  msg c = Some m → From m ≠ "" →
  wellFormedTo arg → Strings.Trim (Strings.drop 3 arg) "<> " = "" →
  (MaxRecipients s <= 0 ∨ Z.of_nat (length (To m)) < MaxRecipients s) →
  ∃ c', handle s "RCPT" arg c = Ok c'
    ∧ writer c' = writer c ++ replyLines "250" ["I'll make sure <> gets this"]
    ∧ msg c' = Some (setTo (To m ++ [""]) m).
Proof.
  intros Hm Hfrom Harg Htrim Hroom.
  rewrite handle_RCPT, (rcpt_below_limit s c m arg Hm Hfrom Harg Hroom).
  rewrite Htrim. eexists. split; [reflexivity|]. fields. split; reflexivity.
Qed.

(** ** Every command but AUTH gets a reply *)

Section Replies.

Variable s : Server.

Lemma replied_Write code t ts c c1 :
  writer c1 = writer c → replied c (Write code (t :: ts) c1).
Proof.
  intros Hw. exists (replyLines code (t :: ts)). split.
  - destruct ts; discriminate.
  - fields. rewrite Hw. reflexivity.
Qed.

Lemma replied_same c c1 c2 :
  writer c2 = writer c1 → replied c c1 → replied c c2.
Proof. intros Hw (lines & Hne & H). exists lines. rewrite Hw. auto. Qed.

Lemma replied_again c c1 code t ts c2 :
  replied c c1 → writer c2 = writer c1 → replied c (Write code (t :: ts) c2).
Proof.
  intros (lines & Hne & H) Hw.
  exists (lines ++ replyLines code (t :: ts)). split.
  - destruct lines; [contradiction | discriminate].
  - fields. rewrite Hw, H, app_assoc. reflexivity.
Qed.

Lemma writer_reset c : writer (reset c) = writer c.
Proof. unfold reset, logout. destruct (User c); reflexivity. Qed.

Lemma writer_Close c : writer (Close c) = writer c.
Proof. unfold Close, logout. destruct (User c); reflexivity. Qed.

Lemma replied_greet enhanced arg c : replied c (handleGreet s enhanced arg c).
Proof.
  unfold handleGreet.
  destruct (negb enhanced); destruct (Parse.parseHelloArgument arg);
    apply replied_Write; reflexivity.
Qed.

Lemma replied_mail arg c : replied c (handleMail s arg c).
Proof.
  unfold handleMail, mailParams.
  repeat match goal with
         | |- replied _ (if ?b then _ else _) => destruct b
         | |- replied _ (match ?o with Some _ => _ | None => _ end) => destruct o
         | |- replied _ (match ?l with [] => _ | _ :: _ => _ end) => destruct l
         end;
    apply replied_Write; reflexivity.
Qed.

Lemma replied_rcpt arg c : replied c (handleRcpt s arg c).
Proof.
  unfold handleRcpt.
  repeat match goal with
         | |- replied _ (if ?b then _ else _) => destruct b
         | |- replied _ (match ?o with Some _ => _ | None => _ end) => destruct o
         end;
    apply replied_Write; reflexivity.
Qed.

Lemma replied_starttls c : replied c (handleStartTLS s c).
Proof.
  unfold handleStartTLS.
  destruct (IsTLS c); [apply replied_Write; reflexivity|].
  destruct (TLSConfig s); [|apply replied_Write; reflexivity].
  eapply replied_same; [apply writer_reset|].
  destruct (peerHandshakes _).
  - apply (replied_same c (Write "220" ["Ready to start TLS"] c));
      [reflexivity | apply replied_Write; reflexivity].
  - apply (replied_same c
             (Write "550" ["Handshake error"]
                (Write "220" ["Ready to start TLS"] c))); [reflexivity|].
    apply (replied_again c (Write "220" ["Ready to start TLS"] c));
      [apply replied_Write|]; reflexivity.
Qed.

(** DATA that is in order gets two replies, 354 and the reply to the
    delivery. *)
Lemma replied_data arg c c' : handleData s arg c = Ok c' → replied c c'.
Proof.
  unfold handleData. intros H.
  destruct (negb (Strings.isEmpty arg));
    [injection H as <-; apply replied_Write; reflexivity|].
  destruct (readyForData c);
    [|injection H as <-; apply replied_Write; reflexivity].
  destruct (User _) as [u|]; [|discriminate H].
  destruct (Backend.Send u _) as [r unread].
  destruct (deliveryReply r _) as [d|] eqn:Hd; [|discriminate H].
  injection H as <-.
  eapply replied_same; [apply writer_reset|].
  destruct (deliveryReply_Ok _ _ _ Hd) as [[-> _]|(code & message & -> & _)];
    (eapply replied_again; [apply replied_Write|]; reflexivity).
Qed.

Lemma replied_unrecognized cmd c : replied c (unrecognized cmd c).
Proof.
  unfold unrecognized. destruct (3 <? _).
  - eapply replied_same; [apply writer_Close|].
    eapply replied_again; [apply replied_Write|]; reflexivity.
  - apply (replied_same c
             (Write "500" ["Syntax error, " +:+ cmd +:+ " command unrecognized"] c));
      [reflexivity | apply replied_Write; reflexivity].
Qed.

(** The part of C1 that the code keeps: every command other than AUTH
    that [handle] returns from has written at least one reply line. *)
Lemma handle_replies cmd arg c c' :
  cmd ≠ "AUTH" → handle s cmd arg c = Ok c' → replied c c'.
Proof.
  unfold handle. intros Hcmd H.
  destruct (String.eqb_spec cmd "AUTH") as [->|_]; [contradiction|].
  repeat match type of H with
         | (if ?b then _ else _) = _ => destruct b
         end;
    try (injection H as <-);
    eauto using replied_greet, replied_mail, replied_rcpt, replied_starttls,
      replied_data, replied_unrecognized;
    try (apply replied_Write; reflexivity).
  - apply replied_Write. apply writer_reset.
  - eapply replied_same; [apply writer_Close|]. apply replied_Write. reflexivity.
Qed.

End Replies.

(** ** AUTH *)

Section Auth.

Variable s : Server.

Lemma fields_arg_not_empty arg part0 rest :
  Strings.Fields arg = part0 :: rest → Strings.isEmpty arg = false.
Proof. destruct arg; [discriminate | reflexivity]. Qed.

(** The handler with the check of the greeting and of the argument
    behind it. *)
Lemma handleAuth_fields c arg part0 rest :
  helo c ≠ "" → Strings.Fields arg = part0 :: rest →
  handleAuth s arg c =
    match rest with
    | [] => Ok (authenticate s (Strings.ToUpper part0) None c)
    | part1 :: _ =>
      match Base64.DecodeString part1 with
      | None => Ok c
      | Some ir => Ok (authenticate s (Strings.ToUpper part0) (Some ir) c)
      end
    end.
Proof.
  intros Hhelo Hf. unfold handleAuth.
  apply isEmpty_false in Hhelo. rewrite Hhelo.
  rewrite (fields_arg_not_empty arg part0 rest Hf), Hf.
  destruct rest; reflexivity.
Qed.

(** The sibling path: a continuation line that is not base64 gets the
    reply 454. *)
Lemma authLoop_bad_line sasl fed response line rest toks c :
  Sasl.err (sasl (fed ++ [response])) = None →
  Sasl.done (sasl (fed ++ [response])) = false →
  line ≠ "" → Base64.DecodeString line = None →
  ∃ c', authLoop sasl fed response ((line, rest) :: toks) c = (c', false)
    ∧ ∃ before, writer c' = before ++ replyLines "454" ["Invalid base64 data"].
Proof.
  intros Herr Hdone Hline Hbad. cbn [authLoop].
  rewrite Herr, Hdone. apply isEmpty_false in Hline. rewrite Hline, Hbad.
  eexists. split; [reflexivity|]. fields. eexists. reflexivity.
Qed.

End Auth.

(** C1, at the input where the code departs from it.  After a greeting,
    an AUTH command whose initial response is not valid base64 returns
    with the connection as it was: no reply line is written. *)
Theorem auth_bad_initial_response_silent (s : Server) (c : Conn)
    (arg mech ir : string) (rest : list string) :
  helo c ≠ "" → Strings.Fields arg = mech :: ir :: rest →
  Base64.DecodeString ir = None →
  handle s "AUTH" arg c = Ok c.
Proof.
  intros Hhelo Hf Hbad.
  rewrite handle_AUTH, (handleAuth_fields s c arg mech (ir :: rest) Hhelo Hf).
  rewrite Hbad. reflexivity.
Qed.

(** C4 (amended).  After a greeting, an AUTH command whose mechanism, in
    upper case, is not a key of the mechanisms of the server gets the
    reply 504, when the command has no initial response or one that is
    valid base64. *)
Theorem auth_unknown_mechanism (s : Server) (c : Conn) (arg mech : string)
    (rest : list string) :
  helo c ≠ "" → Strings.Fields arg = mech :: rest →
  auths s !! Strings.ToUpper mech = None →
  (∀ ir, head rest = Some ir → Base64.DecodeString ir ≠ None) →
  handle s "AUTH" arg c =
    Ok (Write "504" ["Unsupported authentication mechanism"] c).
Proof.
  intros Hhelo Hf Hnone Hir.
  rewrite handle_AUTH, (handleAuth_fields s c arg mech rest Hhelo Hf).
  destruct rest as [|part1 rest].
  - unfold authenticate. rewrite Hnone. reflexivity.
  - destruct (Base64.DecodeString part1) eqn:Hd.
    + unfold authenticate. rewrite Hnone. reflexivity.
    + exfalso. apply (Hir part1); [reflexivity | exact Hd].
Qed.

(** ** DATA *)

Section Data.

Variable s : Server.

Lemma readyForData_some c m :
  msg c = Some m → From m ≠ "" → To m ≠ [] → readyForData c = Some m.
Proof.
  intros Hm Hfrom Hto. unfold readyForData. rewrite Hm.
  apply isEmpty_false in Hfrom. rewrite Hfrom.
  destruct (To m); [contradiction | reflexivity].
Qed.

Lemma deliveryReply_frame r c d :
  deliveryReply r c = Ok d →
  helo d = helo c ∧ User d = User c ∧ msg d = msg c ∧ conn d = conn c
  ∧ logouts d = logouts c ∧ reader d = reader c.
Proof.
  intros H.
  destruct (deliveryReply_Ok r c d H) as [[-> _]|(code & message & -> & _)];
    repeat split.
Qed.

(** DATA in order, up to the reply to what [Send] returned. *)
Lemma handleData_in_order c m u r unread :
  readyForData c = Some m → User c = Some u →
  Backend.Send u (setData (Some (newDataReader s c)) m) = (r, unread) →
  handleData s "" c =
    match deliveryReply r
            (setReader unread
               (setMsg (Some (setData (Some (newDataReader s c)) m))
                  (Write "354"
                     ["Go ahead. End your data with <CR><LF>.<CR><LF>"] c)))
    with
    | Ok d => Ok (reset d)
    | Panic => Panic
    end.
Proof.
  intros Hready Hu Hsend. unfold handleData. cbn [Strings.isEmpty negb].
  rewrite Hready.
  change (newDataReader s (Write "354" _ c)) with (newDataReader s c).
  change (User (setMsg _ (Write "354" _ c))) with (User c).
  rewrite Hu, Hsend. reflexivity.
Qed.

Lemma reset_clears c :
  helo (reset c) = "" ∧ User (reset c) = None ∧ msg (reset c) = None
  ∧ writer (reset c) = writer c ∧ conn (reset c) = conn c.
Proof. unfold reset, logout. destruct (User c); repeat split. Qed.

Lemma reset_logs_out c u :
  User c = Some u → logouts (reset c) = logouts c ++ [u].
Proof. intros Hu. unfold reset, logout. rewrite Hu. reflexivity. Qed.

End Data.

(** C3 (amended).  When a DATA command completes, that is when [Send]
    returns nil or an [*smtpError], [reset] runs: after the reply 354
    and the one reply to the delivery, the envelope, the greeting and
    the user are all cleared, and the user was logged out. *)
Theorem data_completion_resets (s : Server) (c : Conn) (m : Message)
    (u : Backend.User) (result : Backend.SendResult) (unread : string) :
  msg c = Some m → From m ≠ "" → To m ≠ [] → User c = Some u →
  Backend.Send u (setData (Some (newDataReader s c)) m) = (result, unread) →
  (∀ text, result ≠ Backend.OtherError text) →
  ∃ c' code text,
    handle s "DATA" "" c = Ok c'
    ∧ writer c' =
        writer c
        ++ replyLines "354" ["Go ahead. End your data with <CR><LF>.<CR><LF>"]
        ++ replyLines code [text]
    ∧ helo c' = "" ∧ User c' = None ∧ msg c' = None
    ∧ logouts c' = logouts c ++ [u].
Proof.
  intros Hm Hfrom Hto Hu Hsend Hresult.
  rewrite handle_DATA,
    (handleData_in_order s c m u result unread
       (readyForData_some c m Hm Hfrom Hto) Hu Hsend).
  destruct (deliveryReply result _) as [d|] eqn:Hd;
    [|destruct result; try discriminate Hd; exfalso; eapply Hresult; reflexivity].
  destruct (reset_clears d) as (Hh & HU & Hmsg & Hw & _).
  destruct (deliveryReply_frame _ _ _ Hd) as (_ & HU' & _ & _ & Hl & _).
  assert (Hwriter : ∃ code text,
             writer d =
               writer c
               ++ replyLines "354"
                    ["Go ahead. End your data with <CR><LF>.<CR><LF>"]
               ++ replyLines code [text]).
  { destruct (deliveryReply_Ok _ _ _ Hd) as [[-> _]|(code & message & -> & _)];
      eexists _, _; unfold Write, setWriter, setReader, setMsg;
      cbn [writer]; rewrite <- ?app_assoc; reflexivity. }
  destruct Hwriter as (code & text & Hwriter).
  exists (reset d), code, text.
  split; [reflexivity|]. rewrite Hw, Hwriter.
  repeat split; try assumption.
  rewrite (reset_logs_out d u); [rewrite Hl; reflexivity|].
  rewrite HU'. exact Hu.
Qed.

(** ** MAIL *)

Section Mail.

Variable s : Server.

Lemma parseArgs_empty : Parse.parseArgs "" = Some ∅.
Proof. reflexivity. Qed.

Lemma index_empty key : Parse.index ∅ key = "".
Proof. unfold Parse.index. rewrite lookup_empty. reflexivity. Qed.

Lemma parseInt_not_empty v size :
  Strconv.ParseInt32 v = Some size → Strings.isEmpty v = false.
Proof. destruct v; [discriminate | reflexivity]. Qed.

Lemma mailParams_too_big c m from params args size :
  Parse.parseArgs params = Some args →
  Strconv.ParseInt32 (Parse.index args "SIZE") = Some size →
  0 < MaxMessageBytes s → MaxMessageBytes s < size →
  mailParams s from params m c = Write "552" ["Max message size exceeded"] c.
Proof.
  intros Hargs Hsize Hpos Hbig. unfold mailParams.
  destruct params as [|a params].
  - rewrite parseArgs_empty in Hargs. injection Hargs as <-.
    rewrite index_empty in Hsize. discriminate Hsize.
  - cbn [Strings.isEmpty]. rewrite Hargs.
    rewrite (parseInt_not_empty _ _ Hsize), Hsize.
    destruct (Z.ltb_spec 0 (MaxMessageBytes s)); [|lia].
    destruct (Z.ltb_spec (MaxMessageBytes s) size); [|lia].
    reflexivity.
Qed.

End Mail.

(** C6.  In a session where MAIL is in order (a greeting was made and
    the envelope exists), with a positive limit on the message size, a
    MAIL command of valid FROM syntax whose ESMTP parameter SIZE, a
    decimal number in the 32-bit range, exceeds the limit gets the reply
    552 "Max message size exceeded", and the envelope with its sender is
    left as it was. *)
Theorem mail_size_exceeded (s : Server) (c : Conn) (m : Message)
    (arg whole from params : string) (args : gmap string string) (size : Z) :
  helo c ≠ "" → msg c = Some m →
  0 < MaxMessageBytes s →
  MailRegexp.FindStringSubmatch arg = Some [whole; from; params] →
  Parse.parseArgs params = Some args →
  Strconv.ParseInt32 (Parse.index args "SIZE") = Some size →
  MaxMessageBytes s < size →
  ∃ c', handle s "MAIL" arg c = Ok c'
    ∧ writer c' = writer c ++ replyLines "552" ["Max message size exceeded"]
    ∧ msg c' = Some m.
Proof.
  intros Hhelo Hm Hpos Hre Hargs Hsize Hbig.
  rewrite handle_MAIL. unfold handleMail.
  apply isEmpty_false in Hhelo. rewrite Hhelo, Hm, Hre.
  rewrite (mailParams_too_big s c m from params args size Hargs Hsize Hpos Hbig).
  eexists. split; [reflexivity|]. fields. split; [reflexivity | exact Hm].
Qed.

(** ** The matcher: what a match hands to its continuation *)

Section Matcher.

Import Regexp.

Lemma rounds_continue r1 :
  continues r1 (nonnull r1) →
  ∀ fuel i s cs (k : cont) res,
    rounds (run r1) k fuel i s cs = Some res →
    ∃ i' s' cs',
      k i' s' cs' = Some res
      ∧ (i <= i')%nat
      ∧ (i' + String.length s' = i + String.length s)%nat
      ∧ (∀ n, hasGroup n r1 = false → captured n cs' = captured n cs).
Proof.
  intros IH fuel.
  induction fuel as [|fuel IHfuel]; intros i s cs k res H; cbn [rounds] in H.
  - exists i, s, cs. repeat split; auto.
  - destruct (run r1 i s cs _) as [m|] eqn:Hround.
    + injection H as ->.
      apply IH in Hround as (i1 & s1 & cs1 & Hk & Hle & Hlen & _ & Hcs).
      destruct (i <? i1)%nat; [|discriminate Hk].
      apply IHfuel in Hk as (i2 & s2 & cs2 & Hk & Hle2 & Hlen2 & Hcs2).
      exists i2, s2, cs2. repeat split; [exact Hk | lia | lia |].
      intros n Hn. rewrite (Hcs2 n Hn). apply Hcs, Hn.
    + exists i, s, cs. repeat split; auto.
Qed.

Lemma run_continues r : continues r (nonnull r).
Proof.
  induction r as [|p|r1 IH1 r2 IH2|r1 IH1 r2 IH2|r1 IH1|g r1 IH1| |];
    intros i s cs k res H; cbn [run nonnull hasGroup] in *.
  - exists i, s, cs. repeat split; auto; discriminate.
  - destruct s as [|a s']; [discriminate H|].
    destruct (p a); [|discriminate H].
    exists (S i), s', cs. cbn [String.length]. repeat split; auto; lia.
  - apply IH1 in H as (i1 & s1 & cs1 & H & Hle1 & Hlen1 & Hs1 & Hcs1).
    apply IH2 in H as (i2 & s2 & cs2 & H & Hle2 & Hlen2 & Hs2 & Hcs2).
    exists i2, s2, cs2. repeat split; [exact H | lia | lia | |].
    + intros Hnn. apply orb_true_iff in Hnn as [Hnn|Hnn];
        [specialize (Hs1 Hnn) | specialize (Hs2 Hnn)]; lia.
    + intros n Hn. apply orb_false_elim in Hn as [Hn1 Hn2].
      rewrite (Hcs2 n Hn2). apply Hcs1, Hn1.
  - destruct (run r1 i s cs k) as [m|] eqn:Hleft.
    + injection H as ->.
      apply IH1 in Hleft as (i1 & s1 & cs1 & H & Hle1 & Hlen1 & Hs1 & Hcs1).
      exists i1, s1, cs1. repeat split; [exact H | lia | lia | |].
      * intros Hnn. apply andb_true_iff in Hnn as [Hnn _]. auto.
      * intros n Hn. apply orb_false_elim in Hn as [Hn1 _]. auto.
    + apply IH2 in H as (i2 & s2 & cs2 & H & Hle2 & Hlen2 & Hs2 & Hcs2).
      exists i2, s2, cs2. repeat split; [exact H | lia | lia | |].
      * intros Hnn. apply andb_true_iff in Hnn as [_ Hnn]. auto.
      * intros n Hn. apply orb_false_elim in Hn as [_ Hn2]. auto.
  - apply (rounds_continue r1 IH1) in H as (i1 & s1 & cs1 & H & Hle & Hlen & Hcs).
    exists i1, s1, cs1. repeat split; auto; discriminate.
  - apply IH1 in H as (i1 & s1 & cs1 & H & Hle1 & Hlen1 & Hs1 & Hcs1).
    exists i1, s1, ((g, Strings.take (i1 - i) s) :: cs1).
    repeat split; [exact H | lia | lia | exact Hs1 |].
    intros n Hn. apply orb_false_elim in Hn as [Hne Hn].
    cbn [captured]. rewrite Hne. apply Hcs1, Hn.
  - destruct (i =? 0)%nat; [|discriminate H].
    exists i, s, cs. repeat split; auto; discriminate.
  - destruct s; [|discriminate H].
    exists i, "", cs. repeat split; auto; discriminate.
Qed.

Lemma take_not_empty n s :
  (0 < n)%nat → (n <= String.length s)%nat → Strings.take n s ≠ "".
Proof.
  destruct n as [|n]; [lia|].
  destruct s as [|a s]; cbn [String.length]; [lia|].
  intros _ _. discriminate.
Qed.

(** A group around an expression that always consumes a byte is closed
    with a text that is not empty. *)
Lemma run_group_first g r1 r2 i s cs (k : cont) res :
  nonnull r1 = true →
  run (Cat (Group g r1) r2) i s cs k = Some res →
  ∃ i' s' cs' text,
    run r2 i' s' ((g, text) :: cs') k = Some res ∧ text ≠ "".
Proof.
  intros Hnn H. cbn [run] in H.
  apply run_continues in H as (i1 & s1 & cs1 & H & Hle & Hlen & Hs & _).
  specialize (Hs Hnn).
  exists i1, s1, cs1, (Strings.take (i1 - i) s). split; [exact H|].
  apply take_not_empty; lia.
Qed.

Lemma run_cat_second r1 r2 i s cs (k : cont) res :
  run (Cat r1 r2) i s cs k = Some res →
  ∃ i' s' cs', run r2 i' s' cs' k = Some res.
Proof.
  intros H. cbn [run] in H.
  apply run_continues in H as (i1 & s1 & cs1 & H & _).
  eauto.
Qed.

Lemma search_run r : ∀ s i cs,
  search r i s = Some cs → ∃ i' s', run r i' s' [] (accept i' s') = Some cs.
Proof.
  induction s as [|a s IH]; intros i cs H; cbn [search] in H.
  - destruct (run r i "" [] _) eqn:Hrun; [|discriminate H].
    injection H as ->. eauto.
  - destruct (run r i (String a s) [] _) eqn:Hrun.
    + injection H as ->. eauto.
    + apply IH in H. exact H.
Qed.

(** The address that the expression of MAIL captures is never empty. *)
Lemma mail_from_not_empty arg whole from params :
  MailRegexp.FindStringSubmatch arg = Some [whole; from; params] →
  from ≠ "".
Proof.
  unfold MailRegexp.FindStringSubmatch, FindStringSubmatch.
  destruct (search MailRegexp.expr 0 arg) as [cs|] eqn:Hsearch; [|discriminate].
  cbn [seq List.map]. intros H. injection H as _ <- _.
  apply search_run in Hsearch as (i & s & H).
  unfold MailRegexp.expr in H.
  do 4 apply run_cat_second in H as (? & ? & ? & H).
  apply run_group_first in H as (i1 & s1 & cs1 & text & H & Htext);
    [|reflexivity].
  apply run_continues in H as (i2 & s2 & cs2 & H & _ & _ & _ & Hcs).
  unfold accept in H. injection H as <-.
  cbn [captured Nat.eqb]. rewrite (Hcs 1%nat); [|reflexivity].
  cbn [captured Nat.eqb]. exact Htext.
Qed.

End Matcher.

(** ** Invariants of the connection *)

Section Invariants.

Variable s : Server.

Lemma flush_not_empty tok : Forall (λ t, t ≠ "") (Strings.flush tok).
Proof. destruct tok; constructor; [discriminate | constructor]. Qed.

Lemma fieldsFrom_not_empty str :
  ∀ skip tok, Forall (λ t, t ≠ "") (Strings.fieldsFrom skip tok str).
Proof.
  induction str as [|a str IH]; intros skip tok; cbn [Strings.fieldsFrom].
  - apply flush_not_empty.
  - destruct skip; [|apply IH].
    destruct (Strings.spaceWidth (String a str)); [apply IH|].
    apply Forall_app. split; [apply flush_not_empty | apply IH].
Qed.

Lemma parseHelloArgument_not_empty arg domain :
  Parse.parseHelloArgument arg = Some domain → domain ≠ "".
Proof.
  unfold Parse.parseHelloArgument.
  pose proof (fieldsFrom_not_empty arg 0 "") as Hall.
  fold (Strings.Fields arg) in Hall.
  destruct (Strings.Fields arg) as [|d ds]; [discriminate|].
  intros H. injection H as <-. inversion Hall; assumption.
Qed.

(** The chain only looks at the greeting, the user and the envelope. *)
Lemma chain_same c c' :
  helo c' = helo c → User c' = User c → msg c' = msg c →
  chain c → chain c'.
Proof. unfold chain. intros -> -> ->. auto. Qed.

Lemma chain_reset c : chain (reset c).
Proof.
  destruct (reset_clears c) as (_ & HU & Hm & _).
  unfold chain. rewrite HU, Hm. split; intros H; contradiction.
Qed.

Lemma chain_envelope c m m' :
  msg c = Some m → chain c → chain (setMsg (Some m') c).
Proof.
  unfold chain. intros Hm [H1 H2]. fields. split; [|exact H2].
  intros _. apply H1. rewrite Hm. discriminate.
Qed.

Lemma chain_greet enhanced arg c : chain c → chain (handleGreet s enhanced arg c).
Proof.
  intros Hc. unfold handleGreet.
  destruct (negb enhanced);
    destruct (Parse.parseHelloArgument arg) as [domain|] eqn:Hp;
    try (revert Hc; apply chain_same; reflexivity);
    apply parseHelloArgument_not_empty in Hp;
    destruct Hc as [H1 H2]; split; fields; auto.
Qed.

Lemma chain_mailParams from params m c :
  msg c = Some m → chain c → chain (mailParams s from params m c).
Proof.
  intros Hm Hc. unfold mailParams.
  assert (Hacc : chain (Write "250" ["Roger, accepting mail from <" +:+ from +:+ ">"]
                          (setMsg (Some (setFrom from m)) c))).
  { apply (chain_same (setMsg (Some (setFrom from m)) c)); try reflexivity.
    apply (chain_envelope c m); assumption. }
  destruct (Strings.isEmpty params); [exact Hacc|].
  destruct (Parse.parseArgs params) as [args|];
    [|revert Hc; apply chain_same; reflexivity].
  destruct (Strings.isEmpty (Parse.index args "SIZE")); [exact Hacc|].
  destruct (Strconv.ParseInt32 _) as [size|];
    [|revert Hc; apply chain_same; reflexivity].
  destruct ((0 <? MaxMessageBytes s) && (MaxMessageBytes s <? size));
    [revert Hc; apply chain_same; reflexivity | exact Hacc].
Qed.

Lemma chain_mail arg c : chain c → chain (handleMail s arg c).
Proof.
  intros Hc. unfold handleMail.
  destruct (Strings.isEmpty (helo c));
    [revert Hc; apply chain_same; reflexivity|].
  destruct (msg c) as [m|] eqn:Hm;
    [|revert Hc; apply chain_same; reflexivity].
  destruct (MailRegexp.FindStringSubmatch arg) as [[|w [|from [|params [|]]]]|];
    try (revert Hc; apply chain_same; reflexivity).
  apply chain_mailParams; assumption.
Qed.

Lemma chain_rcpt arg c : chain c → chain (handleRcpt s arg c).
Proof.
  intros Hc. unfold handleRcpt.
  destruct (msg c) as [m|] eqn:Hm;
    [|revert Hc; apply chain_same; reflexivity].
  repeat match goal with
         | |- chain (if ?b then _ else _) => destruct b
         end;
    try (revert Hc; apply chain_same; reflexivity).
  eapply chain_same; [reflexivity..|].
  apply (chain_envelope c m); assumption.
Qed.

(** The challenge loop leaves the greeting and the envelope alone and
    never takes a user away. *)
Lemma authLoop_frame sasl toks :
  ∀ fed response c c' left,
    authLoop sasl fed response toks c = (c', left) →
    helo c' = helo c ∧ msg c' = msg c ∧ (User c ≠ None → User c' ≠ None).
Proof.
  assert (Hlogin : ∀ (o : option Backend.User) c,
            let c1 := match o with Some u => setUser (Some u) c | None => c end in
            helo c1 = helo c ∧ msg c1 = msg c ∧ (User c ≠ None → User c1 ≠ None)).
  { intros [u|] c; cbn; repeat split; auto; discriminate. }
  induction toks as [|[line rest] toks IH]; intros fed response c c' left H;
    cbn [authLoop] in H;
    destruct (Hlogin (Sasl.login (sasl (fed ++ [response]))) c) as (Hh & Hm & HU);
    cbn zeta in Hh, Hm, HU;
    set (c1 := match Sasl.login _ with Some u => _ | None => c end) in *;
    destruct (Sasl.err _); try (injection H as <- <-; auto);
    destruct (Sasl.done _); try (injection H as <- <-; auto).
  destruct (Strings.isEmpty line).
  - apply IH in H as (Hh' & Hm' & HU'). fields.
    rewrite Hh', Hm', Hh, Hm. repeat split; auto.
  - destruct (Base64.DecodeString line).
    + apply IH in H as (Hh' & Hm' & HU'). fields.
      rewrite Hh', Hm', Hh, Hm. repeat split; auto.
    + injection H as <- <-. auto.
Qed.

Lemma chain_authenticate mechanism ir c :
  helo c ≠ "" → chain c → chain (authenticate s mechanism ir c).
Proof.
  intros Hhelo Hc. unfold authenticate.
  destruct (auths s !! mechanism) as [newSasl|];
    [|revert Hc; apply chain_same; reflexivity].
  destruct (authLoop newSasl [] ir _ c) as [c1 left] eqn:Hloop.
  apply authLoop_frame in Hloop as (Hh & Hm & HU).
  assert (Hc1 : chain c1).
  { destruct Hc as [H1 H2]. split.
    - rewrite Hm. auto.
    - intros _. rewrite Hh. exact Hhelo. }
  destruct left; [|exact Hc1].
  destruct (User c1) as [u|] eqn:Hu; [|exact Hc1].
  split; fields.
  - intros _. rewrite Hu. discriminate.
  - intros _. rewrite Hh. exact Hhelo.
Qed.

Lemma chain_auth arg c c' :
  handleAuth s arg c = Ok c' → chain c → chain c'.
Proof.
  unfold handleAuth. intros H Hc.
  destruct (Strings.isEmpty (helo c)) eqn:Hhelo;
    [injection H as <-; revert Hc; apply chain_same; reflexivity|].
  apply isEmpty_false in Hhelo.
  destruct (Strings.isEmpty arg);
    [injection H as <-; revert Hc; apply chain_same; reflexivity|].
  destruct (Strings.Fields arg) as [|part0 [|part1 rest]]; [discriminate H| |].
  - injection H as <-. apply chain_authenticate; assumption.
  - destruct (Base64.DecodeString part1); injection H as <-;
      [apply chain_authenticate|]; assumption.
Qed.

Lemma chain_starttls c : chain c → chain (handleStartTLS s c).
Proof.
  intros Hc. unfold handleStartTLS.
  destruct (IsTLS c); [revert Hc; apply chain_same; reflexivity|].
  destruct (TLSConfig s); [apply chain_reset|].
  revert Hc; apply chain_same; reflexivity.
Qed.

Lemma chain_data arg c c' :
  handleData s arg c = Ok c' → chain c → chain c'.
Proof.
  unfold handleData. intros H Hc.
  destruct (negb (Strings.isEmpty arg));
    [injection H as <-; revert Hc; apply chain_same; reflexivity|].
  destruct (readyForData c);
    [|injection H as <-; revert Hc; apply chain_same; reflexivity].
  destruct (User _) as [u|]; [|discriminate H].
  destruct (Backend.Send u _) as [r unread].
  destruct (deliveryReply r _) as [d|]; [|discriminate H].
  injection H as <-. apply chain_reset.
Qed.

Lemma chain_unrecognized cmd c : chain c → chain (unrecognized cmd c).
Proof.
  intros Hc. unfold unrecognized, logout. fields.
  destruct (3 <? _); [destruct (User c) eqn:Hu|];
    revert Hc; apply chain_same; fields; auto.
Qed.

Lemma chain_close c : chain c → chain (Close c).
Proof.
  unfold Close, logout. destruct (User c) eqn:Hu;
    apply chain_same; fields; auto.
Qed.

(** Every operation of the engine keeps the chain. *)
Lemma chain_handle cmd arg c c' :
  handle s cmd arg c = Ok c' → chain c → chain c'.
Proof.
  unfold handle. intros H Hc.
  repeat match type of H with
         | (if ?b then _ else _) = _ => destruct b
         end;
    try (injection H as <-);
    eauto using chain_greet, chain_mail, chain_rcpt, chain_reset, chain_data,
      chain_auth, chain_starttls, chain_unrecognized;
    try (revert Hc; apply chain_same; reflexivity).
  - apply (chain_same (reset c)); [reflexivity.. | apply chain_reset].
  - apply chain_close. revert Hc; apply chain_same; reflexivity.
Qed.

End Invariants.

(** C8.  In every reachable state of a connection the envelope is there
    only with a user, and a user only with a greeting; a new connection
    satisfies this chain and every operation of the engine (whatever the
    verb and its argument) preserves it. *)
Theorem chain_invariant (s : Server) :
  (∀ n input, chain (newConn n input))
  ∧ (∀ cmd arg c c', chain c → handle s cmd arg c = Ok c' → chain c')
  ∧ (∀ c, reachable s c → chain c).
Proof.
  assert (Hnew : ∀ n input, chain (newConn n input)).
  { intros n input. split; intros H; contradiction. }
  assert (Hstep : ∀ cmd arg c c', chain c → handle s cmd arg c = Ok c' → chain c').
  { intros cmd arg c c' Hc H. exact (chain_handle s cmd arg c c' H Hc). }
  split; [exact Hnew|]. split; [exact Hstep|].
  intros c Hreach. induction Hreach as [n input|c input _ IH|c cmd arg c' _ IH H].
  - apply (chain_same (newConn n input)); [reflexivity.. | apply Hnew].
  - revert IH. apply chain_same; reflexivity.
  - exact (Hstep cmd arg c c' IH H).
Qed.

(** ** Recipients need a sender *)

Section SenderFirst.

Variable s : Server.

Lemma senderFirst_same c c' : msg c' = msg c → senderFirst c → senderFirst c'.
Proof. unfold senderFirst. intros ->. auto. Qed.

Lemma senderFirst_none c : msg c = None → senderFirst c.
Proof. unfold senderFirst. intros -> m H. discriminate H. Qed.

Lemma senderFirst_reset c : senderFirst (reset c).
Proof. apply senderFirst_none. apply reset_clears. Qed.

Lemma senderFirst_mailParams from params m c :
  from ≠ "" → senderFirst c → senderFirst (mailParams s from params m c).
Proof.
  intros Hfrom Hc. unfold mailParams.
  assert (Hacc : senderFirst
            (Write "250" ["Roger, accepting mail from <" +:+ from +:+ ">"]
               (setMsg (Some (setFrom from m)) c))).
  { intros m' Hm' _. fields. injection Hm' as <-. exact Hfrom. }
  repeat match goal with
         | |- senderFirst (if ?b then _ else _) => destruct b
         | |- senderFirst (match ?o with Some _ => _ | None => _ end) => destruct o
         end;
    try exact Hacc; revert Hc; apply senderFirst_same; reflexivity.
Qed.

Lemma senderFirst_mail arg c : senderFirst c → senderFirst (handleMail s arg c).
Proof.
  intros Hc. unfold handleMail.
  destruct (Strings.isEmpty (helo c));
    [revert Hc; apply senderFirst_same; reflexivity|].
  destruct (msg c) as [m|] eqn:Hm;
    [|revert Hc; apply senderFirst_same; reflexivity].
  destruct (MailRegexp.FindStringSubmatch arg)
    as [[|w [|from [|params [|]]]]|] eqn:Hre;
    try (revert Hc; apply senderFirst_same; reflexivity).
  apply senderFirst_mailParams; [|exact Hc].
  exact (mail_from_not_empty arg w from params Hre).
Qed.

Lemma senderFirst_rcpt arg c : senderFirst c → senderFirst (handleRcpt s arg c).
Proof.
  intros Hc. unfold handleRcpt.
  destruct (msg c) as [m|] eqn:Hm;
    [|revert Hc; apply senderFirst_same; reflexivity].
  destruct (Strings.isEmpty (From m)) eqn:Hfrom;
    [revert Hc; apply senderFirst_same; reflexivity|].
  apply isEmpty_false in Hfrom.
  repeat match goal with
         | |- senderFirst (if ?b then _ else _) => destruct b
         end;
    try (revert Hc; apply senderFirst_same; reflexivity).
  intros m' Hm' _. fields. injection Hm' as <-. exact Hfrom.
Qed.

Lemma senderFirst_authenticate mechanism ir c :
  senderFirst c → senderFirst (authenticate s mechanism ir c).
Proof.
  intros Hc. unfold authenticate.
  destruct (auths s !! mechanism) as [newSasl|];
    [|revert Hc; apply senderFirst_same; reflexivity].
  destruct (authLoop newSasl [] ir _ c) as [c1 left] eqn:Hloop.
  apply authLoop_frame in Hloop as (_ & Hm & _).
  assert (Hc1 : senderFirst c1) by (revert Hc; apply senderFirst_same; exact Hm).
  destruct left; [|exact Hc1].
  destruct (User c1); [|exact Hc1].
  intros m' Hm' Hto. fields. injection Hm' as <-. contradiction.
Qed.

Lemma senderFirst_auth arg c c' :
  handleAuth s arg c = Ok c' → senderFirst c → senderFirst c'.
Proof.
  unfold handleAuth. intros H Hc.
  repeat match type of H with
         | (if ?b then _ else _) = _ => destruct b
         end;
    try (injection H as <-; revert Hc; apply senderFirst_same; reflexivity).
  destruct (Strings.Fields arg) as [|part0 [|part1 rest]]; [discriminate H| |].
  - injection H as <-. apply senderFirst_authenticate; assumption.
  - destruct (Base64.DecodeString part1); injection H as <-;
      [apply senderFirst_authenticate|]; assumption.
Qed.

Lemma senderFirst_data arg c c' :
  handleData s arg c = Ok c' → senderFirst c → senderFirst c'.
Proof.
  unfold handleData. intros H Hc.
  destruct (negb (Strings.isEmpty arg));
    [injection H as <-; revert Hc; apply senderFirst_same; reflexivity|].
  destruct (readyForData c);
    [|injection H as <-; revert Hc; apply senderFirst_same; reflexivity].
  destruct (User _) as [u|]; [|discriminate H].
  destruct (Backend.Send u _) as [r unread].
  destruct (deliveryReply r _) as [d|]; [|discriminate H].
  injection H as <-. apply senderFirst_reset.
Qed.

Lemma senderFirst_starttls c : senderFirst c → senderFirst (handleStartTLS s c).
Proof.
  intros Hc. unfold handleStartTLS.
  destruct (IsTLS c); [revert Hc; apply senderFirst_same; reflexivity|].
  destruct (TLSConfig s); [apply senderFirst_reset|].
  revert Hc; apply senderFirst_same; reflexivity.
Qed.

Lemma senderFirst_closing c : senderFirst c → senderFirst (Close c).
Proof.
  unfold Close, logout. destruct (User c);
    apply senderFirst_same; reflexivity.
Qed.

Lemma senderFirst_unrecognized cmd c :
  senderFirst c → senderFirst (unrecognized cmd c).
Proof.
  intros Hc. unfold unrecognized.
  destruct (3 <? _); [apply senderFirst_closing|];
    revert Hc; apply senderFirst_same; reflexivity.
Qed.

Lemma senderFirst_handle cmd arg c c' :
  handle s cmd arg c = Ok c' → senderFirst c → senderFirst c'.
Proof.
  unfold handle. intros H Hc.
  repeat match type of H with
         | (if ?b then _ else _) = _ => destruct b
         end;
    try (injection H as <-);
    eauto using senderFirst_mail, senderFirst_rcpt, senderFirst_data,
      senderFirst_auth, senderFirst_starttls, senderFirst_unrecognized;
    try (revert Hc; apply senderFirst_same; reflexivity).
  - unfold handleGreet.
    destruct (negb _); destruct (Parse.parseHelloArgument arg);
      revert Hc; apply senderFirst_same; reflexivity.
  - apply (senderFirst_same (reset c)); [reflexivity | apply senderFirst_reset].
  - apply senderFirst_closing. revert Hc; apply senderFirst_same; reflexivity.
Qed.

Lemma reachable_senderFirst c : reachable s c → senderFirst c.
Proof.
  induction 1 as [n input|c input _ IH|c cmd arg c' _ IH H].
  - apply senderFirst_none. reflexivity.
  - revert IH. apply senderFirst_same. reflexivity.
  - exact (senderFirst_handle cmd arg c c' H IH).
Qed.

End SenderFirst.

(** C5.  With a limit of k > 0 recipients and k recipients in the
    envelope of a reachable connection, every further RCPT command with
    a well-formed TO: argument gets the reply 552 and leaves the
    envelope, its recipients included, as it was. *)
Theorem rcpt_over_limit (s : Server) (c : Conn) (m : Message) (arg : string)
    (k : Z) :
  reachable s c → msg c = Some m →
  MaxRecipients s = k → 0 < k → Z.of_nat (length (To m)) = k →
  wellFormedTo arg →
  ∃ c', handle s "RCPT" arg c = Ok c'
    ∧ writer c' =
        writer c ++ replyLines "552" ["Maximum limit of " +:+ Strconv.Itoa k
                                      +:+ " recipients reached"]
    ∧ msg c' = Some m.
Proof.
  intros Hreach Hm Hk Hpos Hfull Harg.
  assert (Hfrom : From m ≠ "").
  { apply (reachable_senderFirst s c Hreach m Hm).
    destruct (To m); [cbn in Hfull; lia | discriminate]. }
  rewrite handle_RCPT, (rcpt_at_limit s c m arg Hm Hfrom Harg) by lia.
  rewrite Hk. eexists. split; [reflexivity|]. fields.
  split; [reflexivity | exact Hm].
Qed.

Lemma reachable_handleAll (s : Server) cmds :
  ∀ c c', reachable s c → handleAll s cmds c = Ok c' → reachable s c'.
Proof.
  induction cmds as [|[cmd arg] cmds IH]; intros c c' Hreach H;
    cbn [handleAll] in H.
  - injection H as <-. exact Hreach.
  - destruct (handle s cmd arg c) as [c1|] eqn:Hstep; [|discriminate H].
    apply (IH c1 c'); [|exact H].
    exact (reach_handle s c cmd arg c1 Hreach Hstep).
Qed.

(** ** The body reader *)

Section Reader.

Import DataReader.

Variable max : Z.

Lemma append_cons a (x y : string) : String a x +:+ y = String a (x +:+ y).
Proof. reflexivity. Qed.

Lemma append_empty (y : string) : "" +:+ y = y.
Proof. reflexivity. Qed.

Lemma append_assoc (x y z : string) : (x +:+ y) +:+ z = x +:+ y +:+ z.
Proof.
  induction x as [|a x IH]; [reflexivity|].
  rewrite !append_cons, IH. reflexivity.
Qed.

Lemma len_cons a x : Strings.len (String a x) = Strings.len x + 1.
Proof. unfold Strings.len. cbn [String.length]. lia. Qed.

Lemma len_append x y : Strings.len (x +:+ y) = Strings.len x + Strings.len y.
Proof.
  induction x as [|a x IH]; [reflexivity|].
  rewrite append_cons, !len_cons, IH. lia.
Qed.

Lemma len_nonneg x : 0 <= Strings.len x.
Proof. unfold Strings.len. lia. Qed.

Lemma isByte_eqb n a :
  (n < 256)%N → Bytes.isByte n a = Ascii.eqb a (ascii_of_N n).
Proof.
  intros Hn. unfold Bytes.isByte, Bytes.code.
  destruct (Ascii.eqb_spec a (ascii_of_N n)) as [->|Hne].
  - rewrite N_ascii_embedding by exact Hn. apply N.eqb_refl.
  - apply N.eqb_neq. intros <-. apply Hne. symmetry. apply ascii_N_embedding.
Qed.

Lemma startsWithCRLF_prefix x : startsWithCRLF x = Wire.HasPrefix x CRLF.
Proof.
  destruct x as [|a [|b x]]; cbn [startsWithCRLF Wire.HasPrefix CRLF].
  - reflexivity.
  - rewrite andb_false_r. reflexivity.
  - rewrite !isByte_eqb by reflexivity. unfold Bytes.CR, Bytes.LF.
    rewrite andb_true_r. reflexivity.
Qed.

Lemma prepend_empty r : Wire.prepend "" r = r.
Proof. destruct r as [[body| |] rest]; reflexivity. Qed.

Lemma prepend_cons a text r :
  Wire.prepend (String a text) r = emit a (Wire.prepend text r).
Proof. destruct r as [[body| |] rest]; reflexivity. Qed.

Lemma prepend_append x y r :
  Wire.prepend (x +:+ y) r = Wire.prepend x (Wire.prepend y r).
Proof.
  induction x as [|a x IH]; [rewrite append_empty, prepend_empty; reflexivity|].
  rewrite append_cons, !prepend_cons, IH. reflexivity.
Qed.

(** A byte is delivered while the limit leaves room for it. *)
Lemma room n :
  Wire.within max (n + 1) → (0 <? max) && (max <? n + 1) = false.
Proof.
  intros [H|H].
  - destruct (Z.ltb_spec 0 max); [lia | reflexivity].
  - destruct (Z.ltb_spec max (n + 1)); [lia | apply andb_false_r].
Qed.

Lemma within_less total total' :
  total' <= total → Wire.within max total → Wire.within max total'.
Proof. unfold Wire.within. lia. Qed.

Lemma contains_cons a x :
  Wire.Contains (String a x) CRLF = false →
  Wire.HasPrefix (String a x) CRLF = false ∧ Wire.Contains x CRLF = false.
Proof. cbn [Wire.Contains]. apply orb_false_elim. Qed.

(** After [a], the rest of a line without CR LF is safe to read. *)
Lemma safe_next a x :
  Wire.HasPrefix (String a x) CRLF = false → Wire.safe (next a) x.
Proof.
  unfold next. rewrite isByte_eqb by reflexivity.
  destruct (Ascii.eqb_spec a (ascii_of_N 13)) as [->|_]; [|intros _; exact I].
  cbn [Wire.safe]. destruct x as [|b x]; [reflexivity|].
  cbn [Wire.HasPrefix CRLF]. unfold Bytes.CR. rewrite Ascii.eqb_refl.
  cbn [andb]. auto.
Qed.

Lemma read_end_of_line st n tail :
  st ≠ BeginLine → Wire.within max (n + 2) →
  read max st n (CRLF +:+ tail) =
    Wire.prepend CRLF (read max BeginLine (n + 2) tail).
Proof.
  intros Hst Hroom.
  assert (H1 : (0 <? max) && (max <? n + 1) = false)
    by (apply room; revert Hroom; apply within_less; lia).
  assert (H2 : (0 <? max) && (max <? n + 1 + 1) = false)
    by (apply room; revert Hroom; apply within_less; lia).
  unfold CRLF. rewrite !append_cons, append_empty, !prepend_cons, prepend_empty.
  replace (n + 2) with (n + 1 + 1) by lia.
  destruct st; [contradiction| |]; cbn [read]; rewrite H1;
    cbn [read]; rewrite H2; reflexivity.
Qed.

(** Behind the start of a line the reader copies the line and its
    CR LF, and stands at the start of the next line. *)
Lemma read_line l : ∀ st n tail,
  Wire.safe st l → Wire.Contains l CRLF = false →
  Wire.within max (n + Strings.len l + 2) →
  read max st n (l +:+ CRLF +:+ tail) =
    Wire.prepend (l +:+ CRLF)
      (read max BeginLine (n + Strings.len l + 2) tail).
Proof.
  induction l as [|a l IH]; intros st n tail Hsafe Hno Hroom.
  - rewrite !append_empty. replace (n + Strings.len "" + 2) with (n + 2)
      by (unfold Strings.len; cbn; lia).
    apply read_end_of_line.
    + intros ->. exact Hsafe.
    + revert Hroom. apply within_less. unfold Strings.len. cbn. lia.
  - apply contains_cons in Hno as [Hhead Hno].
    rewrite len_cons in *.
    assert (H1 : (0 <? max) && (max <? n + 1) = false).
    { apply room. revert Hroom. apply within_less.
      pose proof (len_nonneg l). lia. }
    assert (Hnext : read max (next a) (n + 1) (l +:+ CRLF +:+ tail) =
                    Wire.prepend (l +:+ CRLF)
                      (read max BeginLine (n + (Strings.len l + 1) + 2) tail)).
    { replace (n + (Strings.len l + 1) + 2) with (n + 1 + Strings.len l + 2)
        by lia.
      apply IH; [apply safe_next, Hhead | exact Hno |].
      revert Hroom. apply within_less. lia. }
    rewrite !append_cons, prepend_cons.
    destruct st; [contradiction| |]; cbn [read]; rewrite H1.
    + rewrite Hnext. reflexivity.
    + cbn [Wire.safe Wire.HasPrefix] in Hsafe.
      rewrite andb_true_r in Hsafe.
      rewrite isByte_eqb by reflexivity. unfold Bytes.LF in Hsafe.
      rewrite Hsafe, Hnext. reflexivity.
Qed.

End Reader.

Section Unstuffing.

Import DataReader.

Variable max : Z.

Lemma unstuffed_shorter l : Strings.len (Wire.unstuff l) <= Strings.len l.
Proof.
  destruct l as [|a l]; [reflexivity|]. cbn [Wire.unstuff].
  destruct (Bytes.isByte 46 a); rewrite len_cons; lia.
Qed.

(** One line at the start of a line: it is delivered without its leading
    dot, if it has one. *)
Lemma read_body_line l n tail :
  Wire.line l →
  Wire.within max (n + Strings.len (Wire.unstuff l) + 2) →
  read max BeginLine n (l +:+ CRLF +:+ tail) =
    Wire.prepend (Wire.unstuff l +:+ CRLF)
      (read max BeginLine (n + Strings.len (Wire.unstuff l) + 2) tail).
Proof.
  intros [Hdot Hno] Hroom.
  destruct l as [|a l].
  - rewrite !append_empty. cbn [Wire.unstuff].
    assert (H1 : (0 <? max) && (max <? n + 1) = false)
      by (apply (room max); revert Hroom; apply within_less;
          unfold Strings.len; cbn; lia).
    assert (H2 : (0 <? max) && (max <? n + 1 + 1) = false)
      by (apply (room max); revert Hroom; apply within_less;
          unfold Strings.len; cbn; lia).
    replace (n + Strings.len "" + 2) with (n + 1 + 1)
      by (unfold Strings.len; cbn; lia).
    unfold CRLF. rewrite !append_cons, append_empty, !prepend_cons, prepend_empty.
    cbn [read]. rewrite H1. cbn [read]. rewrite H2. reflexivity.
  - apply contains_cons in Hno as [Hhead Hno].
    cbn [Wire.unstuff] in *. rewrite append_cons.
    destruct (Bytes.isByte 46 a) eqn:Ha; cbn [read]; rewrite Ha.
    + assert (Hl : l ≠ "").
      { intros ->. apply Hdot. unfold Wire.dot. f_equal.
        rewrite isByte_eqb in Ha by reflexivity.
        apply Ascii.eqb_eq in Ha. exact Ha. }
      assert (Hstart : startsWithCRLF (l +:+ CRLF +:+ tail) = false).
      { rewrite startsWithCRLF_prefix.
        destruct l as [|b [|c l]]; [contradiction| |].
        - cbn [Wire.Contains Wire.HasPrefix] in Hno.
          rewrite !append_cons, append_empty. unfold CRLF.
          rewrite !append_cons. cbn [Wire.HasPrefix].
          replace (Bytes.CR =? Bytes.LF)%char with false by reflexivity.
          rewrite andb_false_l, andb_false_r. reflexivity.
        - apply contains_cons in Hno as [Hno _].
          rewrite !append_cons. exact Hno. }
      rewrite Hstart.
      apply (read_line max l InLine n tail I Hno Hroom).
    + rewrite len_cons in Hroom.
      assert (H1 : (0 <? max) && (max <? n + 1) = false).
      { apply (room max). revert Hroom. apply within_less.
        pose proof (len_nonneg l). lia. }
      rewrite H1, append_cons, prepend_cons.
      rewrite (read_line max l (next a) (n + 1) tail (safe_next a l Hhead) Hno)
        by (revert Hroom; apply within_less; lia).
      rewrite len_cons.
      replace (n + 1 + Strings.len l + 2) with (n + (Strings.len l + 1) + 2)
        by lia.
      reflexivity.
Qed.

Lemma read_body lines : ∀ n rest,
  Forall Wire.line lines →
  Wire.within max (n + Strings.len (Wire.body (List.map Wire.unstuff lines))) →
  read max BeginLine n (Wire.body lines +:+ Wire.dot +:+ CRLF +:+ rest) =
    (Bytes (Wire.body (List.map Wire.unstuff lines)), rest).
Proof.
  induction lines as [|l lines IH]; intros n rest Hlines Hroom.
  - cbn [Wire.body List.map]. rewrite append_empty. unfold Wire.dot.
    rewrite append_cons, append_empty. cbn [read].
    replace (Bytes.isByte 46 ".") with true by reflexivity.
    rewrite startsWithCRLF_prefix. unfold CRLF. rewrite !append_cons.
    cbn [Wire.HasPrefix]. rewrite !Ascii.eqb_refl. reflexivity.
  - inversion Hlines as [|? ? Hl Hrest]; subst.
    cbn [Wire.body List.map] in *. rewrite !append_assoc.
    rewrite !len_append in Hroom.
    assert (Hcrlf : Strings.len CRLF = 2) by reflexivity.
    rewrite (read_body_line l n _ Hl)
      by (revert Hroom; apply within_less;
          pose proof (len_nonneg (Wire.body (List.map Wire.unstuff lines))); lia).
    rewrite (IH _ rest Hrest)
      by (revert Hroom; apply within_less; lia).
    cbn [Wire.prepend]. rewrite append_assoc. reflexivity.
Qed.

End Unstuffing.

(** C9 (amended).  For every body sent as lines that end in CR LF, none
    of them the lone dot, followed by the terminator line, with no size
    limit or one that the delivered body fits, the body delivered to the
    backend is the wire body with the first dot removed from every line
    that starts with a dot, the first line included, and the input
    behind the terminator is left for the next command.  So the wire
    body "..foo" CR LF followed by the terminator delivers ".foo"
    CR LF. *)
Theorem data_reader_unstuffs (max : Z) (lines : list string) (rest : string) :
  Forall Wire.line lines →
  Wire.within max (Strings.len (Wire.body (List.map Wire.unstuff lines))) →
  DataReader.readAll max (Wire.body lines +:+ Wire.dot +:+ CRLF +:+ rest) =
    (DataReader.Bytes (Wire.body (List.map Wire.unstuff lines)), rest).
Proof.
  intros Hlines Hroom.
  unfold DataReader.readAll. apply read_body; [exact Hlines|].
  revert Hroom. apply within_less. lia.
Qed.

(** * Further properties of conn.go *)

(** ** The reply writer *)

(** X1.  A reply of n >= 1 texts is written as n lines: every text but
    the last behind the code and a dash, the last behind the code and a
    space, each ended by CR LF. *)
Theorem reply_format (code : string) (texts : list string) (last : string) :
  replyLines code (texts ++ [last]) =
    List.map (λ t, code +:+ "-" +:+ t +:+ CRLF) texts
    ++ [code +:+ " " +:+ last +:+ CRLF].
Proof.
  induction texts as [|t texts IH]; [reflexivity|].
  cbn [app List.map]. rewrite <- IH.
  cbn [replyLines]. destruct (texts ++ [last]) eqn:Hrest; [|reflexivity].
  destruct texts; discriminate Hrest.
Qed.

(** ** What a command leaves alone *)

Section Frames.

Variable s : Server.

(** The challenge loop only writes, takes input and may set the user. *)
Lemma authLoop_effects sasl toks :
  ∀ fed response c c' left,
    authLoop sasl fed response toks c = (c', left) →
    conn c' = conn c ∧ nbrErrors c' = nbrErrors c ∧ logouts c' = logouts c
    ∧ ∃ lines, writer c' = writer c ++ lines.
Proof.
  assert (Hlogin : ∀ (o : option Backend.User) c,
            let c1 := match o with Some u => setUser (Some u) c | None => c end in
            conn c1 = conn c ∧ nbrErrors c1 = nbrErrors c
            ∧ logouts c1 = logouts c ∧ writer c1 = writer c).
  { intros [u|] c; cbn; repeat split. }
  assert (Hwrite : ∀ code text c c1,
            conn c1 = conn c ∧ nbrErrors c1 = nbrErrors c
            ∧ logouts c1 = logouts c ∧ (∃ lines, writer c1 = writer c ++ lines) →
            conn (Write code text c1) = conn c
            ∧ nbrErrors (Write code text c1) = nbrErrors c
            ∧ logouts (Write code text c1) = logouts c
            ∧ ∃ lines, writer (Write code text c1) = writer c ++ lines).
  { intros code text c c1 (Hc & Hn & Hl & lines & Hw). fields.
    rewrite Hw, <- app_assoc. repeat split; try assumption.
    eexists. reflexivity. }
  induction toks as [|[line rest] toks IH]; intros fed response c c' left H;
    cbn [authLoop] in H;
    destruct (Hlogin (Sasl.login (sasl (fed ++ [response]))) c)
      as (Hc & Hn & Hl & Hw);
    cbn zeta in Hc, Hn, Hl, Hw;
    set (c1 := match Sasl.login _ with Some u => _ | None => c end) in *;
    assert (H1 : conn c1 = conn c ∧ nbrErrors c1 = nbrErrors c
                 ∧ logouts c1 = logouts c
                 ∧ ∃ lines, writer c1 = writer c ++ lines)
      by (repeat split; try assumption; exists []; rewrite app_nil_r; exact Hw);
    clearbody c1.
  - destruct (Sasl.err _) as [e|]; [injection H as <- <-; apply Hwrite, H1|].
    destruct (Sasl.done _); injection H as <- <-; [exact H1 | apply Hwrite, H1].
  - destruct (Sasl.err _) as [e|]; [injection H as <- <-; apply Hwrite, H1|].
    destruct (Sasl.done _); [injection H as <- <-; exact H1|].
    apply (Hwrite "334"
             [if Strings.isEmpty (Sasl.challenge (sasl (fed ++ [response])))
              then "" else Base64.EncodeToString
                             (Sasl.challenge (sasl (fed ++ [response])))])
      in H1.
    assert (Hrec : ∀ resp2 c2,
              conn c2 = conn c ∧ nbrErrors c2 = nbrErrors c
              ∧ logouts c2 = logouts c ∧ (∃ lines, writer c2 = writer c ++ lines) →
              authLoop sasl (fed ++ [response]) resp2 toks c2 = (c', left) →
              conn c' = conn c ∧ nbrErrors c' = nbrErrors c
              ∧ logouts c' = logouts c ∧ ∃ lines, writer c' = writer c ++ lines).
    { intros resp2 c2 (Hc2 & Hn2 & Hl2 & lines2 & Hw2) Hloop.
      apply IH in Hloop as (Hc' & Hn' & Hl' & lines & Hw').
      rewrite Hc', Hn', Hl', Hw', Hc2, Hn2, Hl2, Hw2, <- app_assoc.
      repeat split. eexists. reflexivity. }
    destruct (Strings.isEmpty line).
    + eapply Hrec; [|exact H]. exact H1.
    + destruct (Base64.DecodeString line).
      * eapply Hrec; [|exact H]. exact H1.
      * injection H as <- <-. apply Hwrite. exact H1.
Qed.

Lemma steady_refl c : steady c c.
Proof. repeat split. exists []. rewrite app_nil_r. reflexivity. Qed.

Lemma steady_trans c1 c2 c3 : steady c1 c2 → steady c2 c3 → steady c1 c3.
Proof.
  intros (Hn & Hc & l & Hw) (Hn' & Hc' & l' & Hw').
  repeat split; [congruence | congruence |].
  exists (l ++ l'). rewrite Hw', Hw, app_assoc. reflexivity.
Qed.

Lemma steady_Write code text c : steady c (Write code text c).
Proof. repeat split. eexists. reflexivity. Qed.

(** A change of the greeting, the user, the envelope or the reader. *)
Lemma steady_same c c' :
  nbrErrors c' = nbrErrors c → conn c' = conn c → writer c' = writer c →
  steady c c'.
Proof.
  intros Hn Hc Hw. repeat split; [exact Hn | exact Hc |].
  exists []. rewrite app_nil_r. exact Hw.
Qed.

Lemma steady_reset c : steady c (reset c).
Proof.
  apply steady_same; unfold reset, logout; destruct (User c); reflexivity.
Qed.

Lemma steady_greet enhanced arg c : steady c (handleGreet s enhanced arg c).
Proof.
  unfold handleGreet.
  destruct (negb enhanced); destruct (Parse.parseHelloArgument arg);
    try apply steady_Write;
    (eapply steady_trans; [|apply steady_Write]);
    apply steady_same; reflexivity.
Qed.

Lemma steady_mail arg c : steady c (handleMail s arg c).
Proof.
  unfold handleMail, mailParams.
  repeat match goal with
         | |- steady _ (if ?b then _ else _) => destruct b
         | |- steady _ (match ?o with Some _ => _ | None => _ end) => destruct o
         | |- steady _ (match ?l with [] => _ | _ :: _ => _ end) => destruct l
         end;
    try apply steady_Write;
    (eapply steady_trans; [|apply steady_Write]);
    apply steady_same; reflexivity.
Qed.

Lemma steady_rcpt arg c : steady c (handleRcpt s arg c).
Proof.
  unfold handleRcpt.
  repeat match goal with
         | |- steady _ (if ?b then _ else _) => destruct b
         | |- steady _ (match ?o with Some _ => _ | None => _ end) => destruct o
         end;
    try apply steady_Write;
    (eapply steady_trans; [|apply steady_Write]);
    apply steady_same; reflexivity.
Qed.

Lemma steady_data arg c c' : handleData s arg c = Ok c' → steady c c'.
Proof.
  unfold handleData. intros H.
  destruct (negb (Strings.isEmpty arg));
    [injection H as <-; apply steady_Write|].
  destruct (readyForData c); [|injection H as <-; apply steady_Write].
  destruct (User _) as [u|]; [|discriminate H].
  destruct (Backend.Send u _) as [r unread].
  destruct (deliveryReply r _) as [d|] eqn:Hd; [|discriminate H].
  injection H as <-.
  eapply steady_trans; [|apply steady_reset].
  destruct (deliveryReply_Ok _ _ _ Hd) as [[-> _]|(code & message & -> & _)];
    (eapply steady_trans; [|apply steady_Write]);
    (eapply steady_trans; [apply steady_Write|]);
    apply steady_same; reflexivity.
Qed.

Lemma steady_authenticate mechanism ir c : steady c (authenticate s mechanism ir c).
Proof.
  unfold authenticate.
  destruct (auths s !! mechanism) as [newSasl|]; [|apply steady_Write].
  destruct (authLoop newSasl [] ir _ c) as [c1 left] eqn:Hloop.
  apply authLoop_effects in Hloop as (Hc & Hn & _ & Hw).
  assert (H1 : steady c c1) by (repeat split; assumption).
  destruct left; [|exact H1].
  destruct (User c1); [|exact H1].
  eapply steady_trans; [exact H1|].
  eapply steady_trans; [apply steady_Write|].
  apply steady_same; reflexivity.
Qed.

Lemma steady_auth arg c c' : handleAuth s arg c = Ok c' → steady c c'.
Proof.
  unfold handleAuth. intros H.
  destruct (Strings.isEmpty (helo c)); [injection H as <-; apply steady_Write|].
  destruct (Strings.isEmpty arg); [injection H as <-; apply steady_Write|].
  destruct (Strings.Fields arg) as [|part0 [|part1 rest]]; [discriminate H| |].
  - injection H as <-. apply steady_authenticate.
  - destruct (Base64.DecodeString part1); injection H as <-;
      [apply steady_authenticate | apply steady_refl].
Qed.

(** STARTTLS keeps the counter and the closed flag, only adds lines,
    and replaces the transport only from plaintext and with a TLS
    configuration. *)
Lemma starttls_effects c :
  nbrErrors (handleStartTLS s c) = nbrErrors c
  ∧ closed (conn (handleStartTLS s c)) = closed (conn c)
  ∧ (∃ lines, writer (handleStartTLS s c) = writer c ++ lines)
  ∧ (tls (conn c) = true → conn (handleStartTLS s c) = conn c)
  ∧ (tls (conn c) = false → tls (conn (handleStartTLS s c)) = true →
     TLSConfig s ≠ None).
Proof.
  unfold handleStartTLS, IsTLS.
  destruct (tls (conn c)) eqn:Htls.
  - split; [reflexivity|]. split; [reflexivity|].
    split; [eexists; reflexivity|]. split; [reflexivity | discriminate].
  - destruct (TLSConfig s) as [cfg|].
    + match goal with
      | |- context [reset ?x] =>
        destruct (steady_reset x) as (Hn & Hc & lines & Hw);
        rewrite Hn, Hc, Hw
      end.
      clear Hn Hc Hw. fields.
      destruct (peerHandshakes (conn c)); fields;
        (split; [reflexivity|]); (split; [reflexivity|]);
        (split; [rewrite <- ?app_assoc; eexists; reflexivity|]);
        (split; [discriminate | intros _ _; discriminate]).
    + split; [reflexivity|]. split; [reflexivity|].
      split; [eexists; reflexivity|]. split; [discriminate|].
      fields. rewrite Htls. discriminate.
Qed.

(** The verbs of the switch, seen from its default case. *)
Lemma known_verb cmd :
  oneOf cmd notImplemented = false → oneOf cmd ["HELO"; "EHLO"] = false →
  String.eqb cmd "MAIL" = false → String.eqb cmd "RCPT" = false →
  String.eqb cmd "VRFY" = false → String.eqb cmd "NOOP" = false →
  String.eqb cmd "RSET" = false → String.eqb cmd "DATA" = false →
  String.eqb cmd "QUIT" = false → String.eqb cmd "AUTH" = false →
  String.eqb cmd "STARTTLS" = false →
  oneOf cmd known = false.
Proof.
  unfold oneOf, known, notImplemented. rewrite existsb_app.
  intros -> H. cbn [existsb orb] in *.
  apply orb_false_elim in H as [-> H].
  apply orb_false_elim in H as [-> _].
  intros -> -> -> -> -> -> -> -> ->. reflexivity.
Qed.

(** Every verb but QUIT, STARTTLS and the unknown ones is steady. *)
Lemma steady_handle cmd arg c c' :
  cmd ≠ "QUIT" → cmd ≠ "STARTTLS" → (cmd = "" ∨ oneOf cmd known = true) →
  handle s cmd arg c = Ok c' → steady c c'.
Proof.
  unfold handle. intros Hquit Hstart Hknown H.
  destruct (Strings.isEmpty cmd) eqn:H0; [injection H as <-; apply steady_Write|].
  destruct (oneOf cmd notImplemented) eqn:H1;
    [injection H as <-; apply steady_Write|].
  destruct (oneOf cmd ["HELO"; "EHLO"]) eqn:H2;
    [injection H as <-; apply steady_greet|].
  destruct (String.eqb cmd "MAIL") eqn:H3; [injection H as <-; apply steady_mail|].
  destruct (String.eqb cmd "RCPT") eqn:H4; [injection H as <-; apply steady_rcpt|].
  destruct (String.eqb cmd "VRFY") eqn:H5; [injection H as <-; apply steady_Write|].
  destruct (String.eqb cmd "NOOP") eqn:H6; [injection H as <-; apply steady_Write|].
  destruct (String.eqb cmd "RSET") eqn:H7.
  { injection H as <-. eapply steady_trans; [apply steady_reset | apply steady_Write]. }
  destruct (String.eqb cmd "DATA") eqn:H8; [exact (steady_data arg c c' H)|].
  destruct (String.eqb cmd "QUIT") eqn:H9;
    [apply String.eqb_eq in H9; contradiction|].
  destruct (String.eqb cmd "AUTH") eqn:H10; [exact (steady_auth arg c c' H)|].
  destruct (String.eqb cmd "STARTTLS") eqn:H11;
    [apply String.eqb_eq in H11; contradiction|].
  exfalso. destruct Hknown as [->|Hknown]; [discriminate H0|].
  rewrite known_verb in Hknown by (assumption || reflexivity).
  discriminate Hknown.
Qed.

End Frames.

(** X2.  No command takes back what was written: the writer after a
    command is the writer before it followed by the lines of the
    command, and for every verb but AUTH there is at least one such
    line. *)
Theorem handle_appends (s : Server) (cmd arg : string) (c c' : Conn) :
  handle s cmd arg c = Ok c' →
  ∃ lines, writer c' = writer c ++ lines ∧ (cmd ≠ "AUTH" → lines ≠ []).
Proof.
  intros H. destruct (String.eqb_spec cmd "AUTH") as [->|Hne].
  - rewrite handle_AUTH in H.
    apply steady_auth in H as (_ & _ & lines & Hw).
    exists lines. split; [exact Hw | intros Hno; contradiction].
  - apply (handle_replies s cmd arg c c' Hne) in H as (lines & Hlines & Hw).
    exists lines. split; [exact Hw | intros _; exact Hlines].
Qed.

(** X3.  The counter of unknown commands is touched by no verb that the
    switch knows, and not by the empty line: errors of order or of
    syntax do not count, and RSET, DATA and STARTTLS do not set it
    back. *)
Theorem known_verbs_keep_counter (s : Server) (cmd arg : string) (c c' : Conn) :
  cmd = "" ∨ oneOf cmd known = true →
  handle s cmd arg c = Ok c' →
  nbrErrors c' = nbrErrors c.
Proof.
  intros Hknown H.
  destruct (String.eqb_spec cmd "QUIT") as [->|Hquit].
  { change (Ok (Close (Write "221" ["Goodnight and good luck"] c)) = Ok c') in H.
    injection H as <-. unfold Close, logout. fields.
    destruct (User c); reflexivity. }
  destruct (String.eqb_spec cmd "STARTTLS") as [->|Hstart].
  { rewrite handle_STARTTLS in H. injection H as <-.
    apply starttls_effects. }
  apply (steady_handle s cmd arg c c' Hquit Hstart Hknown H).
Qed.

(** X4.  A closed connection stays closed, and an open one is closed
    only by QUIT or by an unknown verb that takes the counter above
    3. *)
Theorem closed_only_by_quit_or_overflow (s : Server) (cmd arg : string)
    (c c' : Conn) :
  handle s cmd arg c = Ok c' →
  (closed (conn c) = true → closed (conn c') = true)
  ∧ (closed (conn c) = false → closed (conn c') = true →
     cmd = "QUIT"
     ∨ (cmd ≠ "" ∧ oneOf cmd known = false ∧ 3 < Int.incr (nbrErrors c))).
Proof.
  intros H.
  destruct (String.eqb_spec cmd "QUIT") as [->|Hquit].
  { change (Ok (Close (Write "221" ["Goodnight and good luck"] c)) = Ok c') in H.
    injection H as <-. split; [reflexivity | intros _ _; left; reflexivity]. }
  destruct (String.eqb_spec cmd "STARTTLS") as [->|Hstart].
  { rewrite handle_STARTTLS in H. injection H as <-.
    destruct (starttls_effects s c) as (_ & Hc & _).
    rewrite Hc. split; [auto | intros -> Habs; discriminate Habs]. }
  destruct (Strings.isEmpty cmd) eqn:Hempty.
  { apply isEmpty_true in Hempty.
    apply (steady_handle s cmd arg c c' Hquit Hstart (or_introl Hempty)) in H
      as (_ & Hc & _).
    rewrite Hc. split; [auto | intros -> Habs; discriminate Habs]. }
  apply isEmpty_false in Hempty.
  destruct (oneOf cmd known) eqn:Hknown.
  { apply (steady_handle s cmd arg c c' Hquit Hstart (or_intror Hknown)) in H
      as (_ & Hc & _).
    rewrite Hc. split; [auto | intros -> Habs; discriminate Habs]. }
  rewrite (handle_unknown s cmd arg c Hempty Hknown) in H. injection H as <-.
  destruct (Z.ltb_spec 3 (Int.incr (nbrErrors c))) as [Hover|Hunder].
  - rewrite (unrecognized_above cmd c Hover).
    split; [reflexivity | intros _ _; right; auto].
  - rewrite (unrecognized_below cmd c Hunder). fields.
    split; [auto | intros -> Habs; discriminate Habs].
Qed.

(** X5.  An encrypted transport stays encrypted, and a plaintext one is
    replaced only by STARTTLS on a server that has a TLS
    configuration. *)
Theorem tls_only_by_starttls (s : Server) (cmd arg : string) (c c' : Conn) :
  handle s cmd arg c = Ok c' →
  (tls (conn c) = true → tls (conn c') = true)
  ∧ (tls (conn c) = false → tls (conn c') = true →
     cmd = "STARTTLS" ∧ TLSConfig s ≠ None).
Proof.
  intros H.
  assert (Hsame : tls (conn c') = tls (conn c) →
            (tls (conn c) = true → tls (conn c') = true)
            ∧ (tls (conn c) = false → tls (conn c') = true →
               cmd = "STARTTLS" ∧ TLSConfig s ≠ None)).
  { intros ->. split; [auto | intros -> Habs; discriminate Habs]. }
  destruct (String.eqb_spec cmd "QUIT") as [->|Hquit].
  { change (Ok (Close (Write "221" ["Goodnight and good luck"] c)) = Ok c') in H.
    injection H as <-. apply Hsame. unfold Close, logout. fields.
    destruct (User c); reflexivity. }
  destruct (String.eqb_spec cmd "STARTTLS") as [->|Hstart].
  { rewrite handle_STARTTLS in H. injection H as <-.
    destruct (starttls_effects s c) as (_ & _ & _ & Hkeep & Hup).
    split; [intros Htls; rewrite (Hkeep Htls); exact Htls|].
    intros Hplain Hnow. split; [reflexivity | exact (Hup Hplain Hnow)]. }
  destruct (Strings.isEmpty cmd) eqn:Hempty.
  { apply isEmpty_true in Hempty.
    apply (steady_handle s cmd arg c c' Hquit Hstart (or_introl Hempty)) in H
      as (_ & Hc & _).
    apply Hsame. rewrite Hc. reflexivity. }
  apply isEmpty_false in Hempty.
  destruct (oneOf cmd known) eqn:Hknown.
  { apply (steady_handle s cmd arg c c' Hquit Hstart (or_intror Hknown)) in H
      as (_ & Hc & _).
    apply Hsame. rewrite Hc. reflexivity. }
  rewrite (handle_unknown s cmd arg c Hempty Hknown) in H. injection H as <-.
  apply Hsame. unfold unrecognized, logout. fields.
  destruct (3 <? _), (User c); reflexivity.
Qed.

(** ** Panics *)

(** The sample session is a reachable connection with a greeting, a
    user and two recipients. *)
Lemma sample_session :
  ∃ c, handleAll Sample.server Sample.session
         (greet Sample.server Sample.fresh) = Ok c
    ∧ reachable Sample.server c
    ∧ msg c = Some (Sample.envelope "a@b" ["x@y"; "z@y"])
    ∧ User c = Some Sample.user ∧ helo c = "client".
Proof.
  eexists. split; [vm_compute; reflexivity|].
  split; [|split; [reflexivity|split; reflexivity]].
  apply (reachable_handleAll Sample.server Sample.session
           (greet Sample.server Sample.fresh));
    [apply reach_greet | vm_compute; reflexivity].
Qed.

Lemma reachable_chain (s : Server) (c : Conn) : reachable s c → chain c.
Proof.
  induction 1 as [n input|c input _ IH|c cmd arg c' _ IH H].
  - split; intros H; contradiction.
  - revert IH. apply chain_same; reflexivity.
  - exact (chain_handle s cmd arg c c' H IH).
Qed.

(** X6.  On a reachable connection the handler panics in two cases and
    in no other.  AUTH, after a greeting, with an argument that is not
    empty but holds no field (white space only): [parts[0]] is out of
    range.  DATA in order, when [Send] returns an error that is not an
    [*smtpError]: the text of the error is asked of a nil pointer.  DATA
    never calls [Send] on a nil user. *)
Theorem panics_characterised (s : Server) (c : Conn) (cmd arg : string) :
  reachable s c →
  (handle s cmd arg c = Panic ↔
   (cmd = "AUTH" ∧ helo c ≠ "" ∧ arg ≠ "" ∧ Strings.Fields arg = [])
   ∨ (cmd = "DATA" ∧ arg = ""
      ∧ ∃ m u text unread,
          readyForData c = Some m ∧ User c = Some u
          ∧ Backend.Send u (setData (Some (newDataReader s c)) m)
            = (Backend.OtherError text, unread))).
Proof.
  intros Hreach. split.
  - unfold handle. intros H.
    repeat match type of H with
           | (if ?b then Ok _ else _) = _ => destruct b; [discriminate H|]
           end.
    destruct (String.eqb_spec cmd "DATA") as [->|_].
    { right. split; [reflexivity|]. unfold handleData in H.
      destruct (Strings.isEmpty arg) eqn:Harg; [|discriminate H].
      apply isEmpty_true in Harg. split; [exact Harg|].
      cbn [negb] in H.
      destruct (readyForData c) as [m|] eqn:Hready; [|discriminate H].
      change (newDataReader s (Write "354" _ c)) with (newDataReader s c) in H.
      change (User (setMsg _ (Write "354" _ c))) with (User c) in H.
      destruct (User c) as [u|] eqn:Hu.
      - destruct (Backend.Send u _) as [r unread] eqn:Hsend.
        destruct r as [|code message|text];
          [discriminate H | discriminate H |].
        exists m, u, text, unread. repeat split. exact Hsend.
      - exfalso. destruct (reachable_chain s c Hreach) as [Hchain _].
        apply Hchain; [|exact Hu].
        unfold readyForData in Hready. destruct (msg c); discriminate. }
    destruct (String.eqb cmd "QUIT"); [discriminate H|].
    destruct (String.eqb_spec cmd "AUTH") as [->|_].
    + left. split; [reflexivity|]. unfold handleAuth in H.
      destruct (Strings.isEmpty (helo c)) eqn:Hhelo; [discriminate H|].
      destruct (Strings.isEmpty arg) eqn:Harg; [discriminate H|].
      apply isEmpty_false in Hhelo, Harg.
      destruct (Strings.Fields arg) as [|part0 [|part1 rest]];
        [auto | discriminate H |].
      destruct (Base64.DecodeString part1); discriminate H.
    + destruct (String.eqb cmd "STARTTLS"); discriminate H.
  - intros [(-> & Hhelo & Harg & Hfields)
           |(-> & -> & m & u & text & unread & Hready & Hu & Hsend)].
    + rewrite handle_AUTH. unfold handleAuth.
      apply isEmpty_false in Hhelo, Harg. rewrite Hhelo, Harg, Hfields.
      reflexivity.
    + rewrite handle_DATA, (handleData_in_order s c m u _ unread Hready Hu Hsend).
      reflexivity.
Qed.

(** ** Invariants of the envelope *)

Section Envelope.

Variable s : Server.
Variable P : Message → Prop.

Hypothesis P_empty : P emptyMessage.
Hypothesis P_from : ∀ m from, P m → from ≠ "" → P (setFrom from m).
Hypothesis P_to : ∀ m arg,
  P m → From m ≠ "" →
  (MaxRecipients s <= 0 ∨ Z.of_nat (length (To m)) < MaxRecipients s) →
  P (setTo (To m ++ [Strings.Trim (Strings.drop 3 arg) "<> "]) m).

Lemma has_same c c' : msg c' = msg c → envelopeHas P c → envelopeHas P c'.
Proof. unfold envelopeHas. intros ->. auto. Qed.

Lemma has_none c : msg c = None → envelopeHas P c.
Proof. unfold envelopeHas. intros -> m H. discriminate H. Qed.

Lemma has_mail arg c : envelopeHas P c → envelopeHas P (handleMail s arg c).
Proof.
  intros Hc. unfold handleMail.
  destruct (Strings.isEmpty (helo c)); [revert Hc; apply has_same; reflexivity|].
  destruct (msg c) as [m|] eqn:Hm; [|revert Hc; apply has_same; reflexivity].
  destruct (MailRegexp.FindStringSubmatch arg)
    as [[|w [|from [|params [|]]]]|] eqn:Hre;
    try (revert Hc; apply has_same; reflexivity).
  assert (Hacc : envelopeHas P
            (Write "250" ["Roger, accepting mail from <" +:+ from +:+ ">"]
               (setMsg (Some (setFrom from m)) c))).
  { intros m' Hm'. fields. injection Hm' as <-.
    apply P_from; [exact (Hc m Hm) | exact (mail_from_not_empty arg w from params Hre)]. }
  unfold mailParams.
  repeat match goal with
         | |- envelopeHas _ (if ?b then _ else _) => destruct b
         | |- envelopeHas _ (match ?o with Some _ => _ | None => _ end) => destruct o
         end;
    try exact Hacc; revert Hc; apply has_same; reflexivity.
Qed.

Lemma has_rcpt arg c : envelopeHas P c → envelopeHas P (handleRcpt s arg c).
Proof.
  intros Hc. unfold handleRcpt.
  destruct (msg c) as [m|] eqn:Hm; [|revert Hc; apply has_same; reflexivity].
  destruct (Strings.isEmpty (From m)) eqn:Hfrom;
    [revert Hc; apply has_same; reflexivity|].
  apply isEmpty_false in Hfrom.
  destruct (_ || _); [revert Hc; apply has_same; reflexivity|].
  destruct (Z.ltb_spec 0 (MaxRecipients s));
    destruct (Z.leb_spec (MaxRecipients s) (Z.of_nat (length (To m))));
    cbn [andb]; try (revert Hc; apply has_same; reflexivity);
    intros m' Hm'; fields; injection Hm' as <-;
    (apply P_to; [exact (Hc m Hm) | exact Hfrom | lia]).
Qed.

Lemma has_authenticate mechanism ir c :
  envelopeHas P c → envelopeHas P (authenticate s mechanism ir c).
Proof.
  intros Hc. unfold authenticate.
  destruct (auths s !! mechanism) as [newSasl|];
    [|revert Hc; apply has_same; reflexivity].
  destruct (authLoop newSasl [] ir _ c) as [c1 left] eqn:Hloop.
  apply authLoop_frame in Hloop as (_ & Hm & _).
  assert (Hc1 : envelopeHas P c1) by (revert Hc; apply has_same; exact Hm).
  destruct left; [|exact Hc1].
  destruct (User c1); [|exact Hc1].
  intros m' Hm'. fields. injection Hm' as <-. exact P_empty.
Qed.

Lemma has_handle cmd arg c c' :
  handle s cmd arg c = Ok c' → envelopeHas P c → envelopeHas P c'.
Proof.
  unfold handle. intros H Hc.
  destruct (Strings.isEmpty cmd);
    [injection H as <-; revert Hc; apply has_same; reflexivity|].
  destruct (oneOf cmd notImplemented);
    [injection H as <-; revert Hc; apply has_same; reflexivity|].
  destruct (oneOf cmd ["HELO"; "EHLO"]).
  { injection H as <-. unfold handleGreet.
    destruct (negb _); destruct (Parse.parseHelloArgument arg);
      revert Hc; apply has_same; reflexivity. }
  destruct (String.eqb cmd "MAIL"); [injection H as <-; apply has_mail, Hc|].
  destruct (String.eqb cmd "RCPT"); [injection H as <-; apply has_rcpt, Hc|].
  destruct (String.eqb cmd "VRFY");
    [injection H as <-; revert Hc; apply has_same; reflexivity|].
  destruct (String.eqb cmd "NOOP");
    [injection H as <-; revert Hc; apply has_same; reflexivity|].
  destruct (String.eqb cmd "RSET").
  { injection H as <-. apply has_none.
    exact (proj1 (proj2 (proj2 (reset_clears c)))). }
  destruct (String.eqb cmd "DATA").
  { unfold handleData in H.
    destruct (negb (Strings.isEmpty arg));
      [injection H as <-; revert Hc; apply has_same; reflexivity|].
    destruct (readyForData c);
      [|injection H as <-; revert Hc; apply has_same; reflexivity].
    destruct (User _) as [u|]; [|discriminate H].
    destruct (Backend.Send u _) as [r unread].
    destruct (deliveryReply r _) as [d|]; [|discriminate H].
    injection H as <-. apply has_none, reset_clears. }
  destruct (String.eqb cmd "QUIT").
  { injection H as <-. revert Hc. apply has_same.
    unfold Close, logout. fields. destruct (User c); reflexivity. }
  destruct (String.eqb cmd "AUTH").
  { unfold handleAuth in H.
    destruct (Strings.isEmpty (helo c));
      [injection H as <-; revert Hc; apply has_same; reflexivity|].
    destruct (Strings.isEmpty arg);
      [injection H as <-; revert Hc; apply has_same; reflexivity|].
    destruct (Strings.Fields arg) as [|part0 [|part1 rest]]; [discriminate H| |].
    - injection H as <-. apply has_authenticate, Hc.
    - destruct (Base64.DecodeString part1); injection H as <-;
        [apply has_authenticate|]; exact Hc. }
  destruct (String.eqb cmd "STARTTLS").
  { injection H as <-. unfold handleStartTLS.
    destruct (IsTLS c); [revert Hc; apply has_same; reflexivity|].
    destruct (TLSConfig s); [apply has_none, reset_clears|].
    revert Hc; apply has_same; reflexivity. }
  injection H as <-. revert Hc. apply has_same.
  unfold unrecognized, logout. fields.
  destruct (3 <? _), (User c); reflexivity.
Qed.

(** What holds of the empty envelope and is kept by the assignment of a
    sender and by the append of a recipient holds of every envelope of
    a reachable connection. *)
Lemma reachable_envelope c : reachable s c → envelopeHas P c.
Proof.
  induction 1 as [n input|c input _ IH|c cmd arg c' _ IH H].
  - apply has_none. reflexivity.
  - revert IH. apply has_same. reflexivity.
  - exact (has_handle cmd arg c c' H IH).
Qed.

End Envelope.

Section Trim.

Variable cutset : string.

Lemma headIn_TrimLeft str : headIn cutset (Strings.TrimLeft str cutset) = false.
Proof.
  induction str as [|a str IH]; [reflexivity|]. cbn [Strings.TrimLeft].
  destruct (Strings.mem a cutset) eqn:Ha; [exact IH | exact Ha].
Qed.

Lemma headIn_TrimRight str :
  headIn cutset str = false → headIn cutset (Strings.TrimRight str cutset) = false.
Proof.
  destruct str as [|a str]; [reflexivity|]. cbn [headIn Strings.TrimRight].
  intros Ha. rewrite Ha. destruct (Strings.TrimRight str cutset); exact Ha.
Qed.

Lemma lastIn_TrimRight str : lastIn cutset (Strings.TrimRight str cutset) = false.
Proof.
  induction str as [|a str IH]; [reflexivity|]. cbn [Strings.TrimRight].
  destruct (Strings.TrimRight str cutset) as [|b t].
  - destruct (Strings.mem a cutset) eqn:Ha; [reflexivity | exact Ha].
  - exact IH.
Qed.

(** What [strings.Trim] returns neither starts nor ends with a byte of
    the cutset. *)
Lemma Trim_edges str :
  headIn cutset (Strings.Trim str cutset) = false
  ∧ lastIn cutset (Strings.Trim str cutset) = false.
Proof.
  unfold Strings.Trim. split.
  - apply headIn_TrimRight, headIn_TrimLeft.
  - apply lastIn_TrimRight.
Qed.

End Trim.

(** X7.  On a reachable connection of a server with a limit of
    recipients, the envelope never holds more recipients than the
    limit. *)
Theorem recipients_within_limit (s : Server) (c : Conn) (m : Message) :
  reachable s c → msg c = Some m → 0 < MaxRecipients s →
  Z.of_nat (length (To m)) <= MaxRecipients s.
Proof.
  intros Hreach Hm.
  refine (reachable_envelope s
            (λ m, 0 < MaxRecipients s → Z.of_nat (length (To m)) <= MaxRecipients s)
            _ _ _ c Hreach m Hm).
  - cbn. lia.
  - intros m0 from H _. exact H.
  - intros m0 arg H _ Hroom Hpos. cbn [setTo To].
    rewrite length_app. cbn [length]. lia.
Qed.

(** X8.  On a reachable connection no recipient of the envelope starts
    or ends with an angle bracket or a space: [handleRcpt] stores what
    the trim leaves. *)
Theorem recipients_trimmed (s : Server) (c : Conn) (m : Message) :
  reachable s c → msg c = Some m → Forall trimmed (To m).
Proof.
  intros Hreach Hm.
  refine (reachable_envelope s (λ m, Forall trimmed (To m)) _ _ _ c Hreach m Hm).
  - constructor.
  - intros m0 from H _. exact H.
  - intros m0 arg H _ _. cbn [setTo To]. apply Forall_app. split; [exact H|].
    constructor; [|constructor]. apply Trim_edges.
Qed.

(** X9.  On a reachable connection an envelope with a recipient has a
    sender: RCPT is refused until MAIL has set one, and MAIL never sets
    an empty one. *)
Theorem recipients_need_sender (s : Server) (c : Conn) (m : Message) :
  reachable s c → msg c = Some m → To m ≠ [] → From m ≠ "".
Proof.
  intros Hreach Hm.
  refine (reachable_envelope s (λ m, To m ≠ [] → From m ≠ "") _ _ _ c Hreach m Hm).
  - intros H. contradiction.
  - intros m0 from _ Hfrom _. exact Hfrom.
  - intros m0 arg _ Hfrom _ _. exact Hfrom.
Qed.

(** ** Commands out of order and arguments of the wrong form *)

(** X10.  MAIL before a greeting or before an authentication, RCPT
    before a sender, DATA before a recipient and AUTH before a greeting
    get a reply 502, and nothing but the writer changes: nothing is
    read and the backend is not called. *)
Theorem out_of_order_502 (s : Server) (cmd arg : string) (c : Conn) :
  outOfOrder cmd arg c →
  ∃ text, handle s cmd arg c = Ok (Write "502" [text] c).
Proof.
  intros [(-> & Hstate)|[(-> & Hstate)|[(-> & -> & Hstate)|(-> & Hstate)]]].
  - rewrite handle_MAIL. unfold handleMail.
    destruct (Strings.isEmpty (helo c)) eqn:Hhelo; [eexists; reflexivity|].
    apply isEmpty_false in Hhelo.
    destruct Hstate as [Hstate|Hstate]; [contradiction|].
    rewrite Hstate. eexists. reflexivity.
  - rewrite handle_RCPT. unfold handleRcpt. unfold missingFrom in Hstate.
    destruct (msg c) as [m|]; [rewrite Hstate|]; eexists; reflexivity.
  - rewrite handle_DATA. unfold handleData. cbn [Strings.isEmpty negb].
    rewrite Hstate. eexists. reflexivity.
  - rewrite handle_AUTH. unfold handleAuth.
    apply isEmpty_true in Hstate. rewrite Hstate. eexists. reflexivity.
Qed.

(** X11.  A greeting without a domain, a MAIL argument that the
    expression does not match, a RCPT argument shorter than four bytes
    or without the prefix TO:, and a DATA command with an argument get
    a reply 501, and nothing but the writer changes. *)
Theorem syntax_error_501 (s : Server) (cmd arg : string) (c : Conn) :
  badSyntax cmd arg c →
  ∃ text, handle s cmd arg c = Ok (Write "501" [text] c).
Proof.
  intros [(Hcmd & Hparse)|[(-> & Hhelo & Hmsg & Hre)
                          |[(-> & Hfrom & Hform)|(-> & Harg)]]].
  - destruct Hcmd as [->| ->];
      [change (handle s "HELO" arg c) with (Ok (handleGreet s false arg c))
      |change (handle s "EHLO" arg c) with (Ok (handleGreet s true arg c))];
      unfold handleGreet; cbn [negb]; rewrite Hparse; eexists; reflexivity.
  - rewrite handle_MAIL. unfold handleMail.
    apply isEmpty_false in Hhelo. rewrite Hhelo.
    destruct (msg c) as [m|]; [|contradiction].
    rewrite Hre. eexists. reflexivity.
  - rewrite handle_RCPT. unfold handleRcpt. unfold missingFrom in Hfrom.
    destruct (msg c) as [m|]; [|discriminate Hfrom].
    rewrite Hfrom, Hform. eexists. reflexivity.
  - rewrite handle_DATA. unfold handleData.
    apply isEmpty_false in Harg. rewrite Harg. eexists. reflexivity.
Qed.

(** ** Addresses that are accepted *)

Section MailMatch.

Import Regexp.

Lemma take_length_append x y : Strings.take (String.length x) (x +:+ y) = x.
Proof.
  induction x as [|a x IH]; [destruct y; reflexivity|].
  rewrite append_cons. cbn [String.length Strings.take]. rewrite IH. reflexivity.
Qed.

Lemma take_length x : Strings.take (String.length x) x = x.
Proof.
  induction x as [|a x IH]; [reflexivity|].
  cbn [String.length Strings.take]. rewrite IH. reflexivity.
Qed.

Lemma length_append_nat x y :
  String.length (x +:+ y) = (String.length x + String.length y)%nat.
Proof.
  induction x as [|a x IH]; [reflexivity|].
  rewrite append_cons. cbn [String.length]. rewrite IH. reflexivity.
Qed.

Lemma plainByte_tests a :
  plainByte a = true →
  Bytes.isByte 92 a = false ∧ MailRegexp.notByte MailRegexp.gt a = true.
Proof.
  unfold plainByte, MailRegexp.notByte, MailRegexp.gt. intros H.
  apply andb_true_iff in H as [H1 H2].
  apply negb_true_iff in H2. auto.
Qed.

Lemma addressByte_plain a i str cs (k : cont) :
  plainByte a = true → run addressByte i (String a str) cs k = k (S i) str cs.
Proof.
  intros Ha. apply plainByte_tests in Ha as [Hbs Hgt].
  unfold addressByte. cbn [run]. rewrite Hbs, Hgt. reflexivity.
Qed.

Lemma addressByte_closing i rest cs (k : cont) :
  run addressByte i (closing rest) cs k = None.
Proof. reflexivity. Qed.

(** Rounds of the address class on plain bytes, until the closing
    bracket stops the repetition. *)
Lemma rounds_plain t : ∀ fuel i rest cs (k : cont) res,
  allBytes plainByte t = true → (String.length t <= fuel)%nat →
  k (i + String.length t)%nat (closing rest) cs = Some res →
  rounds (run addressByte) k fuel i (t +:+ closing rest) cs = Some res.
Proof.
  induction t as [|a t IH]; intros fuel i rest cs k res Hplain Hfuel Hk.
  - rewrite append_empty. cbn [String.length] in Hk. rewrite Nat.add_0_r in Hk.
    destruct fuel as [|fuel]; [exact Hk|].
    cbn [rounds]. rewrite addressByte_closing. exact Hk.
  - cbn [allBytes] in Hplain. apply andb_true_iff in Hplain as [Ha Hplain].
    destruct fuel as [|fuel]; [cbn [String.length] in Hfuel; lia|].
    rewrite append_cons. cbn [rounds]. rewrite (addressByte_plain a _ _ _ _ Ha).
    replace (i <? S i)%nat with true by (symmetry; apply Nat.ltb_lt; lia).
    rewrite (IH fuel (S i) rest cs k res Hplain).
    + reflexivity.
    + cbn [String.length] in Hfuel. lia.
    + cbn [String.length] in Hk. rewrite <- Hk. f_equal. lia.
Qed.

Lemma unquoted_plain addr i rest cs (k : cont) res :
  addr ≠ "" → allBytes plainByte addr = true →
  k (i + String.length addr)%nat (closing rest) cs = Some res →
  run MailRegexp.unquoted i (addr +:+ closing rest) cs k = Some res.
Proof.
  intros Hne Hplain Hk. destruct addr as [|a addr]; [contradiction|].
  cbn [allBytes] in Hplain. apply andb_true_iff in Hplain as [Ha Hplain].
  rewrite append_cons.
  change MailRegexp.unquoted with (Cat addressByte (Star addressByte)).
  cbn [run]. rewrite (addressByte_plain a _ _ _ _ Ha).
  apply rounds_plain; [exact Hplain | |].
  - rewrite length_append_nat. lia.
  - cbn [String.length] in Hk. rewrite <- Hk. f_equal. lia.
Qed.

(** The expression of MAIL on FROM:<addr> for a plain address: the whole
    argument, the address, and no parameters. *)
Lemma mail_plain_address addr :
  addr ≠ "" → allBytes plainByte addr = true →
  MailRegexp.FindStringSubmatch ("FROM:<" +:+ addr +:+ ">") =
    Some ["FROM:<" +:+ addr +:+ ">"; addr; ""].
Proof.
  intros Hne Hplain.
  set (arg := "FROM:<" +:+ addr +:+ ">").
  assert (Hrun : run MailRegexp.expr 0 arg [] (accept 0 arg) =
                 Some [(0%nat, arg); (1%nat, addr)]).
  { unfold MailRegexp.expr.
    change (run (Cat (Group 1 (Alt MailRegexp.unquoted MailRegexp.quoted))
                 (Cat (Byte (Bytes.isByte MailRegexp.gt))
                 (Cat (Quest (Group 2 (Cat (Byte (Bytes.isByte 32))
                                           (Plus MailRegexp.paramRune))))
                      EndText)))
              6 (addr +:+ closing "") [] (accept 0 arg) =
            Some [(0%nat, arg); (1%nat, addr)]).
    cbn [run].
    rewrite (unquoted_plain addr 6 "" [] _ [(0%nat, arg); (1%nat, addr)] Hne Hplain);
      [reflexivity|].
    cbn [closing].
    replace (Bytes.isByte MailRegexp.gt (ascii_of_N 62)) with true by reflexivity.
    unfold Quest. cbn [run]. unfold accept.
    replace (6 + String.length addr - 6)%nat with (String.length addr) by lia.
    rewrite take_length_append.
    replace (S (6 + String.length addr) - 0)%nat with (String.length arg).
    - rewrite take_length. reflexivity.
    - unfold arg. rewrite !length_append_nat. cbn [String.length]. lia. }
  unfold MailRegexp.FindStringSubmatch, FindStringSubmatch.
  replace (search MailRegexp.expr 0 arg) with (Some [(0%nat, arg); (1%nat, addr)]).
  - reflexivity.
  - symmetry. destruct arg eqn:Harg; cbn [search]; rewrite Hrun; reflexivity.
Qed.

End MailMatch.

(** X12.  After a greeting and an authentication, MAIL FROM:<addr> with
    an address that is not empty and has no closing bracket and no
    backslash is accepted: the reply is 250 and the address becomes the
    sender, while the recipients that the envelope already holds are
    kept. *)
Theorem mail_plain_address_accepted (s : Server) (c : Conn) (m : Message)
    (addr : string) :
  helo c ≠ "" → msg c = Some m →
  addr ≠ "" → allBytes plainByte addr = true →
  handle s "MAIL" ("FROM:<" +:+ addr +:+ ">") c =
    Ok (Write "250" ["Roger, accepting mail from <" +:+ addr +:+ ">"]
          (setMsg (Some {| From := addr; To := To m; Data := Data m |}) c)).
Proof.
  intros Hhelo Hm Hne Hplain.
  rewrite handle_MAIL. unfold handleMail.
  apply isEmpty_false in Hhelo. rewrite Hhelo, Hm.
  rewrite (mail_plain_address addr Hne Hplain). reflexivity.
Qed.

Section RcptTrim.

Lemma TrimRight_kept addr :
  allBytes keptByte addr = true →
  Strings.TrimRight (addr +:+ closing "") "<> " = addr.
Proof.
  induction addr as [|a addr IH]; intros Hkept; [reflexivity|].
  cbn [allBytes] in Hkept. apply andb_true_iff in Hkept as [Ha Hkept].
  rewrite append_cons. cbn [Strings.TrimRight]. rewrite (IH Hkept).
  unfold keptByte in Ha. apply negb_true_iff in Ha.
  destruct addr; [rewrite Ha|]; reflexivity.
Qed.

(** The trim of <addr> gives the address back when the address has no
    angle bracket and no space. *)
Lemma Trim_bracketed addr :
  allBytes keptByte addr = true →
  Strings.Trim ("<" +:+ addr +:+ ">") "<> " = addr.
Proof.
  intros Hkept. unfold Strings.Trim.
  replace (Strings.TrimLeft ("<" +:+ addr +:+ ">") "<> ")
    with (Strings.TrimLeft (addr +:+ closing "") "<> ") by reflexivity.
  destruct addr as [|a addr]; [reflexivity|].
  rewrite append_cons. cbn [Strings.TrimLeft].
  cbn [allBytes] in Hkept. apply andb_true_iff in Hkept as [Ha Hkept].
  assert (Ha' := Ha). unfold keptByte in Ha'. apply negb_true_iff in Ha'.
  rewrite Ha'. rewrite <- append_cons. apply TrimRight_kept.
  cbn [allBytes]. rewrite Ha, Hkept. reflexivity.
Qed.

End RcptTrim.

(** X13.  With a sender set and room for a recipient, RCPT TO:<addr>
    with an address free of angle brackets and spaces is accepted: the
    reply is 250 and exactly the address is appended behind the
    recipients already there, which may hold it already; the sender is
    kept. *)
Theorem rcpt_bracketed_address (s : Server) (c : Conn) (m : Message)
    (addr : string) :
  msg c = Some m → From m ≠ "" →
  allBytes keptByte addr = true →
  (MaxRecipients s <= 0 ∨ Z.of_nat (length (To m)) < MaxRecipients s) →
  handle s "RCPT" ("TO:<" +:+ addr +:+ ">") c =
    Ok (Write "250" ["I'll make sure <" +:+ addr +:+ "> gets this"]
          (setMsg (Some {| From := From m; To := To m ++ [addr];
                           Data := Data m |}) c)).
Proof.
  intros Hm Hfrom Hkept Hroom.
  assert (Hform : wellFormedTo ("TO:<" +:+ addr +:+ ">")).
  { split; [|reflexivity].
    change ("TO:<" +:+ addr +:+ ">")
      with (String "T" (String "O" (String ":" (String "<" (addr +:+ ">"))))).
    rewrite !len_cons. pose proof (len_nonneg (addr +:+ ">")). lia. }
  rewrite handle_RCPT, (rcpt_below_limit s c m _ Hm Hfrom Hform Hroom).
  replace (Strings.drop 3 ("TO:<" +:+ addr +:+ ">"))
    with ("<" +:+ addr +:+ ">") by reflexivity.
  rewrite (Trim_bracketed addr Hkept). reflexivity.
Qed.

(** ** Delivery *)

Lemma reader_reset c : reader (reset c) = reader c.
Proof. unfold reset, logout. destruct (User c); reflexivity. Qed.

(** DATA in order when [Send] returns nil or an [*smtpError]: the state
    that [reset] is called on. *)
Lemma data_replied (s : Server) (c : Conn) (m : Message) (u : Backend.User)
    (result : Backend.SendResult) (unread code text : string) :
  msg c = Some m → From m ≠ "" → To m ≠ [] → User c = Some u →
  Backend.Send u (setData (Some (newDataReader s c)) m) = (result, unread) →
  result = Backend.Sent ∧ code = "250" ∧ text = "Ok: queued"
  ∨ result = Backend.SmtpError code text →
  ∃ d, handle s "DATA" "" c = Ok (reset d)
    ∧ writer d =
        writer c
        ++ replyLines "354" ["Go ahead. End your data with <CR><LF>.<CR><LF>"]
        ++ replyLines code [text]
    ∧ reader d = unread.
Proof.
  intros Hm Hfrom Hto Hu Hsend Hresult.
  rewrite handle_DATA,
    (handleData_in_order s c m u result unread
       (readyForData_some c m Hm Hfrom Hto) Hu Hsend).
  destruct Hresult as [(-> & -> & ->)| ->]; cbn [deliveryReply];
    eexists; (split; [reflexivity|]);
    unfold Write, setWriter, setReader, setMsg; cbn [writer reader];
    rewrite <- ?app_assoc; split; reflexivity.
Qed.

(** X14.  DATA in order replies 354 and calls [Send] with the sender and
    the recipients of the envelope and a body reader over the input of
    the connection, under the size limit of the server.  When [Send]
    returns nil the reply is 250; when it returns an [*smtpError] the
    reply has the code and the message of that error; in both cases the
    reader of the connection then holds what [Send] has left unread.
    When [Send] returns any other error the handler panics. *)
Theorem data_delivery (s : Server) (c : Conn) (m : Message) (u : Backend.User)
    (result : Backend.SendResult) (unread : string) :
  msg c = Some m → From m ≠ "" → To m ≠ [] → User c = Some u →
  Backend.Send u
    {| From := From m; To := To m;
       Data := Some {| DataReader.limit := MaxMessageBytes s;
                       DataReader.input := reader c |} |} = (result, unread) →
  match result with
  | Backend.Sent =>
    ∃ c', handle s "DATA" "" c = Ok c'
      ∧ writer c' =
          writer c
          ++ replyLines "354" ["Go ahead. End your data with <CR><LF>.<CR><LF>"]
          ++ replyLines "250" ["Ok: queued"]
      ∧ reader c' = unread
  | Backend.SmtpError code message =>
    ∃ c', handle s "DATA" "" c = Ok c'
      ∧ writer c' =
          writer c
          ++ replyLines "354" ["Go ahead. End your data with <CR><LF>.<CR><LF>"]
          ++ replyLines code [message]
      ∧ reader c' = unread
  | Backend.OtherError _ => handle s "DATA" "" c = Panic
  end.
Proof.
  intros Hm Hfrom Hto Hu Hsend.
  change {| From := From m; To := To m; Data := _ |}
    with (setData (Some (newDataReader s c)) m) in Hsend.
  destruct result as [|code message|text].
  - destruct (data_replied s c m u _ unread "250" "Ok: queued"
                Hm Hfrom Hto Hu Hsend)
      as (d & Hrun & Hw & Hr); [left; repeat split|].
    exists (reset d). rewrite writer_reset, reader_reset. auto.
  - destruct (data_replied s c m u _ unread code message
                Hm Hfrom Hto Hu Hsend)
      as (d & Hrun & Hw & Hr); [right; reflexivity|].
    exists (reset d). rewrite writer_reset, reader_reset. auto.
  - rewrite handle_DATA,
      (handleData_in_order s c m u _ unread
         (readyForData_some c m Hm Hfrom Hto) Hu Hsend).
    reflexivity.
Qed.

(** X15.  After a DATA command that completes, with the reply 250 or
    with the reply of an [*smtpError] of the backend, the session starts
    over: a MAIL command that follows gets 502 "Please introduce
    yourself first." until a new greeting is made. *)
Theorem mail_after_data_refused (s : Server) (c : Conn) (m : Message)
    (u : Backend.User) (result : Backend.SendResult) (unread arg : string) :
  msg c = Some m → From m ≠ "" → To m ≠ [] → User c = Some u →
  Backend.Send u (setData (Some (newDataReader s c)) m) = (result, unread) →
  (∀ text, result ≠ Backend.OtherError text) →
  ∃ c', handle s "DATA" "" c = Ok c'
    ∧ handle s "MAIL" arg c' =
        Ok (Write "502" ["Please introduce yourself first."] c').
Proof.
  intros Hm Hfrom Hto Hu Hsend Hresult.
  rewrite handle_DATA,
    (handleData_in_order s c m u result unread
       (readyForData_some c m Hm Hfrom Hto) Hu Hsend).
  destruct (deliveryReply result _) as [d|] eqn:Hd;
    [|destruct result; try discriminate Hd; exfalso; eapply Hresult; reflexivity].
  exists (reset d). split; [reflexivity|].
  rewrite handle_MAIL. unfold handleMail.
  rewrite (proj1 (reset_clears d)). reflexivity.
Qed.

(** ** The upgrade to TLS *)

(** X16.  STARTTLS on a plaintext connection of a server with a TLS
    configuration replies 220, replaces the transport by the TLS one
    whether the handshake succeeds or not (a failed handshake adds the
    reply 550 and is kept by the transport), and resets the session:
    greeting, user and envelope are cleared, so that a MAIL command that
    follows gets 502. *)
Theorem starttls_upgrade_resets (s : Server) (c : Conn) (cfg : unit)
    (arg arg' : string) :
  TLSConfig s = Some cfg → tls (conn c) = false →
  ∃ c', handle s "STARTTLS" arg c = Ok c'
    ∧ tls (conn c') = true
    ∧ handshakeFailed (conn c') = negb (peerHandshakes (conn c))
    ∧ closed (conn c') = closed (conn c)
    ∧ writer c' =
        writer c ++ replyLines "220" ["Ready to start TLS"]
        ++ (if peerHandshakes (conn c) then []
            else replyLines "550" ["Handshake error"])
    ∧ helo c' = "" ∧ User c' = None ∧ msg c' = None
    ∧ handle s "MAIL" arg' c' =
        Ok (Write "502" ["Please introduce yourself first."] c').
Proof.
  intros Hcfg Hplain. rewrite handle_STARTTLS. unfold handleStartTLS, IsTLS.
  rewrite Hplain, Hcfg. eexists. split; [reflexivity|].
  match goal with
  | |- context [reset ?x] =>
    destruct (reset_clears x) as (Hh & HU & Hm & Hw & Hc);
    rewrite handle_MAIL; unfold handleMail; rewrite Hh, HU, Hm, Hw, Hc
  end.
  clear Hh HU Hm Hw Hc.
  destruct (peerHandshakes (conn c)) eqn:Hpeer;
    cbn [conn setConn Write setWriter writer tls handshakeFailed closed negb
         Strings.isEmpty];
    rewrite ?Hpeer, ?app_nil_r, <- ?app_assoc;
    cbn [conn setConn Write setWriter writer tls handshakeFailed closed negb];
    rewrite <- ?app_assoc;
    repeat (split; [reflexivity|]); reflexivity.
Qed.

(** ** Authentication *)

Section AuthSteps.

Variable s : Server.

Lemma handleAuth_response c arg mech rest :
  helo c ≠ "" → Strings.Fields arg = mech :: rest →
  handleAuth s arg c =
    match initialResponse rest with
    | Some ir => Ok (authenticate s (Strings.ToUpper mech) ir c)
    | None => Ok c
    end.
Proof.
  intros Hhelo Hf. rewrite (handleAuth_fields s c arg mech rest Hhelo Hf).
  destruct rest as [|part1 rest]; [reflexivity|]. cbn [initialResponse].
  destruct (Base64.DecodeString part1); reflexivity.
Qed.

(** The loop left by [break] at the step it is entered with. *)
Lemma authLoop_done sasl fed response toks c :
  Sasl.err (sasl (fed ++ [response])) = None →
  Sasl.done (sasl (fed ++ [response])) = true →
  authLoop sasl fed response toks c =
    (match Sasl.login (sasl (fed ++ [response])) with
     | Some u => setUser (Some u) c
     | None => c
     end, true).
Proof.
  intros Herr Hdone. destruct toks as [|[line rest] toks];
    cbn [authLoop]; rewrite Herr, Hdone; reflexivity.
Qed.

(** The loop left by the error of the step it is entered with. *)
Lemma authLoop_err sasl fed response toks c e :
  Sasl.err (sasl (fed ++ [response])) = Some e →
  authLoop sasl fed response toks c =
    (Write "454" [e]
       match Sasl.login (sasl (fed ++ [response])) with
       | Some u => setUser (Some u) c
       | None => c
       end, false).
Proof.
  intros Herr. destruct toks as [|[line rest] toks];
    cbn [authLoop]; rewrite Herr; reflexivity.
Qed.

(** A mechanism that is done at its first step, on a connection that
    has a user when the loop is left. *)
Lemma authenticate_done mechanism sasl ir c u :
  auths s !! mechanism = Some sasl →
  Sasl.err (sasl [ir]) = None → Sasl.done (sasl [ir]) = true →
  Sasl.login (sasl [ir]) = Some u
  ∨ (Sasl.login (sasl [ir]) = None ∧ User c = Some u) →
  let c' := authenticate s mechanism ir c in
  writer c' = writer c ++ replyLines "235" ["Authentication succeeded"]
  ∧ User c' = Some u ∧ msg c' = Some emptyMessage
  ∧ helo c' = helo c ∧ reader c' = reader c.
Proof.
  intros Hmech Herr Hdone Hlogin c'. subst c'. unfold authenticate.
  destruct (auths s !! mechanism) as [sasl'|] eqn:E; [|discriminate].
  injection Hmech as ->.
  rewrite (authLoop_done sasl [] ir _ c Herr Hdone).
  cbn [app]. destruct Hlogin as [->|[-> Hu]].
  - cbn [User setUser]. repeat split.
  - rewrite Hu. repeat split. exact Hu.
Qed.

Lemma append_empty_r (x : string) : x +:+ "" = x.
Proof.
  induction x as [|a x IH]; [reflexivity|]. rewrite append_cons, IH. reflexivity.
Qed.

(** The scanner on a line that ends with a line feed. *)
Lemma tokens_line line : ∀ cur rest,
  oneLine line = true → Scanner.fits (cur +:+ line) = true →
  Scanner.tokens cur (line +:+ String Bytes.LF rest) =
    (Scanner.dropCR (cur +:+ line), rest) :: Scanner.tokens "" rest.
Proof.
  induction line as [|a line IH]; intros cur rest Hline Hfits.
  - rewrite append_empty_r in *. rewrite append_empty. cbn [Scanner.tokens].
    replace (Bytes.isByte 10 Bytes.LF) with true by reflexivity.
    rewrite Hfits. reflexivity.
  - unfold oneLine in Hline. cbn [allBytes] in Hline.
    apply andb_true_iff in Hline as [Ha Hline]. apply negb_true_iff in Ha.
    rewrite append_cons. cbn [Scanner.tokens]. rewrite Ha.
    replace (cur +:+ String a line) with ((cur +:+ String a "") +:+ line) in *
      by (rewrite append_assoc; reflexivity).
    apply IH; assumption.
Qed.

Lemma dropCR_CR x : Scanner.dropCR (x +:+ String Bytes.CR "") = x.
Proof.
  induction x as [|a x IH]; [reflexivity|].
  rewrite append_cons. cbn [Scanner.dropCR]. rewrite IH.
  destruct x; reflexivity.
Qed.

Lemma oneLine_CR x : oneLine x = true → oneLine (x +:+ String Bytes.CR "") = true.
Proof.
  unfold oneLine. induction x as [|a x IH]; [reflexivity|].
  rewrite append_cons. cbn [allBytes]. intros H.
  apply andb_true_iff in H as [-> H]. exact (IH H).
Qed.

(** The scanner on a line that the client ends with CR LF. *)
Lemma scanner_first_line line rest :
  oneLine line = true → Scanner.fits (line +:+ String Bytes.CR "") = true →
  Scanner.NewScanner (line +:+ CRLF +:+ rest) =
    (line, rest) :: Scanner.NewScanner rest.
Proof.
  intros Hline Hfits. unfold Scanner.NewScanner.
  replace (line +:+ CRLF +:+ rest)
    with ((line +:+ String Bytes.CR "") +:+ String Bytes.LF rest)
    by (rewrite append_assoc; reflexivity).
  rewrite (tokens_line _ "" rest (oneLine_CR line Hline));
    rewrite append_empty; [|exact Hfits].
  rewrite dropCR_CR. reflexivity.
Qed.

End AuthSteps.

(** X17.  After a greeting, an AUTH command whose initial response is
    absent or decodes, for a mechanism of the server that is done
    without error at its first step, gets the reply 235 and a new empty
    envelope whenever the connection then has a user: the user that the
    mechanism stored, or the one that was there already.  A sender and
    recipients gathered before are dropped. *)
Theorem auth_done_at_once (s : Server) (c : Conn) (arg mech : string)
    (rest : list string) (ir : option string) (sasl : Sasl.Server)
    (u : Backend.User) :
  helo c ≠ "" → Strings.Fields arg = mech :: rest →
  initialResponse rest = Some ir →
  auths s !! Strings.ToUpper mech = Some sasl →
  Sasl.err (sasl [ir]) = None → Sasl.done (sasl [ir]) = true →
  Sasl.login (sasl [ir]) = Some u
  ∨ (Sasl.login (sasl [ir]) = None ∧ User c = Some u) →
  ∃ c', handle s "AUTH" arg c = Ok c'
    ∧ writer c' = writer c ++ replyLines "235" ["Authentication succeeded"]
    ∧ User c' = Some u ∧ msg c' = Some emptyMessage
    ∧ helo c' = helo c ∧ reader c' = reader c.
Proof.
  intros Hhelo Hf Hir Hmech Herr Hdone Hlogin.
  rewrite handle_AUTH, (handleAuth_response s c arg mech rest Hhelo Hf), Hir.
  eexists. split; [reflexivity|].
  exact (authenticate_done s _ sasl ir c u Hmech Herr Hdone Hlogin).
Qed.

(** X18.  After a greeting, an AUTH command whose mechanism returns an
    error at its first step gets the reply 454 with the text of the
    error; the greeting and the envelope are left as they were and no
    input is read. *)
Theorem auth_error_at_once (s : Server) (c : Conn) (arg mech : string)
    (rest : list string) (ir : option string) (sasl : Sasl.Server)
    (e : string) :
  helo c ≠ "" → Strings.Fields arg = mech :: rest →
  initialResponse rest = Some ir →
  auths s !! Strings.ToUpper mech = Some sasl →
  Sasl.err (sasl [ir]) = Some e →
  ∃ c', handle s "AUTH" arg c = Ok c'
    ∧ writer c' = writer c ++ replyLines "454" [e]
    ∧ msg c' = msg c ∧ helo c' = helo c ∧ reader c' = reader c.
Proof.
  intros Hhelo Hf Hir Hmech Herr.
  rewrite handle_AUTH, (handleAuth_response s c arg mech rest Hhelo Hf), Hir.
  eexists. split; [reflexivity|]. unfold authenticate.
  destruct (auths s !! Strings.ToUpper mech) as [sasl'|] eqn:E; [|discriminate].
  injection Hmech as ->.
  rewrite (authLoop_err sasl [] ir _ c e Herr). cbn [app].
  destruct (Sasl.login (sasl [ir])); repeat split.
Qed.

(** X19.  On a connection without TLS of a server that does not allow
    insecure authentication, the reply to EHLO lists the capabilities of
    the server, STARTTLS and SIZE, and no AUTH line; the AUTH command
    itself is handled as on the server that allows it, whatever its
    argument and the state of the connection. *)
Theorem auth_served_when_not_offered (s : Server) (c : Conn)
    (arg0 domain : string) :
  AllowInsecureAuth s = false → tls (conn c) = false →
  Parse.parseHelloArgument arg0 = Some domain →
  handle s "EHLO" arg0 c =
    Ok (Write "250"
          (("Hello " +:+ domain) :: caps s
           ++ (if bool_decide (TLSConfig s ≠ None) then ["STARTTLS"] else [])
           ++ (if 0 <? MaxMessageBytes s
               then ["SIZE " +:+ Strconv.Itoa (MaxMessageBytes s)] else []))
          (setHelo domain c))
  ∧ ∀ arg c1, handle s "AUTH" arg c1
              = handle (setAllowInsecureAuth true s) "AUTH" arg c1.
Proof.
  intros Hallow Htls Hparse. split; [|reflexivity].
  change (handle s "EHLO" arg0 c) with (Ok (handleGreet s true arg0 c)).
  unfold handleGreet. cbn [negb]. rewrite Hparse. unfold ehloCaps, IsTLS.
  cbn [conn setHelo]. rewrite Htls, Hallow. cbn [negb orb app].
  rewrite andb_true_r. reflexivity.
Qed.

(** X20.  A mechanism that is not done at its first step gets the
    challenge in a 334 reply, in base64 and empty when the challenge is
    empty; the next line of the client, ended by CR LF, is decoded and
    fed to the mechanism as its second response; when the mechanism is
    then done and has stored a user, the reply 235 follows and the
    envelope is created. *)
Theorem auth_challenge_round (s : Server) (c : Conn) (arg mech : string)
    (rest0 : list string) (ir : option string) (sasl : Sasl.Server)
    (line rest r : string) (u : Backend.User) :
  helo c ≠ "" → Strings.Fields arg = mech :: rest0 →
  initialResponse rest0 = Some ir →
  auths s !! Strings.ToUpper mech = Some sasl →
  Sasl.err (sasl [ir]) = None → Sasl.done (sasl [ir]) = false →
  reader c = line +:+ CRLF +:+ rest →
  line ≠ "" → oneLine line = true →
  Scanner.fits (line +:+ String Bytes.CR "") = true →
  Base64.DecodeString line = Some r →
  Sasl.err (sasl [ir; Some r]) = None → Sasl.done (sasl [ir; Some r]) = true →
  Sasl.login (sasl [ir; Some r]) = Some u →
  ∃ c', handle s "AUTH" arg c = Ok c'
    ∧ writer c' =
        writer c
        ++ replyLines "334"
             [if Strings.isEmpty (Sasl.challenge (sasl [ir])) then ""
              else Base64.EncodeToString (Sasl.challenge (sasl [ir]))]
        ++ replyLines "235" ["Authentication succeeded"]
    ∧ User c' = Some u ∧ msg c' = Some emptyMessage ∧ helo c' = helo c.
Proof.
  intros Hhelo Hf Hir Hmech Herr1 Hdone1 Hreader Hline Hone Hfits Hdec
    Herr2 Hdone2 Hlogin2.
  rewrite handle_AUTH, (handleAuth_response s c arg mech rest0 Hhelo Hf), Hir.
  eexists. split; [reflexivity|]. unfold authenticate.
  destruct (auths s !! Strings.ToUpper mech) as [sasl'|] eqn:E; [|discriminate].
  injection Hmech as ->.
  rewrite Hreader, (scanner_first_line line rest Hone Hfits).
  cbn [authLoop app]. rewrite Herr1, Hdone1.
  apply isEmpty_false in Hline. rewrite Hline, Hdec.
  rewrite (authLoop_done sasl [ir] (Some r) _ _ Herr2 Hdone2).
  cbn [app]. rewrite Hlogin2. cbn [User setUser].
  destruct (Sasl.login (sasl [ir])); fields; rewrite <- ?app_assoc;
    repeat split.
Qed.

(** ** Reading a line, and leaving *)

Section ReadLine.

Lemma readString_some input : ∀ line rest,
  readString input = Some (line, rest) →
  input = line +:+ rest
  ∧ ∃ body, line = body +:+ String Bytes.LF "" ∧ oneLine body = true.
Proof.
  induction input as [|a input IH]; intros line rest H; [discriminate|].
  cbn [readString] in H. destruct (Bytes.isByte 10 a) eqn:Ha.
  - injection H as <- <-. split; [reflexivity|]. exists "".
    rewrite (isByte_eqb 10 a eq_refl) in Ha. apply Ascii.eqb_eq in Ha.
    subst a. split; reflexivity.
  - destruct (readString input) as [[line' rest']|] eqn:Hr; [|discriminate].
    injection H as <- <-. destruct (IH line' rest' eq_refl) as [-> [body [-> Hb]]].
    split; [reflexivity|]. exists (String a body). split; [reflexivity|].
    unfold oneLine in *. cbn [allBytes]. rewrite Ha, Hb. reflexivity.
Qed.

Lemma readString_none input : readString input = None ↔ oneLine input = true.
Proof.
  unfold oneLine. induction input as [|a input IH]; [split; reflexivity|].
  cbn [readString allBytes]. destruct (Bytes.isByte 10 a); cbn [negb andb].
  - split; discriminate.
  - rewrite <- IH. destruct (readString input) as [[line rest]|];
      split; congruence.
Qed.

End ReadLine.

(** X21.  A line that [readLine] returns ends with the first line feed
    of the input: it is a body without line feed and one line feed; the
    input was that line followed by what is left in the reader; the
    transport is neither closed nor left by a failed handshake; nothing
    of the connection but the reader has changed. *)
Theorem readLine_first_line (c c' : Conn) (line : string) :
  readLine c = (Some line, c') →
  closed (conn c) = false ∧ handshakeFailed (conn c) = false
  ∧ reader c = line +:+ reader c'
  ∧ (∃ body, line = body +:+ String Bytes.LF "" ∧ oneLine body = true)
  ∧ c' = setReader (reader c') c.
Proof.
  unfold readLine. intros H.
  destruct (closed (conn c)); [discriminate|].
  destruct (handshakeFailed (conn c)); [discriminate|].
  destruct (readString (reader c)) as [[line' rest]|] eqn:Hr; [|discriminate].
  injection H as <- <-. destruct (readString_some _ _ _ Hr) as [Hin Hbody].
  repeat split; [exact Hin | exact Hbody].
Qed.

(** X22.  [readLine] fails exactly when the transport is closed, when
    its handshake failed, or when the input holds no line feed. *)
Theorem readLine_fails (c : Conn) :
  (readLine c).1 = None
  ↔ closed (conn c) = true ∨ handshakeFailed (conn c) = true
    ∨ oneLine (reader c) = true.
Proof.
  unfold readLine. destruct (closed (conn c)); [cbn; tauto|].
  destruct (handshakeFailed (conn c)); [cbn; tauto|].
  rewrite <- readString_none.
  destruct (readString (reader c)) as [[line rest]|]; cbn [fst]; split.
  - discriminate.
  - intros [H|[H|H]]; discriminate.
  - intros _. right. right. reflexivity.
  - reflexivity.
Qed.

(** X23.  QUIT, whatever its argument, is answered by 221 and closes the
    transport; the user, if there is one, is logged out once; the
    greeting, the user and the envelope are kept as they were; the next
    read of a line fails. *)
Theorem quit_closes (s : Server) (arg : string) (c : Conn) :
  ∃ c', handle s "QUIT" arg c = Ok c'
    ∧ writer c' = writer c ++ replyLines "221" ["Goodnight and good luck"]
    ∧ closed (conn c') = true
    ∧ logouts c' = logouts c
                   ++ match User c with Some u => [u] | None => [] end
    ∧ helo c' = helo c ∧ User c' = User c ∧ msg c' = msg c
    ∧ readLine c' = (None, c').
Proof.
  eexists. split; [reflexivity|]. unfold readLine, Close, logout.
  destruct c as [h [u|] m n r w e l]; fields; rewrite ?app_nil_r; repeat split.
Qed.

(** X24.  Resetting twice is resetting once: the second reset finds no
    user to log out and nothing to clear. *)
Theorem reset_idempotent (c : Conn) : reset (reset c) = reset c.
Proof.
  unfold reset, logout. destruct c as [h [u|] m n r w e l]; reflexivity.
Qed.

(** X25.  HELO and EHLO change the greeting and nothing else of the
    session: the user, the envelope, the transport and the count of
    unknown commands stay, also on a second greeting in the middle of a
    transaction; the greeting is the parsed domain, or stays as it was
    when the argument has none. *)
Theorem greeting_keeps_session (s : Server) (cmd arg : string) (c c' : Conn) :
  cmd = "HELO" ∨ cmd = "EHLO" → handle s cmd arg c = Ok c' →
  User c' = User c ∧ msg c' = msg c ∧ conn c' = conn c
  ∧ nbrErrors c' = nbrErrors c ∧ logouts c' = logouts c
  ∧ reader c' = reader c
  ∧ helo c' = match Parse.parseHelloArgument arg with
              | Some domain => domain
              | None => helo c
              end.
Proof.
  intros [->| ->] H;
    [change (handle s "HELO" arg c) with (Ok (handleGreet s false arg c)) in H
    |change (handle s "EHLO" arg c) with (Ok (handleGreet s true arg c)) in H];
    injection H as <-; unfold handleGreet; cbn [negb];
    destruct (Parse.parseHelloArgument arg); repeat split.
Qed.

End Properties.

(** * The properties on the sample server

    Each property with a hypothesis is applied once to the sample
    server, and each statement of the specification that the code does
    not keep is refuted on it. *)

#[local] Existing Instance Sample.unicode.

Lemma unknown_commands_counted_witness :
  "FOOBAR" ≠ "" ∧ oneOf "FOOBAR" known = false ∧
  handle Sample.server "FOOBAR" "" Sample.fresh =
    Ok (setNbrErrors 1
          (Write "500" ["Syntax error, FOOBAR command unrecognized"]
             Sample.fresh)).
Proof.
  split; [discriminate|]. split; [reflexivity|].
  apply (proj1 (unknown_commands_counted Sample.server) "FOOBAR" "" Sample.fresh);
    [discriminate | reflexivity].
Defined.

(** C2, as stated, fails: after four repetitions of FOOBAR on a new
    connection it is not the case that four replies were written and
    the connection is still open for a fifth. *)
Lemma fifth_repetition_counterexample :
  ¬ ∃ c, repeatHandle Sample.server "FOOBAR" "" 4 Sample.fresh = Ok c
         ∧ length (writer c) = 4%nat ∧ closed (conn c) = false.
Proof.
  intros (c & H & Hlen & Hopen).
  vm_compute in H. injection H as <-. discriminate Hopen.
Qed.

Lemma starttls_without_tls_config_witness :
  TLSConfig Sample.server = None ∧
  ∃ text c', handle Sample.server "STARTTLS" "" Sample.authenticated = Ok c'
    ∧ writer c' = writer Sample.authenticated ++ replyLines "502" [text]
    ∧ conn c' = conn Sample.authenticated
    ∧ helo c' = helo Sample.authenticated
    ∧ User c' = User Sample.authenticated
    ∧ msg c' = msg Sample.authenticated
    ∧ logouts c' = logouts Sample.authenticated.
Proof.
  split; [reflexivity|].
  apply (starttls_without_tls_config Sample.server "" Sample.authenticated).
  reflexivity.
Defined.

Lemma rcpt_empty_address_witness :
  let c := Sample.withEnvelope "a@b" [] in
  msg c = Some (Sample.envelope "a@b" []) ∧ "a@b" ≠ "" ∧
  wellFormedTo "TO:<>" ∧ Strings.Trim (Strings.drop 3 "TO:<>") "<> " = "" ∧
  ∃ c', handle Sample.server "RCPT" "TO:<>" c = Ok c'
    ∧ writer c' = writer c ++ replyLines "250" ["I'll make sure <> gets this"]
    ∧ msg c' = Some (Sample.envelope "a@b" [""]).
Proof.
  intros c.
  assert (Hw : wellFormedTo "TO:<>") by (split; [vm_compute; discriminate | reflexivity]).
  split; [reflexivity|]. split; [discriminate|]. split; [exact Hw|].
  split; [reflexivity|].
  apply (rcpt_empty_address Sample.server c (Sample.envelope "a@b" []) "TO:<>");
    [reflexivity | discriminate | exact Hw | reflexivity | right; reflexivity].
Defined.

(** C10, as stated, fails.  With the sender set and no recipient yet,
    the argument TO: has an empty address, but it is shorter than four
    bytes: the reply is 501 and nothing is appended.  And with the
    sender set and the limit of two recipients reached, TO:<> gets the
    reply 552 and nothing is appended. *)
Lemma rcpt_empty_address_counterexample :
  let c := Sample.withEnvelope "a@b" [] in
  let full := Sample.withEnvelope "a@b" ["x@y"; "z@y"] in
  Strings.Trim (Strings.drop 3 "TO:") "<> " = ""
  ∧ handle Sample.server "RCPT" "TO:" c =
      Ok (Write "501" ["Was expecting RCPT arg syntax of TO:<address>"] c)
  ∧ (¬ ∃ c', handle Sample.server "RCPT" "TO:" c = Ok c'
             ∧ msg c' = Some (Sample.envelope "a@b" [""]))
  ∧ handle Sample.server "RCPT" "TO:<>" full =
      Ok (Write "552" ["Maximum limit of 2 recipients reached"] full)
  ∧ (¬ ∃ c', handle Sample.server "RCPT" "TO:<>" full = Ok c'
             ∧ msg c' = Some (Sample.envelope "a@b" ["x@y"; "z@y"; ""])).
Proof.
  intros c full.
  assert (H1 : handle Sample.server "RCPT" "TO:" c =
               Ok (Write "501" ["Was expecting RCPT arg syntax of TO:<address>"] c))
    by reflexivity.
  assert (H2 : handle Sample.server "RCPT" "TO:<>" full =
               Ok (Write "552" ["Maximum limit of 2 recipients reached"] full))
    by reflexivity.
  split; [reflexivity|]. split; [exact H1|]. split; [|split; [exact H2|]].
  - intros (c' & H & Hm). rewrite H1 in H. injection H as <-.
    discriminate Hm.
  - intros (c' & H & Hm). rewrite H2 in H. injection H as <-.
    discriminate Hm.
Qed.

Lemma auth_bad_initial_response_silent_witness :
  helo Sample.greeted ≠ "" ∧
  Strings.Fields "PLAIN !!!" = ["PLAIN"; "!!!"] ∧
  Base64.DecodeString "!!!" = None ∧
  handle Sample.server "AUTH" "PLAIN !!!" Sample.greeted = Ok Sample.greeted.
Proof.
  split; [discriminate|]. split; [reflexivity|]. split; [reflexivity|].
  apply (auth_bad_initial_response_silent Sample.server Sample.greeted
           "PLAIN !!!" "PLAIN" "!!!" []); [discriminate | reflexivity | reflexivity].
Defined.

Lemma auth_unknown_mechanism_witness :
  helo Sample.greeted ≠ "" ∧
  Strings.Fields "bogus aGk=" = ["bogus"; "aGk="] ∧
  auths Sample.server !! Strings.ToUpper "bogus" = None ∧
  Base64.DecodeString "aGk=" = Some "hi" ∧
  handle Sample.server "AUTH" "bogus aGk=" Sample.greeted =
    Ok (Write "504" ["Unsupported authentication mechanism"] Sample.greeted).
Proof.
  split; [discriminate|]. split; [reflexivity|]. split; [reflexivity|].
  split; [reflexivity|].
  apply (auth_unknown_mechanism Sample.server Sample.greeted "bogus aGk="
           "bogus" ["aGk="]); [discriminate | reflexivity | reflexivity |].
  intros ir Hir. injection Hir as <-. discriminate.
Defined.

(** C4, as stated, fails: with a greeting made, a mechanism that the
    server does not have and an initial response that is not base64, the
    reply 504 is not written. *)
Lemma auth_unknown_mechanism_counterexample :
  helo Sample.greeted ≠ "" ∧
  Strings.Fields "BOGUS !!!" = ["BOGUS"; "!!!"] ∧
  auths Sample.server !! Strings.ToUpper "BOGUS" = None ∧
  handle Sample.server "AUTH" "BOGUS !!!" Sample.greeted ≠
    Ok (Write "504" ["Unsupported authentication mechanism"] Sample.greeted).
Proof.
  split; [discriminate|]. split; [reflexivity|]. split; [reflexivity|].
  intros H.
  apply (f_equal (λ r, match r with Ok c => length (writer c) | Panic => 0%nat end))
    in H.
  vm_compute in H. discriminate H.
Qed.

Lemma data_completion_resets_witness :
  let c := setReader ("Hi" +:+ CRLF +:+ "." +:+ CRLF)
             (Sample.withEnvelope "a@b" ["x@y"]) in
  let m := Sample.envelope "a@b" ["x@y"] in
  msg c = Some m ∧ "a@b" ≠ "" ∧ ["x@y"] ≠ [] ∧ User c = Some Sample.user
  ∧ Backend.Send Sample.user
      (setData (Some (newDataReader Sample.server c)) m) = (Backend.Sent, "")
  ∧ (∀ text, Backend.Sent ≠ Backend.OtherError text)
  ∧ ∃ c' code text,
      handle Sample.server "DATA" "" c = Ok c'
      ∧ writer c' =
          writer c
          ++ replyLines "354" ["Go ahead. End your data with <CR><LF>.<CR><LF>"]
          ++ replyLines code [text]
      ∧ helo c' = "" ∧ User c' = None ∧ msg c' = None
      ∧ logouts c' = logouts c ++ [Sample.user].
Proof.
  intros c m.
  split; [reflexivity|]. split; [discriminate|]. split; [discriminate|].
  split; [reflexivity|]. split; [reflexivity|]. split; [discriminate|].
  apply (data_completion_resets Sample.server c m Sample.user Backend.Sent "");
    [reflexivity | discriminate | discriminate | reflexivity | reflexivity
    | discriminate].
Defined.

(** C3, as stated, fails: a DATA command that is delivered with the
    reply 250 does not leave the greeting and the user as they were. *)
Lemma data_completion_counterexample :
  let c := setReader ("Hi" +:+ CRLF +:+ "." +:+ CRLF)
             (Sample.withEnvelope "a@b" ["x@y"]) in
  helo c = "client" ∧ User c = Some Sample.user ∧
  ¬ ∃ c', handle Sample.server "DATA" "" c = Ok c'
          ∧ helo c' = helo c ∧ User c' = User c.
Proof.
  intros c. split; [reflexivity|]. split; [reflexivity|].
  intros (c' & H & Hhelo & _).
  assert (Hrun : ∃ c2, handle Sample.server "DATA" "" c = Ok c2 ∧ helo c2 = "")
    by (vm_compute; eexists; split; reflexivity).
  destruct Hrun as (c2 & H2 & Hcleared).
  rewrite H in H2. injection H2 as ->.
  rewrite Hcleared in Hhelo. discriminate Hhelo.
Qed.

Lemma mail_size_exceeded_witness :
  let c := Sample.authenticated in
  helo c ≠ "" ∧ msg c = Some emptyMessage ∧
  0 < MaxMessageBytes Sample.server ∧
  MailRegexp.FindStringSubmatch "FROM:<a@b> SIZE=2048" =
    Some ["FROM:<a@b> SIZE=2048"; "a@b"; " SIZE=2048"] ∧
  Parse.parseArgs " SIZE=2048" = Some {[ "SIZE" := "2048" ]} ∧
  Strconv.ParseInt32 (Parse.index {[ "SIZE" := "2048" ]} "SIZE") = Some 2048 ∧
  MaxMessageBytes Sample.server < 2048 ∧
  ∃ c', handle Sample.server "MAIL" "FROM:<a@b> SIZE=2048" c = Ok c'
    ∧ writer c' = writer c ++ replyLines "552" ["Max message size exceeded"]
    ∧ msg c' = Some emptyMessage.
Proof.
  intros c.
  split; [discriminate|]. split; [reflexivity|]. split; [reflexivity|].
  split; [reflexivity|]. split; [reflexivity|]. split; [reflexivity|].
  split; [reflexivity|].
  apply (mail_size_exceeded Sample.server c emptyMessage
           "FROM:<a@b> SIZE=2048" "FROM:<a@b> SIZE=2048" "a@b" " SIZE=2048"
           {[ "SIZE" := "2048" ]} 2048);
    [discriminate | reflexivity | reflexivity | reflexivity | reflexivity
    | reflexivity | reflexivity].
Defined.

Lemma chain_invariant_witness :
  chain Sample.greeted ∧
  handle Sample.server "AUTH" "PLAIN AHVzZXJuYW1lAHBhc3N3b3Jk" Sample.greeted =
    Ok (setMsg (Some emptyMessage)
          (Write "235" ["Authentication succeeded"]
             (setUser (Some Sample.user) Sample.greeted))) ∧
  chain (setMsg (Some emptyMessage)
           (Write "235" ["Authentication succeeded"]
              (setUser (Some Sample.user) Sample.greeted))).
Proof.
  assert (Hc : chain Sample.greeted)
    by (split; [intros H; contradiction H; reflexivity | intros _; discriminate]).
  assert (Hrun : handle Sample.server "AUTH" "PLAIN AHVzZXJuYW1lAHBhc3N3b3Jk"
                   Sample.greeted =
                 Ok (setMsg (Some emptyMessage)
                       (Write "235" ["Authentication succeeded"]
                          (setUser (Some Sample.user) Sample.greeted))))
    by reflexivity.
  split; [exact Hc|]. split; [exact Hrun|].
  exact (proj1 (proj2 (chain_invariant Sample.server)) _ _ _ _ Hc Hrun).
Defined.

Lemma rcpt_over_limit_witness :
  ∃ c, handleAll Sample.server Sample.session
         (greet Sample.server Sample.fresh) = Ok c
    ∧ reachable Sample.server c
    ∧ msg c = Some (Sample.envelope "a@b" ["x@y"; "z@y"])
    ∧ MaxRecipients Sample.server = 2
    ∧ wellFormedTo "TO:<w@y>"
    ∧ ∃ c', handle Sample.server "RCPT" "TO:<w@y>" c = Ok c'
        ∧ writer c' =
            writer c ++ replyLines "552" ["Maximum limit of " +:+ Strconv.Itoa 2
                                          +:+ " recipients reached"]
        ∧ msg c' = Some (Sample.envelope "a@b" ["x@y"; "z@y"]).
Proof.
  assert (Hw : wellFormedTo "TO:<w@y>")
    by (split; [vm_compute; discriminate | reflexivity]).
  eexists. split; [vm_compute; reflexivity|].
  match goal with
  | |- reachable _ ?c ∧ _ =>
    assert (Hreach : reachable Sample.server c)
  end.
  { apply (reachable_handleAll Sample.server Sample.session
             (greet Sample.server Sample.fresh));
      [apply reach_greet | vm_compute; reflexivity]. }
  split; [exact Hreach|]. split; [reflexivity|]. split; [reflexivity|].
  split; [exact Hw|].
  apply (rcpt_over_limit Sample.server _ (Sample.envelope "a@b" ["x@y"; "z@y"])
           "TO:<w@y>" 2 Hreach);
    [reflexivity | reflexivity | reflexivity | reflexivity | exact Hw].
Defined.

Lemma data_reader_unstuffs_witness :
  Forall Wire.line ["..foo"] ∧
  Wire.within 1024 (Strings.len (Wire.body (List.map Wire.unstuff ["..foo"]))) ∧
  DataReader.readAll 1024 ("..foo" +:+ CRLF +:+ "." +:+ CRLF) =
    (DataReader.Bytes (".foo" +:+ CRLF), "").
Proof.
  assert (Hline : Forall Wire.line ["..foo"]).
  { constructor; [|constructor]. split; [discriminate | reflexivity]. }
  assert (Hroom : Wire.within 1024
            (Strings.len (Wire.body (List.map Wire.unstuff ["..foo"]))))
    by (right; vm_compute; discriminate).
  split; [exact Hline|]. split; [exact Hroom|].
  exact (data_reader_unstuffs 1024 ["..foo"] "" Hline Hroom).
Defined.

(** C9, as stated, fails.  The body "a" CR LF ".b" CR LF does not
    contain CR LF "." CR LF and has no CR LF ".." to replace, yet what is
    delivered is not the input: the line ".b" arrives as "b".  And for
    the body "..foo" CR LF of the claim itself, replacing every
    CR LF ".." changes nothing, while ".foo" CR LF is delivered. *)
Lemma data_reader_replace_counterexample :
  let w := "a" +:+ CRLF +:+ ".b" +:+ CRLF in
  let v := "..foo" +:+ CRLF in
  Wire.Contains w Wire.terminator = false
  ∧ fst (DataReader.readAll 0 (w +:+ Wire.dot +:+ CRLF)) ≠
      DataReader.Bytes (Wire.ReplaceAll w Wire.stuffed Wire.plain)
  ∧ Wire.Contains v Wire.terminator = false
  ∧ fst (DataReader.readAll 0 (v +:+ Wire.dot +:+ CRLF)) ≠
      DataReader.Bytes (Wire.ReplaceAll v Wire.stuffed Wire.plain).
Proof.
  intros w v. split; [reflexivity|]. split; [|split; [reflexivity|]];
    intros H; vm_compute in H; discriminate H.
Qed.

Lemma handle_appends_witness :
  handle Sample.server "NOOP" "" Sample.greeted =
    Ok (Write "250" ["I have sucessfully done nothing"] Sample.greeted)
  ∧ ∃ lines,
      writer (Write "250" ["I have sucessfully done nothing"] Sample.greeted) =
        writer Sample.greeted ++ lines
      ∧ ("NOOP" ≠ "AUTH" → lines ≠ []).
Proof.
  split; [reflexivity|].
  apply (handle_appends Sample.server "NOOP" "" Sample.greeted). reflexivity.
Defined.

Lemma known_verbs_keep_counter_witness :
  let c := setNbrErrors 3 (Sample.withEnvelope "a@b" ["x@y"]) in
  ("RSET" = "" ∨ oneOf "RSET" known = true)
  ∧ handle Sample.server "RSET" "" c = Ok (Write "250" ["Session reset"] (reset c))
  ∧ nbrErrors (Write "250" ["Session reset"] (reset c)) = 3.
Proof.
  intros c.
  assert (Hk : "RSET" = "" ∨ oneOf "RSET" known = true) by (right; reflexivity).
  assert (Hrun : handle Sample.server "RSET" "" c =
                 Ok (Write "250" ["Session reset"] (reset c))) by reflexivity.
  split; [exact Hk|]. split; [exact Hrun|].
  exact (known_verbs_keep_counter Sample.server "RSET" "" c _ Hk Hrun).
Defined.

Lemma closed_only_by_quit_or_overflow_witness :
  handle Sample.server "QUIT" "" Sample.authenticated =
    Ok (Close (Write "221" ["Goodnight and good luck"] Sample.authenticated))
  ∧ closed (conn Sample.authenticated) = false
  ∧ closed (conn (Close (Write "221" ["Goodnight and good luck"]
                           Sample.authenticated))) = true
  ∧ ("QUIT" = "QUIT"
     ∨ ("QUIT" ≠ "" ∧ oneOf "QUIT" known = false
        ∧ 3 < Int.incr (nbrErrors Sample.authenticated))).
Proof.
  assert (Hrun : handle Sample.server "QUIT" "" Sample.authenticated =
                 Ok (Close (Write "221" ["Goodnight and good luck"]
                              Sample.authenticated))) by reflexivity.
  split; [exact Hrun|]. split; [reflexivity|]. split; [reflexivity|].
  exact (proj2 (closed_only_by_quit_or_overflow Sample.server "QUIT" ""
                  Sample.authenticated _ Hrun) eq_refl eq_refl).
Defined.

Lemma tls_only_by_starttls_witness :
  ∃ c', handle Sample.secure "STARTTLS" "" Sample.authenticated = Ok c'
    ∧ tls (conn Sample.authenticated) = false
    ∧ tls (conn c') = true
    ∧ "STARTTLS" = "STARTTLS" ∧ TLSConfig Sample.secure ≠ None.
Proof.
  eexists. split; [reflexivity|]. split; [reflexivity|]. split; [reflexivity|].
  exact (proj2 (tls_only_by_starttls Sample.secure "STARTTLS" ""
                  Sample.authenticated _ eq_refl) eq_refl eq_refl).
Defined.

Lemma panics_characterised_witness :
  ∃ c, reachable Sample.server c
    ∧ helo c ≠ "" ∧ Sample.blank ≠ "" ∧ Strings.Fields Sample.blank = []
    ∧ handle Sample.server "AUTH" Sample.blank c = Panic
    ∧ readyForData (setReader ("Hi" +:+ CRLF) c)
      = Some (Sample.envelope "a@b" ["x@y"; "z@y"])
    ∧ Backend.Send Sample.user
        (setData
           (Some (newDataReader Sample.server (setReader ("Hi" +:+ CRLF) c)))
           (Sample.envelope "a@b" ["x@y"; "z@y"]))
      = (Backend.OtherError "unexpected EOF", "")
    ∧ handle Sample.server "DATA" "" (setReader ("Hi" +:+ CRLF) c) = Panic.
Proof.
  destruct sample_session as (c & _ & Hreach & Hm & Hu & Hhelo).
  assert (Hgreeted : helo c ≠ "") by (rewrite Hhelo; discriminate).
  assert (Hready : readyForData (setReader ("Hi" +:+ CRLF) c)
                   = Some (Sample.envelope "a@b" ["x@y"; "z@y"]))
    by (unfold readyForData; cbn [msg setReader]; rewrite Hm; reflexivity).
  exists c. split; [exact Hreach|]. split; [exact Hgreeted|].
  split; [discriminate|]. split; [reflexivity|].
  split; [|split; [exact Hready|split; [reflexivity|]]].
  - apply (proj2 (panics_characterised Sample.server c "AUTH" Sample.blank
                    Hreach)).
    left. split; [reflexivity|]. split; [exact Hgreeted|].
    split; [discriminate|]. reflexivity.
  - apply (proj2 (panics_characterised Sample.server _ "DATA" ""
                    (reach_read Sample.server c ("Hi" +:+ CRLF) Hreach))).
    right. split; [reflexivity|]. split; [reflexivity|].
    exists (Sample.envelope "a@b" ["x@y"; "z@y"]), Sample.user,
      "unexpected EOF", "".
    split; [exact Hready|]. split; [exact Hu|reflexivity].
Defined.

Lemma recipients_within_limit_witness :
  ∃ c, reachable Sample.server c
    ∧ msg c = Some (Sample.envelope "a@b" ["x@y"; "z@y"])
    ∧ 0 < MaxRecipients Sample.server
    ∧ Z.of_nat (length (To (Sample.envelope "a@b" ["x@y"; "z@y"])))
      <= MaxRecipients Sample.server.
Proof.
  destruct sample_session as (c & _ & Hreach & Hm & _).
  exists c. split; [exact Hreach|]. split; [exact Hm|]. split; [reflexivity|].
  exact (recipients_within_limit Sample.server c _ Hreach Hm eq_refl).
Defined.

Lemma recipients_trimmed_witness :
  ∃ c, reachable Sample.server c
    ∧ msg c = Some (Sample.envelope "a@b" ["x@y"; "z@y"])
    ∧ Forall trimmed (To (Sample.envelope "a@b" ["x@y"; "z@y"])).
Proof.
  destruct sample_session as (c & _ & Hreach & Hm & _).
  exists c. split; [exact Hreach|]. split; [exact Hm|].
  exact (recipients_trimmed Sample.server c _ Hreach Hm).
Defined.

Lemma recipients_need_sender_witness :
  ∃ c, reachable Sample.server c
    ∧ msg c = Some (Sample.envelope "a@b" ["x@y"; "z@y"])
    ∧ To (Sample.envelope "a@b" ["x@y"; "z@y"]) ≠ []
    ∧ From (Sample.envelope "a@b" ["x@y"; "z@y"]) ≠ "".
Proof.
  destruct sample_session as (c & _ & Hreach & Hm & _).
  exists c. split; [exact Hreach|]. split; [exact Hm|]. split; [discriminate|].
  apply (recipients_need_sender Sample.server c _ Hreach Hm). discriminate.
Defined.

Lemma out_of_order_502_witness :
  outOfOrder "MAIL" "FROM:<a@b>" Sample.greeted
  ∧ ∃ text, handle Sample.server "MAIL" "FROM:<a@b>" Sample.greeted =
              Ok (Write "502" [text] Sample.greeted).
Proof.
  assert (H : outOfOrder "MAIL" "FROM:<a@b>" Sample.greeted)
    by (left; split; [reflexivity | right; reflexivity]).
  split; [exact H|].
  exact (out_of_order_502 Sample.server "MAIL" "FROM:<a@b>" Sample.greeted H).
Defined.

Lemma syntax_error_501_witness :
  badSyntax "RCPT" "alice@example.com" (Sample.withEnvelope "a@b" [])
  ∧ ∃ text, handle Sample.server "RCPT" "alice@example.com"
              (Sample.withEnvelope "a@b" []) =
            Ok (Write "501" [text] (Sample.withEnvelope "a@b" [])).
Proof.
  assert (H : badSyntax "RCPT" "alice@example.com" (Sample.withEnvelope "a@b" []))
    by (right; right; left; split; [reflexivity | split; reflexivity]).
  split; [exact H|].
  exact (syntax_error_501 Sample.server "RCPT" "alice@example.com"
           (Sample.withEnvelope "a@b" []) H).
Defined.

Lemma mail_plain_address_accepted_witness :
  let c := Sample.withEnvelope "old@b" ["x@y"] in
  helo c ≠ "" ∧ msg c = Some (Sample.envelope "old@b" ["x@y"])
  ∧ "new@b" ≠ "" ∧ allBytes plainByte "new@b" = true
  ∧ handle Sample.server "MAIL" ("FROM:<" +:+ "new@b" +:+ ">") c =
      Ok (Write "250" ["Roger, accepting mail from <" +:+ "new@b" +:+ ">"]
            (setMsg (Some (Sample.envelope "new@b" ["x@y"])) c)).
Proof.
  intros c. split; [discriminate|]. split; [reflexivity|].
  split; [discriminate|]. split; [reflexivity|].
  apply (mail_plain_address_accepted Sample.server c
           (Sample.envelope "old@b" ["x@y"]) "new@b");
    [discriminate | reflexivity | discriminate | reflexivity].
Defined.

Lemma rcpt_bracketed_address_witness :
  let c := Sample.withEnvelope "a@b" ["x@y"] in
  msg c = Some (Sample.envelope "a@b" ["x@y"]) ∧ "a@b" ≠ ""
  ∧ allBytes keptByte "x@y" = true
  ∧ handle Sample.server "RCPT" ("TO:<" +:+ "x@y" +:+ ">") c =
      Ok (Write "250" ["I'll make sure <" +:+ "x@y" +:+ "> gets this"]
            (setMsg (Some (Sample.envelope "a@b" ["x@y"; "x@y"])) c)).
Proof.
  intros c. split; [reflexivity|]. split; [discriminate|].
  split; [reflexivity|].
  apply (rcpt_bracketed_address Sample.server c (Sample.envelope "a@b" ["x@y"])
           "x@y"); [reflexivity | discriminate | reflexivity | right; reflexivity].
Defined.

Lemma data_delivery_witness :
  let c := setReader ("Hi" +:+ CRLF +:+ "." +:+ CRLF +:+ "QUIT" +:+ CRLF)
             (Sample.withEnvelope "a@b" ["x@y"]) in
  msg c = Some (Sample.envelope "a@b" ["x@y"]) ∧ "a@b" ≠ "" ∧ ["x@y"] ≠ []
  ∧ User c = Some Sample.user
  ∧ Backend.Send Sample.user
      {| From := "a@b"; To := ["x@y"];
         Data := Some {| DataReader.limit := MaxMessageBytes Sample.server;
                         DataReader.input := reader c |} |}
    = (Backend.Sent, "QUIT" +:+ CRLF)
  ∧ ∃ c', handle Sample.server "DATA" "" c = Ok c'
      ∧ writer c' =
          writer c
          ++ replyLines "354" ["Go ahead. End your data with <CR><LF>.<CR><LF>"]
          ++ replyLines "250" ["Ok: queued"]
      ∧ reader c' = "QUIT" +:+ CRLF.
Proof.
  intros c. split; [reflexivity|]. split; [discriminate|].
  split; [discriminate|]. split; [reflexivity|]. split; [reflexivity|].
  apply (data_delivery Sample.server c (Sample.envelope "a@b" ["x@y"])
           Sample.user Backend.Sent ("QUIT" +:+ CRLF));
    [reflexivity | discriminate | discriminate | reflexivity | reflexivity].
Defined.

Lemma mail_after_data_refused_witness :
  let c := setReader ("Hi" +:+ CRLF +:+ "." +:+ CRLF)
             (Sample.withEnvelope "a@b" ["x@y"]) in
  msg c = Some (Sample.envelope "a@b" ["x@y"]) ∧ "a@b" ≠ "" ∧ ["x@y"] ≠ []
  ∧ User c = Some Sample.user
  ∧ Backend.Send Sample.user
      (setData (Some (newDataReader Sample.server c))
         (Sample.envelope "a@b" ["x@y"])) = (Backend.Sent, "")
  ∧ ∃ c', handle Sample.server "DATA" "" c = Ok c'
      ∧ handle Sample.server "MAIL" "FROM:<a@b>" c' =
          Ok (Write "502" ["Please introduce yourself first."] c').
Proof.
  intros c. split; [reflexivity|]. split; [discriminate|].
  split; [discriminate|]. split; [reflexivity|]. split; [reflexivity|].
  apply (mail_after_data_refused Sample.server c (Sample.envelope "a@b" ["x@y"])
           Sample.user Backend.Sent "" "FROM:<a@b>");
    [reflexivity | discriminate | discriminate | reflexivity | reflexivity
    | discriminate].
Defined.

Lemma starttls_upgrade_resets_witness :
  let c := setConn Sample.deaf Sample.authenticated in
  TLSConfig Sample.secure = Some () ∧ tls (conn c) = false
  ∧ ∃ c', handle Sample.secure "STARTTLS" "" c = Ok c'
      ∧ tls (conn c') = true
      ∧ handshakeFailed (conn c') = negb (peerHandshakes (conn c))
      ∧ closed (conn c') = closed (conn c)
      ∧ writer c' =
          writer c ++ replyLines "220" ["Ready to start TLS"]
          ++ (if peerHandshakes (conn c) then []
              else replyLines "550" ["Handshake error"])
      ∧ helo c' = "" ∧ User c' = None ∧ msg c' = None
      ∧ handle Sample.secure "MAIL" "FROM:<a@b>" c' =
          Ok (Write "502" ["Please introduce yourself first."] c').
Proof.
  intros c. split; [reflexivity|]. split; [reflexivity|].
  apply (starttls_upgrade_resets Sample.secure c () "" "FROM:<a@b>");
    reflexivity.
Defined.

Lemma auth_done_at_once_witness :
  let c := Sample.withEnvelope "a@b" ["x@y"] in
  let ir := Some (Sample.nul +:+ "username" +:+ Sample.nul +:+ "password") in
  helo c ≠ ""
  ∧ Strings.Fields "plain AHVzZXJuYW1lAHBhc3N3b3Jk" =
      ["plain"; "AHVzZXJuYW1lAHBhc3N3b3Jk"]
  ∧ initialResponse ["AHVzZXJuYW1lAHBhc3N3b3Jk"] = Some ir
  ∧ auths Sample.server !! Strings.ToUpper "plain" = Some Sample.plain
  ∧ ∃ c', handle Sample.server "AUTH" "plain AHVzZXJuYW1lAHBhc3N3b3Jk" c = Ok c'
      ∧ writer c' = writer c ++ replyLines "235" ["Authentication succeeded"]
      ∧ User c' = Some Sample.user ∧ msg c' = Some emptyMessage
      ∧ helo c' = helo c ∧ reader c' = reader c.
Proof.
  intros c ir. split; [discriminate|]. split; [reflexivity|].
  split; [reflexivity|]. split; [reflexivity|].
  apply (auth_done_at_once Sample.server c "plain AHVzZXJuYW1lAHBhc3N3b3Jk"
           "plain" ["AHVzZXJuYW1lAHBhc3N3b3Jk"] ir Sample.plain Sample.user);
    [discriminate | reflexivity | reflexivity | reflexivity | reflexivity
    | reflexivity | left; reflexivity].
Defined.

Lemma auth_error_at_once_witness :
  let c := Sample.greeted in
  helo c ≠ ""
  ∧ Strings.Fields "PLAIN aGk=" = ["PLAIN"; "aGk="]
  ∧ initialResponse ["aGk="] = Some (Some "hi")
  ∧ auths Sample.server !! Strings.ToUpper "PLAIN" = Some Sample.plain
  ∧ Sasl.err (Sample.plain [Some "hi"]) = Some "Invalid username or password"
  ∧ ∃ c', handle Sample.server "AUTH" "PLAIN aGk=" c = Ok c'
      ∧ writer c' = writer c ++ replyLines "454" ["Invalid username or password"]
      ∧ msg c' = msg c ∧ helo c' = helo c ∧ reader c' = reader c.
Proof.
  intros c. split; [discriminate|]. split; [reflexivity|].
  split; [reflexivity|]. split; [reflexivity|]. split; [reflexivity|].
  apply (auth_error_at_once Sample.server c "PLAIN aGk=" "PLAIN" ["aGk="]
           (Some "hi") Sample.plain "Invalid username or password");
    [discriminate | reflexivity | reflexivity | reflexivity | reflexivity].
Defined.

Lemma auth_served_when_not_offered_witness :
  AllowInsecureAuth Sample.secure = false
  ∧ tls (conn Sample.fresh) = false
  ∧ Parse.parseHelloArgument "client" = Some "client"
  ∧ handle Sample.secure "EHLO" "client" Sample.fresh =
      Ok (Write "250" ["Hello client"; "PIPELINING"; "STARTTLS"; "SIZE 1024"]
            (setHelo "client" Sample.fresh))
  ∧ ∀ arg c1, handle Sample.secure "AUTH" arg c1
              = handle (setAllowInsecureAuth true Sample.secure) "AUTH" arg c1.
Proof.
  split; [reflexivity|]. split; [reflexivity|]. split; [reflexivity|].
  exact (auth_served_when_not_offered Sample.secure Sample.fresh
           "client" "client" eq_refl eq_refl eq_refl).
Defined.

Lemma auth_challenge_round_witness :
  let c := setReader ("AHVzZXJuYW1lAHBhc3N3b3Jk" +:+ CRLF +:+ "")
             Sample.greeted in
  let r := Sample.nul +:+ "username" +:+ Sample.nul +:+ "password" in
  helo c ≠ ""
  ∧ Strings.Fields "PLAIN" = ["PLAIN"]
  ∧ Sasl.done (Sample.plain [None]) = false
  ∧ Base64.DecodeString "AHVzZXJuYW1lAHBhc3N3b3Jk" = Some r
  ∧ Sasl.login (Sample.plain [None; Some r]) = Some Sample.user
  ∧ ∃ c', handle Sample.server "AUTH" "PLAIN" c = Ok c'
      ∧ writer c' =
          writer c
          ++ replyLines "334"
               [if Strings.isEmpty (Sasl.challenge (Sample.plain [None])) then ""
                else Base64.EncodeToString
                       (Sasl.challenge (Sample.plain [None]))]
          ++ replyLines "235" ["Authentication succeeded"]
      ∧ User c' = Some Sample.user ∧ msg c' = Some emptyMessage
      ∧ helo c' = helo c.
Proof.
  intros c r. split; [discriminate|]. split; [reflexivity|].
  split; [reflexivity|]. split; [reflexivity|]. split; [reflexivity|].
  apply (auth_challenge_round Sample.server c "PLAIN" "PLAIN" [] None
           Sample.plain "AHVzZXJuYW1lAHBhc3N3b3Jk" "" r Sample.user);
    [discriminate | reflexivity | reflexivity | reflexivity | reflexivity
    | reflexivity | reflexivity | discriminate | reflexivity | reflexivity
    | reflexivity | reflexivity | reflexivity | reflexivity].
Defined.

Lemma readLine_first_line_witness :
  let c := setReader ("NOOP" +:+ CRLF +:+ "QUIT" +:+ CRLF) Sample.greeted in
  let c' := setReader ("QUIT" +:+ CRLF) Sample.greeted in
  readLine c = (Some ("NOOP" +:+ CRLF), c')
  ∧ closed (conn c) = false ∧ handshakeFailed (conn c) = false
  ∧ reader c = ("NOOP" +:+ CRLF) +:+ reader c'
  ∧ (∃ body, "NOOP" +:+ CRLF = body +:+ String Bytes.LF ""
             ∧ oneLine body = true)
  ∧ c' = setReader (reader c') c.
Proof.
  intros c c'. split; [reflexivity|].
  exact (readLine_first_line c c' ("NOOP" +:+ CRLF) eq_refl).
Defined.

Lemma greeting_keeps_session_witness :
  let c := Sample.withEnvelope "a@b" ["x@y"] in
  ∃ c', handle Sample.server "EHLO" "other" c = Ok c'
    ∧ User c' = User c ∧ msg c' = msg c ∧ conn c' = conn c
    ∧ nbrErrors c' = nbrErrors c ∧ logouts c' = logouts c
    ∧ reader c' = reader c
    ∧ helo c' = match Parse.parseHelloArgument "other" with
                | Some domain => domain
                | None => helo c
                end.
Proof.
  intros c. eexists. split; [reflexivity|].
  apply (greeting_keeps_session Sample.server "EHLO" "other" c _
           (or_intror eq_refl) eq_refl).
Defined.
